(** * Versioned requirement store: key normalisation, version chains,
      blocking, comment threads, notification fan-out and change history.

    A shallow embedding of [app/models.py], [app/agent.py], [app/routes.py]
    and [app/utils/notifications.py].

    Conventions of the embedding.
    - A Python [str] is the list of its code points ([N]).  Whitespace is
      Python's own table ([str.isspace], which is also what [\s] means for
      the [re] module on [str] patterns).  Case mapping and the word class
      [\w] are given for ASCII and Latin-1; code points above U+00FF are
      left alone by [lower] and are not word characters.
    - Database tables are lists of rows in insertion order; a query without
      [order_by] returns rows in table order, [first()] its head.  A
      relationship such as [req.versions] reads the rows of the table as
      they stand.
    - Integers are [Z]; nullable columns are [option].
    - A route is a function from the database, the id of [current_user]
      and the request data to an [outcome]; what a route does after its
      commit (flash messages, redirects, the notification fan-out of
      [generate] and of the update) is not part of it.  The external
      collaborators (the text generator, the spreadsheet reader) are
      represented by the data they hand over. *)

From Stdlib Require Import ZArith NArith List Bool Lia String Ascii Sorted.
Import ListNotations.

Set Implicit Arguments.

(* ===================================================================== *)
(** ** Python text *)
(* ===================================================================== *)

Definition str := list N.

(** An ASCII literal as a [str]. *)
Definition lit (s : string) : str :=
  map N_of_ascii (list_ascii_of_string s).

Definition str_eqb (a b : str) : bool :=
  if list_eq_dec N.eq_dec a b then true else false.

Open Scope N_scope.

Definition between (lo hi c : N) : bool := (lo <=? c) && (c <=? hi).

(** [str.isspace] on one code point. *)
Definition isspace (c : N) : bool :=
  between 9 13 c || between 28 32 c || (c =? 133) || (c =? 160)
  || (c =? 5760) || between 8192 8202 c || (c =? 8232) || (c =? 8233)
  || (c =? 8239) || (c =? 8287) || (c =? 12288).

(** [str.lower] on one code point: A-Z and the Latin-1 capitals
    (U+00C0..U+00DE without the multiplication sign U+00D7). *)
Definition lower_cp (c : N) : N :=
  if between 65 90 c then c + 32
  else if between 192 222 c && negb (c =? 215) then c + 32
  else c.

Definition SPACE : N := 32.

Close Scope N_scope.

(** The text algorithms, over any code-point case map. *)
Section Normalise.

Variable lower1 : N -> N.

Definition lower (s : str) : str := map lower1 s.

(** [str.lstrip()] *)
Fixpoint lstrip (s : str) : str :=
  match s with
  | [] => []
  | c :: r => if isspace c then lstrip r else s
  end.

(** [str.rstrip()] *)
Definition rstrip (s : str) : str := rev (lstrip (rev s)).

(** [str.strip()] *)
Definition strip (s : str) : str := rstrip (lstrip s).

(** [re.sub(r"\s+", " ", s)]: the flag records that the scan is inside a
    whitespace run whose replacement has already been emitted. *)
Fixpoint sub_ws_from (in_run : bool) (s : str) : str :=
  match s with
  | [] => []
  | c :: r =>
      if isspace c
      then (if in_run then sub_ws_from true r else SPACE :: sub_ws_from true r)
      else c :: sub_ws_from false r
  end.

Definition sub_ws (s : str) : str := sub_ws_from false s.

(** [normalize_key] of [app/agent.py]. *)
Definition normalize_key_with (title : str) : str :=
  match title with
  | [] => []
  | _ => sub_ws (lower (strip title))
  end.

(** *** The same function in the spec's words

    Cut the title into its maximal whitespace-free words, lower-case each
    word, and join the words with single spaces. *)

Fixpoint words_from (cur : str) (s : str) : list str :=
  match s with
  | [] => match cur with [] => [] | _ => [rev cur] end
  | c :: r =>
      if isspace c
      then match cur with
           | [] => words_from [] r
           | _ => rev cur :: words_from [] r
           end
      else words_from (c :: cur) r
  end.

Definition words (s : str) : list str := words_from [] s.

Fixpoint join_sp (ws : list str) : str :=
  match ws with
  | [] => []
  | [w] => w
  | w :: rest => w ++ SPACE :: join_sp rest
  end.

Definition spec_normalize_with (title : str) : str :=
  join_sp (map lower (words title)).

End Normalise.

Definition normalize_key : str -> str := normalize_key_with lower_cp.

(** [int(s)] for a [str] in base 10: surrounding whitespace is ignored, one
    sign is allowed, and digits may be grouped by single underscores.
    [None] stands for [ValueError].  Only ASCII digits are recognised. *)
Definition digit_val (c : N) : option Z :=
  if between 48 57 c then Some (Z.of_N c - 48)%Z else None.

Fixpoint int_digits (acc : Z) (after_digit : bool) (s : str) : option Z :=
  match s with
  | [] => if after_digit then Some acc else None
  | c :: r =>
      if (c =? 95)%N
      then (if after_digit then int_digits acc false r else None)
      else match digit_val c with
           | Some d => int_digits (10 * acc + d)%Z true r
           | None => None
           end
  end.

Definition py_int (s : str) : option Z :=
  match strip s with
  | 43%N :: r => int_digits 0 false r
  | 45%N :: r => option_map Z.opp (int_digits 0 false r)
  | r => int_digits 0 false r
  end.

(** Truth value of a [str]. *)
Definition truthy (s : str) : bool :=
  match s with [] => false | _ => true end.

(** [a or b] on strings. *)
Definition str_or (a b : str) : str := if truthy a then a else b.

(* ===================================================================== *)
(** ** Python dicts with string keys and values *)
(* ===================================================================== *)

(** Insertion-ordered, as [dict] is; [json.dumps] writes this order. *)
Definition dict := list (str * str).

Fixpoint dict_get (d : dict) (k : str) : option str :=
  match d with
  | [] => None
  | (k', v) :: r => if str_eqb k' k then Some v else dict_get r k
  end.

(** [d.get(k, default)] *)
Definition dict_get_or (d : dict) (k default : str) : str :=
  match dict_get d k with Some v => v | None => default end.

(** [d[k] = v]: an existing key keeps its position. *)
Fixpoint dict_set (d : dict) (k v : str) : dict :=
  match d with
  | [] => [(k, v)]
  | (k', v') :: r =>
      if str_eqb k' k then (k', v) :: r else (k', v') :: dict_set r k v
  end.

Definition dict_keys (d : dict) : list str := map fst d.

(* ===================================================================== *)
(** ** [app/models.py] *)
(* ===================================================================== *)

(** [version_label]: [chr(ord('A') + (n - 1))], the one-character string of
    that code point. *)
Definition version_label (n : Z) : str :=
  if (n <=? 0)%Z then [] else [Z.to_N (65 + (n - 1))].

Record User := mkUser {
  u_id : Z;
  u_email : str
}.

Record Project := mkProject {
  p_id : Z;
  p_user_id : Z;                    (* the owner *)
  p_custom_columns : list str;
  p_shared_with : list Z            (* ids of the users it is shared with *)
}.

Record Requirement := mkRequirement {
  r_id : Z;
  r_project_id : Z;
  r_key : option str;               (* nullable *)
  r_is_deleted : bool
}.

Record RequirementVersion := mkVersion {
  v_id : Z;
  v_requirement_id : Z;
  v_version_index : Z;
  v_version_label : str;
  v_title : str;
  v_description : str;
  v_category : option str;          (* nullable *)
  v_status : str;
  v_custom_data : dict;             (* the JSON column, decoded *)
  v_created_by_id : option Z;
  v_last_modified_by_id : option Z;
  v_is_blocked : bool;
  v_blocked_by_id : option Z;
  v_blocked_at : option Z
}.

Record RequirementVersionHistory := mkHistory {
  h_id : Z;
  h_version_id : Z;
  h_changed_by_id : Z;
  h_change_type : str;
  h_changes : dict                  (* the JSON column, decoded *)
}.

Record RequirementComment := mkComment {
  c_id : Z;
  c_version_id : Z;
  c_author_id : Z;
  c_text : str;
  c_parent_comment_id : option Z;
  c_created_at : Z;
  c_is_deleted : bool
}.

(** A notification row; title, message and metadata are texts built from
    the same arguments and are left out. *)
Record Notification := mkNotification {
  n_user_id : Z;
  n_notification_type : str;
  n_related_type : str;
  n_related_id : Z
}.

(** The tables the modelled routes read and write. *)
Record DB := mkDB {
  users : list User;
  projects : list Project;
  requirements : list Requirement;
  versions : list RequirementVersion;
  history : list RequirementVersionHistory;
  comments : list RequirementComment
}.

Open Scope Z_scope.

(** [Project.is_accessible_by] *)
Definition is_accessible_by (p : Project) (user : Z) : bool :=
  (p_user_id p =? user) || existsb (Z.eqb user) (p_shared_with p).

(** [x == y] between a nullable id column and an id. *)
Definition opt_is (x : option Z) (y : Z) : bool :=
  match x with Some a => a =? y | None => false end.

(** [RequirementVersion.can_be_edited_by]; [p] is
    [self.requirement.project]. *)
Definition can_be_edited_by (p : Project) (v : RequirementVersion) (user : Z)
  : bool :=
  if negb (v_is_blocked v) then true
  else opt_is (v_blocked_by_id v) user || (p_user_id p =? user).

(** [RequirementVersion.can_be_blocked_by] *)
Definition can_be_blocked_by (p : Project) (v : RequirementVersion) (user : Z)
  : bool :=
  if p_user_id p =? user then true
  else if negb (v_is_blocked v) then is_accessible_by p user
  else opt_is (v_blocked_by_id v) user.

(* ===================================================================== *)
(** ** Queries *)
(* ===================================================================== *)

(** The outcome of a route: the committed database, or [abort(status)]. *)
Inductive outcome (A : Type) : Type :=
| Done (a : A)
| Abort (status : Z).
Arguments Done {A} a.
Arguments Abort {A} status.

(** [Model.query.get(id)] *)
Definition get_by {A : Type} (id_of : A -> Z) (rows : list A) (id : Z)
  : option A :=
  find (fun x => id_of x =? id) rows.

(** The next value of an integer primary key: one more than the largest
    key in the table. *)
Definition next_id {A : Type} (id_of : A -> Z) (rows : list A) : Z :=
  1 + fold_right (fun x m => Z.max (id_of x) m) 0 rows.

(** [ORDER BY key ASC], stable. *)
Fixpoint insert_by {A : Type} (key : A -> Z) (x : A) (l : list A) : list A :=
  match l with
  | [] => [x]
  | y :: r => if key x <=? key y then x :: l else y :: insert_by key x r
  end.

Definition order_by {A : Type} (key : A -> Z) (l : list A) : list A :=
  fold_right (insert_by key) [] l.

(** [req.versions]: the relationship, ordered by [version_index]. *)
Definition req_versions (db : DB) (rid : Z) : list RequirementVersion :=
  order_by v_version_index
    (filter (fun v => v_requirement_id v =? rid) (versions db)).

(** [Requirement.get_latest_version] *)
Definition get_latest_version (db : DB) (rid : Z) : option RequirementVersion :=
  match req_versions db rid with
  | [] => None
  | v :: r => Some (last r v)
  end.

Definition get_project (db : DB) (pid : Z) : option Project :=
  get_by p_id (projects db) pid.

(** [check_requirement_access]: the project of the requirement, when the
    current user may use it; 403 otherwise. *)
Definition check_requirement_access (db : DB) (user : Z) (req : Requirement)
  : outcome Project :=
  match get_project db (r_project_id req) with
  | None => Abort 500            (* no such row: the foreign key forbids it *)
  | Some p => if is_accessible_by p user then Done p else Abort 403
  end.

(* ===================================================================== *)
(** ** [app/agent.py] *)
(* ===================================================================== *)

(** [next_version_info] *)
Definition next_version_info (db : DB) (req : Requirement) : Z * str :=
  match get_latest_version db (r_id req) with
  | None => (1, version_label 1)
  | Some lastv =>
      let new_idx := v_version_index lastv + 1 in
      (new_idx, version_label new_idx)
  end.

Definition key_is (key : str) (r : Requirement) : bool :=
  match r_key r with Some k => str_eqb k key | None => false end.

(** [Requirement.query.filter_by(project_id=..., key=...).first()] *)
Definition find_by_key (db : DB) (pid : Z) (key : str) : option Requirement :=
  find (fun r => (r_project_id r =? pid) && key_is key r) (requirements db).

(** The [id] hint of a generated item, [generate] lines 294-304. *)
Definition find_by_hint (db : DB) (pid : Z) (item : dict)
  : option Requirement :=
  match dict_get item (lit "id") with
  | None => None
  | Some req_id_val =>
      if truthy req_id_val then
        match py_int (strip req_id_val) with
        | None => None                              (* ValueError: pass *)
        | Some rid =>
            match get_by r_id (requirements db) rid with
            | Some req => if r_project_id req =? pid then Some req else None
            | None => None
            end
        end
      else None
  end.

Definition add_requirement (db : DB) (r : Requirement) : DB :=
  mkDB (users db) (projects db) (requirements db ++ [r]) (versions db)
       (history db) (comments db).

(** [generate] lines 294-324: the requirement a generated item belongs to,
    with the index and label of the version to write. *)
Definition resolve_or_create (db : DB) (pid : Z) (item : dict) (title : str)
  : DB * Requirement * (Z * str) :=
  match find_by_hint db pid item with
  | Some req => (db, req, next_version_info db req)
  | None =>
      let key := normalize_key title in
      match find_by_key db pid key with
      | Some req => (db, req, next_version_info db req)
      | None =>
          let req := mkRequirement (next_id r_id (requirements db)) pid
                                   (Some key) false in
          (add_requirement db req, req, (1, version_label 1))
      end
  end.

Definition add_version (db : DB) (v : RequirementVersion) : DB :=
  mkDB (users db) (projects db) (requirements db) (versions db ++ [v])
       (history db) (comments db).

Definition add_history (db : DB) (h : RequirementVersionHistory) : DB :=
  mkDB (users db) (projects db) (requirements db) (versions db)
       (history db ++ [h]) (comments db).

(** A freshly constructed [RequirementVersion] with the column defaults. *)
Definition new_version (db : DB) (rid idx : Z) (label title description : str)
  (category : option str) (status : str) (custom : dict) (user : Z)
  : RequirementVersion :=
  mkVersion (next_id v_id (versions db)) rid idx label title description
            category status custom (Some user) None false None None.

(** The ['created'] history row written next to a new version. *)
Definition created_entry (db : DB) (vid user : Z) (action label : str)
  : RequirementVersionHistory :=
  mkHistory (next_id h_id (history db)) vid user (lit "created")
            [(lit "action", action); (lit "version", label)].

(** Add a version and its ['created'] row. *)
Definition store_version (db : DB) (v : RequirementVersion) (user : Z)
  (action : str) : DB :=
  let db1 := add_version db v in
  add_history db1 (created_entry db1 (v_id v) user action (v_version_label v)).

(** [generate] lines 339-343: the custom columns an item carries. *)
Fixpoint pick_columns (cols : list str) (item : dict) (acc : dict) : dict :=
  match cols with
  | [] => acc
  | col :: rest =>
      let value := dict_get_or item col [] in
      pick_columns rest item
        (if truthy value then dict_set acc col value else acc)
  end.

(** [generate] lines 346-352. *)
Definition quantifiable_flag (item : dict) : str :=
  match dict_get item (lit "is_quantifiable") with
  | None => lit "false"
  | Some s =>
      let l := lower lower_cp s in
      if str_eqb l (lit "true") || str_eqb l (lit "1") || str_eqb l (lit "yes")
      then lit "true" else lit "false"
  end.

(** One turn of the loop of [generate] (lines 285-370). *)
Definition generate_item (user pid : Z) (custom_columns : list str) (db : DB)
  (item : dict) : DB :=
  let title := strip (dict_get_or item (lit "title") []) in
  if negb (truthy title) then db
  else
    let description := strip (dict_get_or item (lit "description") []) in
    let category := str_or (dict_get_or item (lit "category") []) [] in
    let status := str_or (dict_get_or item (lit "status") []) (lit "Offen") in
    let '(db1, req, (version_index, label)) :=
      resolve_or_create db pid item title in
    let custom :=
      dict_set (pick_columns custom_columns item [])
               (lit "is_quantifiable") (quantifiable_flag item) in
    store_version db1
      (new_version db1 (r_id req) version_index label title description
                   (Some category) status custom user)
      user (lit "Version erstellt").

(** [generate], from the list [generate_requirements] returned on. *)
Definition generate (db : DB) (user pid : Z) (requirements_data : list dict)
  : outcome DB :=
  match get_project db pid with
  | None => Abort 404
  | Some p =>
      if is_accessible_by p user then
        Done (fold_left (generate_item user pid (p_custom_columns p))
                        requirements_data db)
      else Abort 403
  end.

(* ===================================================================== *)
(** ** [app/routes.py]: import, regenerate, delete, restore *)
(* ===================================================================== *)

(** A spreadsheet row with its cells already located by the header row;
    [None] is an empty cell. *)
Record Row := mkRow {
  row_title : option str;
  row_description : option str;
  row_category : option str;
  row_status : option str;
  row_custom : list (str * option str)
}.

(** [str(cell).strip() if cell else default] *)
Definition cell_or (cell : option str) (default : str) : str :=
  match cell with
  | Some s => if truthy s then strip s else default
  | None => default
  end.

Definition valid_status (s : str) : bool :=
  str_eqb s (lit "Offen") || str_eqb s (lit "In Arbeit")
  || str_eqb s (lit "Fertig").

Fixpoint row_custom_data (cells : list (str * option str)) (acc : dict) : dict :=
  match cells with
  | [] => acc
  | (col, cell) :: rest =>
      row_custom_data rest
        (match cell with
         | Some s => if truthy s then dict_set acc col (strip s) else acc
         | None => acc
         end)
  end.

(** One turn of the loop of [import_excel] (lines 985-1059). *)
Definition import_row (user pid : Z) (db : DB) (row : Row) : DB :=
  let title := cell_or (row_title row) [] in
  if negb (truthy title) then db
  else
    let description := cell_or (row_description row) [] in
    if negb (truthy description) then db
    else
      let category := cell_or (row_category row) [] in
      let status0 := cell_or (row_status row) (lit "Offen") in
      let status := if valid_status status0 then status0 else lit "Offen" in
      let key := normalize_key title in
      let '(db1, rid, version_index, label) :=
        match find_by_key db pid key with
        | None =>
            let req := mkRequirement (next_id r_id (requirements db)) pid
                                     (Some key) false in
            (add_requirement db req, r_id req, 1, lit "A")
        | Some req =>
            let idx := match get_latest_version db (r_id req) with
                       | Some lastv => v_version_index lastv + 1
                       | None => 1
                       end in
            (db, r_id req, idx, [Z.to_N (65 + (idx - 1))])
        end in
      store_version db1
        (new_version db1 rid version_index label title description
                     (Some category) status (row_custom_data (row_custom row) [])
                     user)
        user (lit "Version importiert (Excel)").

Definition import_excel (db : DB) (user pid : Z) (rows : list Row)
  : outcome DB :=
  match get_project db pid with
  | None => Abort 404
  | Some p =>
      if is_accessible_by p user
      then Done (fold_left (import_row user pid) rows db)
      else Abort 403
  end.

(** [regenerate_requirement] lines 746-751. *)
Fixpoint regenerated_columns (cols : list str) (result old : dict) (acc : dict)
  : dict :=
  match cols with
  | [] => acc
  | col :: rest =>
      let value := dict_get_or result col (dict_get_or old col []) in
      regenerated_columns rest result old
        (if truthy value then dict_set acc col value else acc)
  end.

(** [regenerate_requirement]; [result] is what
    [generate_single_requirement_alternative] returned. *)
Definition regenerate_requirement (db : DB) (user rid : Z)
  (result : option dict) : outcome DB :=
  match get_by r_id (requirements db) rid with
  | None => Abort 404
  | Some req =>
      match check_requirement_access db user req with
      | Abort s => Abort s
      | Done p =>
          match get_latest_version db (r_id req), result with
          | None, _ | _, None | _, Some [] => Done db
          | Some latest, Some res =>
              let next_index := v_version_index latest + 1 in
              let next_label := [Z.to_N (65 + (next_index - 1))] in
              let category := match dict_get res (lit "category") with
                              | Some c => Some c
                              | None => v_category latest
                              end in
              Done (store_version db
                (new_version db (r_id req) next_index next_label
                   (dict_get_or res (lit "title") (v_title latest))
                   (dict_get_or res (lit "description") (v_description latest))
                   category (lit "Offen")
                   (regenerated_columns (p_custom_columns p) res
                                        (v_custom_data latest) [])
                   user)
                user (lit "Version regeneriert (KI)"))
          end
      end
  end.

Definition set_deleted (flag : bool) (rid : Z) (r : Requirement) : Requirement :=
  if r_id r =? rid
  then mkRequirement (r_id r) (r_project_id r) (r_key r) flag
  else r.

(** [req.is_deleted = flag] for the requirement with this id. *)
Definition mark_requirement (db : DB) (rid : Z) (flag : bool) : DB :=
  mkDB (users db) (projects db) (map (set_deleted flag rid) (requirements db))
       (versions db) (history db) (comments db).

(** [db.session.delete(version)]: the row goes, and with it its history
    rows (the [change_history] relationship is [cascade="all,
    delete-orphan"]).  The comment table is left as it is. *)
Definition remove_version (db : DB) (vid : Z) : DB :=
  mkDB (users db) (projects db) (requirements db)
       (filter (fun v => negb (v_id v =? vid)) (versions db))
       (filter (fun h => negb (h_version_id h =? vid)) (history db))
       (comments db).

(** [RequirementVersion.query.filter_by(requirement_id=...).count()] *)
Definition count_versions (db : DB) (rid : Z) : nat :=
  List.length (filter (fun v => v_requirement_id v =? rid) (versions db)).

(** [delete_requirement_version] *)
Definition delete_requirement_version (db : DB) (user vid : Z) : outcome DB :=
  match get_by v_id (versions db) vid with
  | None => Abort 404
  | Some version =>
      match get_by r_id (requirements db) (v_requirement_id version) with
      | None => Abort 500        (* no such row: the foreign key forbids it *)
      | Some req =>
          match check_requirement_access db user req with
          | Abort s => Abort s
          | Done _ =>
              if Nat.eqb (count_versions db (r_id req)) 1
              then Done (mark_requirement db (r_id req) true)
              else Done (remove_version db vid)
          end
      end
  end.

(** [delete_requirement] (soft delete) and [restore_requirement] *)
Definition flag_requirement (flag : bool) (db : DB) (user rid : Z)
  : outcome DB :=
  match get_by r_id (requirements db) rid with
  | None => Abort 404
  | Some req =>
      match check_requirement_access db user req with
      | Abort s => Abort s
      | Done _ => Done (mark_requirement db rid flag)
      end
  end.

Definition delete_requirement := flag_requirement true.
Definition restore_requirement := flag_requirement false.

Definition version_of_req (db : DB) (rid vid : Z) : bool :=
  existsb (fun v => (v_id v =? vid) && (v_requirement_id v =? rid))
          (versions db).

(** [db.session.delete(req)]: its versions go with it, and their history. *)
Definition remove_requirement (db : DB) (rid : Z) : DB :=
  mkDB (users db) (projects db)
       (filter (fun r => negb (r_id r =? rid)) (requirements db))
       (filter (fun v => negb (v_requirement_id v =? rid)) (versions db))
       (filter (fun h => negb (version_of_req db rid (h_version_id h)))
               (history db))
       (comments db).

(** [delete_requirement_permanently] *)
Definition delete_requirement_permanently (db : DB) (user rid : Z)
  : outcome DB :=
  match get_by r_id (requirements db) rid with
  | None => Abort 404
  | Some req =>
      match check_requirement_access db user req with
      | Abort s => Abort s
      | Done _ => Done (remove_requirement db rid)
      end
  end.

(* ===================================================================== *)
(** ** [app/routes.py]: blocking and in-place update *)
(* ===================================================================== *)

(** Replace the row of a version by [f] of it. *)
Definition update_version (db : DB) (vid : Z)
  (f : RequirementVersion -> RequirementVersion) : DB :=
  mkDB (users db) (projects db) (requirements db)
       (map (fun v => if v_id v =? vid then f v else v) (versions db))
       (history db) (comments db).

Definition set_block (blocked : bool) (by_id at_time : option Z)
  (v : RequirementVersion) : RequirementVersion :=
  mkVersion (v_id v) (v_requirement_id v) (v_version_index v)
            (v_version_label v) (v_title v) (v_description v) (v_category v)
            (v_status v) (v_custom_data v) (v_created_by_id v)
            (v_last_modified_by_id v) blocked by_id at_time.

(** The project a version belongs to, [version.requirement.project]. *)
Definition version_project (db : DB) (v : RequirementVersion)
  : option Project :=
  match get_by r_id (requirements db) (v_requirement_id v) with
  | None => None
  | Some req => get_project db (r_project_id req)
  end.

(** [toggle_block_requirement]; [now] is [datetime.utcnow()]. *)
Definition toggle_block_requirement (db : DB) (user vid now : Z)
  : outcome DB :=
  match get_by v_id (versions db) vid with
  | None => Abort 404
  | Some version =>
      match version_project db version with
      | None => Abort 500        (* no such row: the foreign keys forbid it *)
      | Some project =>
          if negb (p_user_id project =? user) then Abort 403
          else if v_is_blocked version
          then Done (update_version db vid (set_block false None None))
          else Done (update_version db vid
                       (set_block true (Some user) (Some now)))
      end
  end.

(** The texts of the change log: [" → "], ["–"] and
    ["Beschreibung geändert"]. *)
Definition ARROW : str := [32; 8594; 32]%N.
Definition DASH : str := [8211%N].
Definition DESCRIPTION_CHANGED : str :=
  lit "Beschreibung ge" ++ [228%N] ++ lit "ndert".

(** [f"{old} → {new}"] *)
Definition arrow (old new : str) : str := old ++ ARROW ++ new.

Definition opt_str (o : option str) : str :=
  match o with Some s => s | None => [] end.

Definition ja_nein (b : bool) : str := if b then lit "Ja" else lit "Nein".

(** [update_requirement_version] lines 539-544: the custom columns, with the
    change log and the custom data threaded through the loop. *)
Fixpoint update_columns (cols : list str) (form : dict) (changes custom : dict)
  : dict * dict :=
  match cols with
  | [] => (changes, custom)
  | column :: rest =>
      let value := strip (dict_get_or form (lit "custom_" ++ column) []) in
      let old_value := dict_get_or custom column [] in
      let changes1 :=
        if negb (str_eqb old_value value)
        then dict_set changes (lit "custom_" ++ column)
                      (arrow (str_or old_value DASH) (str_or value DASH))
        else changes in
      update_columns rest form changes1 (dict_set custom column value)
  end.

(** [update_requirement_version] lines 512-519. *)
Definition choose_status (status save_type old_status : str) : str :=
  if truthy status && valid_status status then status
  else if str_eqb save_type (lit "intermediate") then lit "In Arbeit"
  else if str_eqb save_type (lit "final") then lit "Fertig"
  else old_status.

(** [update_requirement_version] lines 501-552: the change log and the new
    custom data of an update of [version] with this form. *)
Definition track_changes (version : RequirementVersion)
  (custom_columns : list str) (form : dict) : dict * dict * str :=
  let title := strip (dict_get_or form (lit "title") []) in
  let description := strip (dict_get_or form (lit "description") []) in
  let category := strip (dict_get_or form (lit "category") []) in
  let status := strip (dict_get_or form (lit "status") []) in
  let save_type := dict_get_or form (lit "save_type") (lit "intermediate") in
  let c0 : dict := [] in
  let c1 := if negb (str_eqb (v_title version) title)
            then dict_set c0 (lit "title") (arrow (v_title version) title)
            else c0 in
  let c2 := if negb (str_eqb (v_description version) description)
            then dict_set c1 (lit "description") DESCRIPTION_CHANGED
            else c1 in
  let c3 := if negb (str_eqb (opt_str (v_category version)) category)
            then dict_set c2 (lit "category")
                   (arrow (str_or (opt_str (v_category version)) DASH)
                          (str_or category DASH))
            else c2 in
  let old_status := v_status version in
  let new_status := choose_status status save_type old_status in
  let c4 := if negb (str_eqb old_status new_status)
            then dict_set c3 (lit "status") (arrow old_status new_status)
            else c3 in
  let old_custom_data := v_custom_data version in
  let '(c5, custom1) := update_columns custom_columns form c4 old_custom_data in
  let old_quantifiable :=
    dict_get_or old_custom_data (lit "is_quantifiable") (lit "false") in
  let is_quantifiable :=
    match dict_get form (lit "is_quantifiable") with
    | Some s => str_eqb s (lit "on")
    | None => false
    end in
  let new_quantifiable := if is_quantifiable then lit "true" else lit "false" in
  let c6 := if negb (str_eqb old_quantifiable new_quantifiable)
            then dict_set c5 (lit "is_quantifiable")
                   (arrow (ja_nein (str_eqb old_quantifiable (lit "true")))
                          (ja_nein is_quantifiable))
            else c5 in
  (c6, dict_set custom1 (lit "is_quantifiable") new_quantifiable, new_status).

Definition set_fields (title description category status : str) (custom : dict)
  (user : Z) (v : RequirementVersion) : RequirementVersion :=
  mkVersion (v_id v) (v_requirement_id v) (v_version_index v)
            (v_version_label v) title description (Some category) status
            custom (v_created_by_id v) (Some user) (v_is_blocked v)
            (v_blocked_by_id v) (v_blocked_at v).

(** [update_requirement_version], up to the commit. *)
Definition update_requirement_version (db : DB) (user vid : Z) (form : dict)
  : outcome DB :=
  match get_by v_id (versions db) vid with
  | None => Abort 404
  | Some version =>
      match version_project db version with
      | None => Abort 500        (* no such row: the foreign keys forbid it *)
      | Some project =>
          if negb (is_accessible_by project user) then Abort 403
          else
            let title := strip (dict_get_or form (lit "title") []) in
            let description :=
              strip (dict_get_or form (lit "description") []) in
            let category := strip (dict_get_or form (lit "category") []) in
            if negb (truthy title) || negb (truthy description) then Done db
            else
              let '(changes, custom, new_status) :=
                track_changes version (p_custom_columns project) form in
              let db1 := update_version db vid
                (set_fields title description category new_status custom user)
              in
              match changes with
              | [] => Done db1
              | _ => Done (add_history db1
                             (mkHistory (next_id h_id (history db1)) vid user
                                        (lit "modified") changes))
              end
      end
  end.

(* ===================================================================== *)
(** ** [app/routes.py]: the comment thread *)
(* ===================================================================== *)

(** The JSON of one comment as [get_comments] returns it (the author's
    email and name, read from the user row, are left out). *)
#[local] Unset Elimination Schemes.
Inductive CommentJson : Type :=
| CommentNode (id : Z) (text : str) (author_id : Z) (created_at : Z)
              (parent_comment_id : option Z) (replies : list CommentJson).
#[local] Set Elimination Schemes.

(** Truth value of a nullable integer. *)
Definition truthy_id (x : option Z) : option Z :=
  match x with
  | Some p => if p =? 0 then None else Some p
  | None => None
  end.

(** The query of [get_comments]: the comments of the version that are not
    deleted, oldest first. *)
Definition visible_comments (db : DB) (vid : Z) : list RequirementComment :=
  order_by c_created_at
    (filter (fun c => (c_version_id c =? vid) && negb (c_is_deleted c))
            (comments db)).

(** The dictionaries of [comments_data] are shared between [comment_dict],
    the [replies] lists and [root_comments]; an object is named by the id
    it carries, and the heap maps each object to the objects in its
    [replies] list. *)
Definition heap := list (Z * list Z).

Definition heap_get (h : heap) (id : Z) : list Z :=
  match find (fun e => fst e =? id) h with
  | Some e => snd e
  | None => []
  end.

Definition in_heap (h : heap) (id : Z) : bool :=
  existsb (fun e => fst e =? id) h.

(** [parent['replies'].append(comment)] *)
Definition heap_append (h : heap) (parent child : Z) : heap :=
  map (fun e => if fst e =? parent then (fst e, snd e ++ [child]) else e) h.

(** [get_comments] lines 1257-1265: link every comment under its parent,
    or into the roots when it has none. *)
Fixpoint build_tree (todo : list RequirementComment) (h : heap)
  (roots : list Z) : heap * list Z :=
  match todo with
  | [] => (h, roots)
  | c :: rest =>
      match truthy_id (c_parent_comment_id c) with
      | Some parent =>
          if in_heap h parent
          then build_tree rest (heap_append h parent (c_id c)) roots
          else build_tree rest h roots
      | None => build_tree rest h (roots ++ [c_id c])
      end
  end.

(** [jsonify]: unfold the shared objects into a tree.  A reply was created
    after its parent, so the nesting is no deeper than the number of
    comments, which is the fuel [get_comments] passes. *)
Fixpoint render (fuel : nat) (data : list RequirementComment) (h : heap)
  (ids : list Z) : list CommentJson :=
  match fuel with
  | O => []
  | S fuel' =>
      flat_map
        (fun id =>
           match get_by c_id data id with
           | Some c =>
               [CommentNode (c_id c) (c_text c) (c_author_id c)
                            (c_created_at c) (c_parent_comment_id c)
                            (render fuel' data h (heap_get h id))]
           | None => []
           end)
        ids
  end.

(** [get_comments] *)
Definition get_comments (db : DB) (user vid : Z) : outcome (list CommentJson) :=
  match get_by v_id (versions db) vid with
  | None => Abort 404
  | Some version =>
      match version_project db version with
      | None => Abort 500        (* no such row: the foreign keys forbid it *)
      | Some project =>
          if negb (is_accessible_by project user) then Abort 403
          else
            let data := visible_comments db vid in
            let '(h, roots) :=
              build_tree data (map (fun c => (c_id c, [])) data) [] in
            Done (render (List.length data) data h roots)
      end
  end.

(** Every id that occurs in a rendered thread, at any depth. *)
Fixpoint thread_ids (t : CommentJson) : list Z :=
  match t with
  | CommentNode id _ _ _ _ replies => id :: flat_map thread_ids replies
  end.

Definition shown (id : Z) (out : outcome (list CommentJson)) : bool :=
  match out with
  | Done thread => existsb (Z.eqb id) (flat_map thread_ids thread)
  | Abort _ => false
  end.

Definition set_comment_deleted (cid : Z) (c : RequirementComment)
  : RequirementComment :=
  if c_id c =? cid
  then mkComment (c_id c) (c_version_id c) (c_author_id c) (c_text c)
                 (c_parent_comment_id c) (c_created_at c) true
  else c.

(** [delete_comment] *)
Definition delete_comment (db : DB) (user cid : Z) : outcome DB :=
  match get_by c_id (comments db) cid with
  | None => Abort 404
  | Some comment =>
      match get_by v_id (versions db) (c_version_id comment) with
      | None => Abort 500        (* no such row: the foreign key forbids it *)
      | Some version =>
          match version_project db version with
          | None => Abort 500
          | Some project =>
              if negb (is_accessible_by project user) then Abort 403
              else if negb (c_author_id comment =? user)
                      && negb (p_user_id project =? user)
              then Abort 403
              else Done (mkDB (users db) (projects db) (requirements db)
                              (versions db) (history db)
                              (map (set_comment_deleted cid) (comments db)))
          end
      end
  end.

(* ===================================================================== *)
(** ** [app/utils/notifications.py] *)
(* ===================================================================== *)

(** [\w] on one code point (ASCII and Latin-1). *)
Definition isword (c : N) : bool :=
  (between 48 57 c || between 65 90 c || (c =? 95) || between 97 122 c
   || (c =? 170) || between 178 179 c || (c =? 181) || between 185 186 c
   || between 188 190 c || between 192 214 c || between 216 246 c
   || between 248 255 c)%N.

Definition AT : N := 64%N.
Definition DOT : N := 46%N.

(** The mention pattern of [parse_mentions] is an at sign followed by the
    captured group: one or more word characters, any number of groups of a
    dot and one or more word characters, an optional at sign, any number of
    word characters, an optional dot, any number of word characters.  Every
    part after the first word characters may be empty, so the greedy choice
    never has to be undone and one pass decides the match.  Where the scan
    stands:
    - [Outside]: no match open;
    - [SeenAt]: an at sign was read, a word character must follow;
    - [Local]: inside the word characters and dotted groups;
    - [LocalDot]: as [Local], and a dot was read that belongs to a dotted
      group if a word character follows and is the optional dot otherwise;
    - [Domain]: after the inner at sign, inside the word characters;
    - [Tail]: after the optional dot, inside the last word characters. *)
Inductive scan_state : Type :=
| Outside | SeenAt | Local | LocalDot | Domain | Tail.

(** A character on which no match is open. *)
Definition restart (c : N) : scan_state :=
  if (c =? AT)%N then SeenAt else Outside.

(** [re.findall] of the mention pattern; [cur] is the text captured so far,
    last character first. *)
Fixpoint scan (st : scan_state) (cur : str) (s : str) : list str :=
  match s with
  | [] =>
      match st with
      | Outside | SeenAt => []
      | Local | Domain | Tail => [rev cur]
      | LocalDot => [rev (DOT :: cur)]
      end
  | c :: r =>
      match st with
      | Outside => scan (restart c) [] r
      | SeenAt => if isword c then scan Local [c] r else scan (restart c) [] r
      | Local =>
          if isword c then scan Local (c :: cur) r
          else if (c =? DOT)%N then scan LocalDot cur r
          else if (c =? AT)%N then scan Domain (c :: cur) r
          else rev cur :: scan Outside [] r
      | LocalDot =>
          if isword c then scan Local (c :: DOT :: cur) r
          else rev (DOT :: cur) :: scan (restart c) [] r
      | Domain =>
          if isword c then scan Domain (c :: cur) r
          else if (c =? DOT)%N then scan Tail (c :: cur) r
          else rev cur :: scan (restart c) [] r
      | Tail =>
          if isword c then scan Tail (c :: cur) r
          else rev cur :: scan (restart c) [] r
      end
  end.

(** [list(set(...))]: each value once.  Python leaves the order of a set
    open; here it is the order of first occurrence. *)
Fixpoint dedup (l : list str) : list str :=
  match l with
  | [] => []
  | x :: r => x :: filter (fun y => negb (str_eqb x y)) (dedup r)
  end.

(** [parse_mentions] *)
Definition parse_mentions (text : str) : list str :=
  dedup (scan Outside [] text).

(** ASCII case folding, as SQLite's [LIKE] does it. *)
Definition fold_ascii (c : N) : N :=
  if between 65 90 c then (c + 32)%N else c.

(** SQLite's [LIKE]: [%] is any run of characters, [_] any one character,
    ASCII letters match without regard to case. *)
Fixpoint sql_like (pat : str) : str -> bool :=
  match pat with
  | [] => fun s => match s with [] => true | _ => false end
  | p :: rest =>
      if (p =? 37)%N then
        fix any_run (s : str) : bool :=
          sql_like rest s
          || match s with [] => false | _ :: s' => any_run s' end
      else
        fun s =>
          match s with
          | [] => false
          | c :: s' =>
              ((p =? 95)%N || (fold_ascii p =? fold_ascii c)%N)
              && sql_like rest s'
          end
  end.

(** [mention.split('@')[0]] *)
Fixpoint before_at (s : str) : str :=
  match s with
  | [] => []
  | c :: r => if (c =? AT)%N then [] else c :: before_at r
  end.

(** [find_user_by_mention] *)
Definition find_user_by_mention (db : DB) (project : Project) (mention : str)
  : option User :=
  let exact :=
    match find (fun u => str_eqb (u_email u) mention) (users db) with
    | Some u => if is_accessible_by project (u_id u) then Some u else None
    | None => None
    end in
  match exact with
  | Some u => Some u
  | None =>
      let email_prefix := before_at mention in
      match find (fun u => sql_like (email_prefix ++ [37%N]) (u_email u))
                 (users db) with
      | Some u => if is_accessible_by project (u_id u) then Some u else None
      | None => None
      end
  end.

Definition MENTION : str := lit "mention".
Definition COMMENT : str := lit "comment".

(** [notify_comment_added]: the rows it adds, in the order it adds them;
    [project] is [comment.version.requirement.project], [actor] the id of
    the acting user. *)
Definition notify_comment_added (db : DB) (project : Project)
  (comment : RequirementComment) (actor : Z) : list Notification :=
  let mentions := parse_mentions (c_text comment) in
  let mention_rows :=
    flat_map
      (fun mention =>
         match find_user_by_mention db project mention with
         | Some mentioned_user =>
             if negb (u_id mentioned_user =? actor)
             then [mkNotification (u_id mentioned_user) MENTION
                                  (lit "comment") (c_id comment)]
             else []
         | None => []
         end)
      mentions in
  let project_users := p_user_id project :: p_shared_with project in
  let mentioned_user_ids :=
    flat_map
      (fun m =>
         match find_user_by_mention db project m with
         | Some u => [u_id u]
         | None => []
         end)
      mentions in
  let comment_rows :=
    flat_map
      (fun user =>
         if negb (user =? actor)
            && negb (existsb (Z.eqb user) mentioned_user_ids)
         then [mkNotification user COMMENT (lit "comment") (c_id comment)]
         else [])
      project_users in
  mention_rows ++ comment_rows.

(** The ids of the users that got a row, and how many rows of one type a
    user got. *)
Definition recipients (rows : list Notification) : list Z :=
  map n_user_id rows.

Definition count_rows (type : str) (user : Z) (rows : list Notification)
  : nat :=
  List.length
    (filter (fun n => (n_user_id n =? user)
                      && str_eqb (n_notification_type n) type) rows).

(* ===================================================================== *)
(** ** Histories of the store *)
(* ===================================================================== *)

(** The requests that write requirements and versions. *)
Inductive request : Type :=
| Generate (user pid : Z) (requirements_data : list dict)
| ImportExcel (user pid : Z) (rows : list Row)
| Regenerate (user rid : Z) (result : option dict)
| DeleteVersion (user vid : Z)
| DeleteRequirement (user rid : Z)
| RestoreRequirement (user rid : Z)
| DeletePermanently (user rid : Z)
| ToggleBlock (user vid now : Z)
| UpdateVersion (user vid : Z) (form : dict).

(** An aborted request commits nothing. *)
Definition committed (db : DB) (o : outcome DB) : DB :=
  match o with Done db' => db' | Abort _ => db end.

Definition serve (db : DB) (rq : request) : DB :=
  committed db
    match rq with
    | Generate user pid data => generate db user pid data
    | ImportExcel user pid rows => import_excel db user pid rows
    | Regenerate user rid result => regenerate_requirement db user rid result
    | DeleteVersion user vid => delete_requirement_version db user vid
    | DeleteRequirement user rid => delete_requirement db user rid
    | RestoreRequirement user rid => restore_requirement db user rid
    | DeletePermanently user rid => delete_requirement_permanently db user rid
    | ToggleBlock user vid now => toggle_block_requirement db user vid now
    | UpdateVersion user vid form => update_requirement_version db user vid form
    end.

Definition run (db : DB) (rqs : list request) : DB := fold_left serve rqs db.

(** A request to delete a version that is not the latest of its
    requirement. *)
Definition deletes_earlier_version (db : DB) (rq : request) : bool :=
  match rq with
  | DeleteVersion _ vid =>
      match get_by v_id (versions db) vid with
      | Some v =>
          match get_latest_version db (v_requirement_id v) with
          | Some latest => negb (v_id latest =? vid)
          | None => false
          end
      | None => false
      end
  | _ => false
  end.

(** No request of the history deletes an earlier version. *)
Fixpoint only_latest_deleted (db : DB) (rqs : list request) : bool :=
  match rqs with
  | [] => true
  | rq :: rest =>
      negb (deletes_earlier_version db rq)
      && only_latest_deleted (serve db rq) rest
  end.

(** A store before any requirement was written. *)
Definition no_requirements (db : DB) : Prop :=
  requirements db = [] /\ versions db = [].


Fixpoint counts_from (k : Z) (l : list Z) : bool :=
  match l with
  | [] => true
  | x :: r => (x =? k) && counts_from (k + 1) r
  end.

(** 1, 2, 3, ... without a gap. *)
Definition gapless (l : list Z) : bool := counts_from 1 l.



(** The label of a stored version is the label of its index. *)
Definition label_matches (v : RequirementVersion) : Prop :=
  1 <= v_version_index v /\
  v_version_label v = version_label (v_version_index v).

(* ===================================================================== *)
(** ** Vocabulary of the statements *)
(* ===================================================================== *)

Definition all_space (w : str) : Prop := Forall (fun c => isspace c = true) w.
Definition no_space (w : str) : Prop := Forall (fun c => isspace c = false) w.

(** A word: not empty and free of whitespace. *)
Definition is_word (w : str) : Prop := w <> [] /\ no_space w.

(** Text that does not start, or does not end, with whitespace. *)
Definition starts_clean (s : str) : Prop :=
  match s with [] => True | c :: _ => isspace c = false end.
Definition ends_clean (s : str) : Prop := isspace (last s 0%N) = false.

(* ===================================================================== *)
(** ** A small project, for the concrete cases *)
(* ===================================================================== *)

(** Alice owns the project and has shared it with Bob; Carol has no
    access. *)
Definition alice : User := mkUser 1 (lit "alice@x.de").
Definition bob : User := mkUser 2 (lit "bob.smith@x.de").
Definition carol : User := mkUser 3 (lit "carol@x.de").

Definition project1 : Project := mkProject 1 1 [lit "Priority"] [2].

Definition db_empty : DB := mkDB [alice; bob; carol] [project1] [] [] [] [].

Definition item_login : dict :=
  [(lit "title", lit "Login"); (lit "description", lit "Users can log in")].

(** The item "Login" generated once, twice and three times by Alice. *)
Definition db_one : DB := serve db_empty (Generate 1 1 [item_login]).
Definition db_two : DB := serve db_one (Generate 1 1 [item_login]).
Definition db_three : DB := serve db_two (Generate 1 1 [item_login]).

(** Version A of "Login", as [db_one] holds it, and the same blocked by
    Bob. *)
Definition version_a : RequirementVersion :=
  mkVersion 1 1 1 (lit "A") (lit "Login") (lit "Users can log in") (Some [])
            (lit "Offen") [(lit "is_quantifiable", lit "false")] (Some 1) None
            false None None.

Definition version_a_blocked : RequirementVersion :=
  set_block true (Some 2) (Some 1000) version_a.


(** The candidate carries a numeric id that is the id of [req], a
    requirement of project [pid]. *)
Definition hint_resolves (db : DB) (pid : Z) (item : dict) (req : Requirement)
  : Prop :=
  exists s rid,
    dict_get item (lit "id") = Some s
    /\ py_int (strip s) = Some rid
    /\ get_by r_id (requirements db) rid = Some req
    /\ r_project_id req = pid.

(** [req] is a requirement of project [pid] with this key. *)
Definition has_key (pid : Z) (key : str) (req : Requirement) : Prop :=
  r_project_id req = pid /\ r_key req = Some key.


Definition requirement_login : Requirement :=
  mkRequirement 1 1 (Some (lit "login")) false.

(* ===================================================================== *)
(** ** The change log, field by field *)
(* ===================================================================== *)

(** [Some rest] when [s] is [p ++ rest]. *)
Fixpoint remove_prefix (p s : str) : option str :=
  match p, s with
  | [], _ => Some s
  | a :: p', b :: s' => if (a =? b)%N then remove_prefix p' s' else None
  | _ :: _, [] => None
  end.

(** The submitted value of a form field, as the update reads it. *)
Definition submitted (form : dict) (field : str) : str :=
  strip (dict_get_or form field []).

Definition form_quantifiable (form : dict) : bool :=
  match dict_get form (lit "is_quantifiable") with
  | Some s => str_eqb s (lit "on")
  | None => false
  end.

(** [Some text] when old and new value differ. *)
Definition when_changed (old new text : str) : option str :=
  if str_eqb old new then None else Some text.

(** What the change log of an update of [version] is to hold under the
    name [field]: nothing for a field that keeps its value, and for a
    field that changes the text "old → new" (with a dash for an empty
    value, and Ja/Nein for the quantifiable flag), except that a changed
    description is logged by a fixed text.  An absent category, custom
    value or quantifiable flag counts as the empty value, resp. as
    ["false"]. *)
Definition expected_change (version : RequirementVersion)
  (custom_columns : list str) (form : dict) (field : str) : option str :=
  if str_eqb field (lit "title") then
    when_changed (v_title version) (submitted form (lit "title"))
      (arrow (v_title version) (submitted form (lit "title")))
  else if str_eqb field (lit "description") then
    when_changed (v_description version) (submitted form (lit "description"))
      DESCRIPTION_CHANGED
  else if str_eqb field (lit "category") then
    let old := opt_str (v_category version) in
    let new := submitted form (lit "category") in
    when_changed old new (arrow (str_or old DASH) (str_or new DASH))
  else if str_eqb field (lit "status") then
    let new := choose_status (submitted form (lit "status"))
                 (dict_get_or form (lit "save_type") (lit "intermediate"))
                 (v_status version) in
    when_changed (v_status version) new (arrow (v_status version) new)
  else if str_eqb field (lit "is_quantifiable") then
    let old := dict_get_or (v_custom_data version) (lit "is_quantifiable")
                 (lit "false") in
    let new := if form_quantifiable form then lit "true" else lit "false" in
    when_changed old new
      (arrow (ja_nein (str_eqb old (lit "true")))
             (ja_nein (form_quantifiable form)))
  else
    match remove_prefix (lit "custom_") field with
    | Some column =>
        if existsb (str_eqb column) custom_columns then
          let old := dict_get_or (v_custom_data version) column [] in
          let new := submitted form field in
          when_changed old new (arrow (str_or old DASH) (str_or new DASH))
        else None
    | None => None
    end.

(** The change log of the last history row, when the request went
    through. *)
Definition logged_changes (o : outcome DB) : option (str * dict) :=
  match o with
  | Done db =>
      match rev (history db) with
      | h :: _ => Some (h_change_type h, h_changes h)
      | [] => None
      end
  | Abort _ => None
  end.

Definition contains_arrow (s : str) : bool := existsb (N.eqb 8594) s.

(** Bob rewrites the description of version A and nothing else. *)
Definition form_new_description : dict :=
  [(lit "title", lit "Login"); (lit "description", lit "Users can sign in");
   (lit "status", lit "Offen")].

(* ===================================================================== *)
(** ** A small thread, for the concrete cases *)
(* ===================================================================== *)

(** On version A: Alice asks, Bob answers her, Bob opens a second topic. *)
Definition comment_question : RequirementComment :=
  mkComment 1 1 1 (lit "Which login?") None 100 false.
Definition comment_answer : RequirementComment :=
  mkComment 2 1 2 (lit "Password login") (Some 1) 200 false.
Definition comment_other : RequirementComment :=
  mkComment 3 1 2 (lit "Logout is missing") None 300 false.

Definition db_thread : DB :=
  mkDB (users db_one) (projects db_one) (requirements db_one)
       (versions db_one) (history db_one)
       [comment_question; comment_answer; comment_other].

(** The thread after Alice deleted her question. *)
Definition db_thread_deleted : DB :=
  committed db_thread (delete_comment db_thread 1 1).

(** What Bob is shown then. *)
Definition thread_after_delete : list CommentJson :=
  [CommentNode 3 (lit "Logout is missing") 2 300 None []].

(** A comment that the listing of version [vid] can show: not deleted, and
    either without a parent or with a parent that is itself a comment of
    the version that is not deleted. *)
Definition listable (db : DB) (vid : Z) (c : RequirementComment) : Prop :=
  c_version_id c = vid /\ c_is_deleted c = false
  /\ (truthy_id (c_parent_comment_id c) = None
      \/ exists p parent,
           truthy_id (c_parent_comment_id c) = Some p
           /\ In parent (comments db) /\ c_id parent = p
           /\ c_version_id parent = vid /\ c_is_deleted parent = false).

(** Alice mentions Bob twice, once by the local part of his address and
    once by its first name. *)
Definition comment_two_mentions : RequirementComment :=
  mkComment 4 1 1 (lit "@bob.smith siehe oben, @bob bitte pruefen") None 400
            false.

(** The users a mention of the text resolves to. *)
Definition mention_resolved (db : DB) (project : Project) (text : str)
  (user : Z) : Prop :=
  exists mention u,
    In mention (parse_mentions text)
    /\ find_user_by_mention db project mention = Some u
    /\ u_id u = user.

(* ===================================================================== *)
(** ** Invariants of the version table *)
(* ===================================================================== *)

(** The version rows of a requirement, in table order. *)
Definition rows_of (db : DB) (rid : Z) : list RequirementVersion :=
  filter (fun v => v_requirement_id v =? rid) (versions db).

Definition lt_index (a b : RequirementVersion) : Prop :=
  v_version_index a < v_version_index b.

(** What every request keeps true: the rows of a requirement were written
    with rising indices, every label is the label of its index, every
    version belongs to a stored requirement, and version ids are not
    shared. *)
Record sound (db : DB) : Prop := mkSound {
  sound_order : forall rid, StronglySorted lt_index (rows_of db rid);
  sound_labels : forall v, In v (versions db) -> label_matches v;
  sound_refs : forall v, In v (versions db) ->
                 In (v_requirement_id v) (map r_id (requirements db));
  sound_ids : NoDup (map v_id (versions db))
}.

(** The indices of every requirement count 1, 2, 3, ... *)
Definition dense (db : DB) : Prop :=
  forall rid, gapless (map v_version_index (rows_of db rid)) = true.

(** The index after the last of these rows. *)
Definition next_index (rows : list RequirementVersion) : Z :=
  match rows with
  | [] => 1
  | a :: r => v_version_index (last r a) + 1
  end.

(** [v] continues the chain of a stored requirement of [db]. *)
Definition continues (db : DB) (v : RequirementVersion) : Prop :=
  In (v_requirement_id v) (map r_id (requirements db))
  /\ v_id v = next_id v_id (versions db)
  /\ v_version_index v = next_index (rows_of db (v_requirement_id v))
  /\ v_version_label v = version_label (v_version_index v).

(** Three versions of "Login", and the second one deleted. *)
Definition requests_with_gap : list request :=
  [Generate 1 1 [item_login]; Generate 1 1 [item_login];
   Generate 1 1 [item_login]; DeleteVersion 1 2].

(** [db'] is [db] after at most one new requirement and one version that
    continues a chain. *)
Definition extends (db db' : DB) : Prop :=
  db' = db
  \/ exists db1 v user action,
       (db1 = db
        \/ exists pid key,
             db1 = add_requirement db
                     (mkRequirement (next_id r_id (requirements db)) pid key
                                    false))
       /\ continues db1 v
       /\ db' = store_version db1 v user action.

(** A change of a version row that leaves its id, requirement, index and
    label alone. *)
Definition keeps_row (g : RequirementVersion -> RequirementVersion) : Prop :=
  forall v,
    v_id (g v) = v_id v
    /\ v_requirement_id (g v) = v_requirement_id v
    /\ v_version_index (g v) = v_version_index v
    /\ v_version_label (g v) = v_version_label v.


(* ===================================================================== *)
(** ** More vocabulary: labels and keys *)
(* ===================================================================== *)



(* ===================================================================== *)
(** ** More vocabulary: what a bulk request writes *)
(* ===================================================================== *)

(** One turn of the loop of a bulk request for project [pid]: nothing; or
    one version for a stored requirement of the project; or one new
    requirement of the project, under a key no requirement of the project
    has, with its first version. *)
Inductive turn (pid : Z) (db : DB) : DB -> Prop :=
| turn_skip : turn pid db db
| turn_version (req : Requirement) (v : RequirementVersion) (user : Z)
    (action : str) :
    In req (requirements db) -> r_project_id req = pid ->
    v_requirement_id v = r_id req ->
    turn pid db (store_version db v user action)
| turn_requirement (key : str) (v : RequirementVersion) (user : Z)
    (action : str) :
    find_by_key db pid key = None ->
    v_requirement_id v = next_id r_id (requirements db) ->
    turn pid db
      (store_version
         (add_requirement db
            (mkRequirement (next_id r_id (requirements db)) pid (Some key)
                           false))
         v user action).

(** [db'] is [db] with rows added at the end of the requirement, version
    and history tables and nothing else changed; the new requirements
    belong to project [pid] and the new versions to requirements of that
    project. *)
Definition grows (pid : Z) (db db' : DB) : Prop :=
  users db' = users db /\ projects db' = projects db
  /\ comments db' = comments db
  /\ exists rs vs hs,
       requirements db' = requirements db ++ rs
       /\ versions db' = versions db ++ vs
       /\ history db' = history db ++ hs
       /\ (forall r, In r rs -> r_project_id r = pid)
       /\ (forall v, In v vs ->
             exists r, In r (requirements db')
                       /\ r_id r = v_requirement_id v
                       /\ r_project_id r = pid).

(** The project and key of a requirement. *)
Definition project_key (r : Requirement) : Z * option str :=
  (r_project_id r, r_key r).

(** What every request keeps true of the requirement table: every
    requirement has a version row, and neither an id nor a pair of project
    and key occurs twice. *)
Record tidy (db : DB) : Prop := mkTidy {
  tidy_chains : forall r, In r (requirements db) -> rows_of db (r_id r) <> [];
  tidy_ids : NoDup (map r_id (requirements db));
  tidy_keys : NoDup (map project_key (requirements db))
}.


(* ===================================================================== *)
(** ** More vocabulary: updates *)
(* ===================================================================== *)

(** The columns of a version row that an update of its fields is not to
    touch. *)
Definition row_frame (v : RequirementVersion)
  : Z * Z * Z * str * option Z * bool * option Z * option Z :=
  (v_id v, v_requirement_id v, v_version_index v, v_version_label v,
   v_created_by_id v, v_is_blocked v, v_blocked_by_id v, v_blocked_at v).

(** The custom data after the loop over the custom columns of an update:
    every column holds its submitted value. *)
Definition custom_after (cols : list str) (form : dict) (custom : dict)
  : dict :=
  fold_left
    (fun cu column =>
       dict_set cu column (submitted form (lit "custom_" ++ column)))
    cols custom.

(** The quantifiable flag an update form submits. *)
Definition submitted_flag (form : dict) : str :=
  if form_quantifiable form then lit "true" else lit "false".

(** Version A, blocked by Alice. *)
Definition version_a_blocked_by_owner : RequirementVersion :=
  set_block true (Some 1) (Some 1000) version_a.

Definition db_blocked_by_owner : DB :=
  committed db_one (toggle_block_requirement db_one 1 1 1000).

(** Bob submits a new title, a new status and a priority. *)
Definition form_retitle : dict :=
  [(lit "title", lit " Sign in "); (lit "description", lit "Users can log in");
   (lit "status", lit "Fertig"); (lit "custom_Priority", lit "High");
   (lit "is_quantifiable", lit "on")].

(* ===================================================================== *)
(** ** [app/routes.py]: writing comments *)
(* ===================================================================== *)

(** [create_comment] lines 1284-1287: a parent that is given has to be a
    comment of the same version that is not deleted. *)
Definition parent_is_valid (db : DB) (vid : Z) (parent_comment_id : option Z)
  : bool :=
  match truthy_id parent_comment_id with
  | None => true
  | Some p =>
      match get_by c_id (comments db) p with
      | None => false
      | Some parent =>
          negb (negb (c_version_id parent =? vid) || c_is_deleted parent)
      end
  end.

(** [create_comment], up to the commit; [text] and [parent_comment_id] are
    the fields of the JSON body, [now] is the default of [created_at]. *)
Definition create_comment (db : DB) (user vid : Z) (text : str)
  (parent_comment_id : option Z) (now : Z) : outcome DB :=
  match get_by v_id (versions db) vid with
  | None => Abort 404
  | Some version =>
      match version_project db version with
      | None => Abort 500        (* no such row: the foreign keys forbid it *)
      | Some project =>
          if negb (is_accessible_by project user) then Abort 403
          else
            let text := strip text in
            if negb (truthy text) then Abort 400
            else if negb (parent_is_valid db vid parent_comment_id)
            then Abort 400
            else
              let comment :=
                mkComment (next_id c_id (comments db)) vid user text
                          parent_comment_id now false in
              Done (mkDB (users db) (projects db) (requirements db)
                         (versions db) (history db)
                         (comments db ++ [comment]))
      end
  end.

Definition set_comment_text (cid : Z) (text : str) (c : RequirementComment)
  : RequirementComment :=
  if c_id c =? cid
  then mkComment (c_id c) (c_version_id c) (c_author_id c) text
                 (c_parent_comment_id c) (c_created_at c) (c_is_deleted c)
  else c.

(** [update_comment] *)
Definition update_comment (db : DB) (user cid : Z) (text : str)
  : outcome DB :=
  match get_by c_id (comments db) cid with
  | None => Abort 404
  | Some comment =>
      match get_by v_id (versions db) (c_version_id comment) with
      | None => Abort 500        (* no such row: the foreign key forbids it *)
      | Some version =>
          match version_project db version with
          | None => Abort 500
          | Some project =>
              if negb (is_accessible_by project user) then Abort 403
              else if negb (c_author_id comment =? user) then Abort 403
              else if c_is_deleted comment then Abort 400
              else
                let text := strip text in
                if negb (truthy text) then Abort 400
                else Done (mkDB (users db) (projects db) (requirements db)
                                (versions db) (history db)
                                (map (set_comment_text cid text)
                                     (comments db)))
          end
      end
  end.

(** The requests on the comment table. *)
Inductive comment_request : Type :=
| CreateComment (user vid : Z) (text : str) (parent : option Z) (now : Z)
| UpdateComment (user cid : Z) (text : str)
| DeleteComment (user cid : Z).

Definition serve_comment (db : DB) (rq : comment_request) : DB :=
  committed db
    match rq with
    | CreateComment user vid text parent now =>
        create_comment db user vid text parent now
    | UpdateComment user cid text => update_comment db user cid text
    | DeleteComment user cid => delete_comment db user cid
    end.

(** What the comment requests keep true of the comment table: no id occurs
    twice, no text is empty, and the parent of a reply is a comment of the
    same version that was written before it. *)
Record threaded (db : DB) : Prop := mkThreaded {
  threaded_ids : NoDup (map c_id (comments db));
  threaded_texts : forall c, In c (comments db) -> c_text c <> [];
  threaded_parents :
    forall c p, In c (comments db) ->
      truthy_id (c_parent_comment_id c) = Some p ->
      exists parent, In parent (comments db) /\ c_id parent = p
                     /\ c_version_id parent = c_version_id c
                     /\ c_id parent < c_id c
}.

(** Alice asks, Bob answers and rewrites his answer, Alice deletes her
    question. *)
Definition requests_thread : list comment_request :=
  [CreateComment 1 1 (lit "Which login?") None 100;
   CreateComment 2 1 (lit " Password login ") (Some 1) 200;
   UpdateComment 2 2 (lit "By password");
   DeleteComment 1 1].

(** A comment the thread of version [vid] can reach: a comment of the
    version that is not deleted, and that either has no parent or has a
    parent of which the same holds. *)
Inductive live (db : DB) (vid : Z) : RequirementComment -> Prop :=
| live_root (c : RequirementComment) :
    In c (comments db) -> c_version_id c = vid -> c_is_deleted c = false ->
    truthy_id (c_parent_comment_id c) = None ->
    live db vid c
| live_reply (c parent : RequirementComment) :
    In c (comments db) -> c_version_id c = vid -> c_is_deleted c = false ->
    truthy_id (c_parent_comment_id c) = Some (c_id parent) ->
    live db vid parent ->
    live db vid c.

(** The comments that hang [d] links below one of the objects [ids] in the
    heap. *)
Fixpoint linked (data : list RequirementComment) (h : heap) (d : nat)
  (ids : list Z) (c : RequirementComment) : Prop :=
  match d with
  | O => In c data /\ In (c_id c) ids
  | S d' =>
      exists a, In a data /\ In (c_id a) ids
                /\ linked data h d' (heap_get h (c_id a)) c
  end.

(** After her question is deleted Alice tries to rewrite it, Bob tries to
    answer it and then opens a new topic. *)
Definition requests_after_delete : list comment_request :=
  [UpdateComment 1 1 (lit "Which login page?");
   CreateComment 2 1 (lit "The first one") (Some 1) 500;
   CreateComment 2 1 (lit "Password rules") None 600].

(* ===================================================================== *)
(** ** [app/utils/notifications.py]: requirement notifications *)
(* ===================================================================== *)

Definition REQUIREMENT_UPDATED : str := lit "requirement_updated".
Definition REQUIREMENT_CREATED : str := lit "requirement_created".

(** [notify_requirement_updated]: the rows it adds; [project] is
    [version.requirement.project], [actor] the id of the acting user. *)
Definition notify_requirement_updated (project : Project)
  (version : RequirementVersion) (actor : Z) : list Notification :=
  let project_users := p_user_id project :: p_shared_with project in
  flat_map
    (fun user =>
       if negb (user =? actor)
       then [mkNotification user REQUIREMENT_UPDATED
                            (lit "requirement_version") (v_id version)]
       else [])
    project_users.

(** [notify_requirement_created] *)
Definition notify_requirement_created (project : Project)
  (version : RequirementVersion) (actor : Z) : list Notification :=
  let project_users := p_user_id project :: p_shared_with project in
  flat_map
    (fun user =>
       if negb (user =? actor)
       then [mkNotification user REQUIREMENT_CREATED
                            (lit "requirement_version") (v_id version)]
       else [])
    project_users.

(* ===================================================================== *)
(** ** [app/routes.py]: sharing and custom columns *)
(* ===================================================================== *)

(** [list.remove(x)]: the first occurrence goes. *)
Fixpoint list_remove {A : Type} (eqb : A -> A -> bool) (x : A) (l : list A)
  : list A :=
  match l with
  | [] => []
  | y :: r => if eqb x y then r else y :: list_remove eqb x r
  end.

(** A write to the project row with this id. *)
Definition update_project (db : DB) (pid : Z) (f : Project -> Project) : DB :=
  mkDB (users db)
       (map (fun p => if p_id p =? pid then f p else p) (projects db))
       (requirements db) (versions db) (history db) (comments db).

Definition set_shared_with (f : list Z -> list Z) (p : Project) : Project :=
  mkProject (p_id p) (p_user_id p) (p_custom_columns p)
            (f (p_shared_with p)).

Definition set_custom_columns (f : list str -> list str) (p : Project)
  : Project :=
  mkProject (p_id p) (p_user_id p) (f (p_custom_columns p))
            (p_shared_with p).

(** [share_project]; a request that only flashes a message leaves the
    database as it is. *)
Definition share_project (db : DB) (user pid : Z) (email : str)
  : outcome DB :=
  match get_project db pid with
  | None => Abort 404
  | Some project =>
      if negb (is_accessible_by project user) then Abort 403
      else
        let email := strip email in
        if negb (truthy email) then Done db
        else
          match find (fun u => str_eqb (u_email u) email) (users db) with
          | None => Done db
          | Some u =>
              if u_id u =? user then Done db
              else if existsb (Z.eqb (u_id u)) (p_shared_with project)
              then Done db
              else Done (update_project db pid
                           (set_shared_with (fun l => l ++ [u_id u])))
          end
  end.

(** [unshare_project] *)
Definition unshare_project (db : DB) (user pid user_id : Z) : outcome DB :=
  match get_project db pid with
  | None => Abort 404
  | Some project =>
      if negb (is_accessible_by project user) then Abort 403
      else
        match get_by u_id (users db) user_id with
        | None => Abort 404
        | Some u =>
            if existsb (Z.eqb (u_id u)) (p_shared_with project)
            then Done (update_project db pid
                         (set_shared_with (list_remove Z.eqb (u_id u))))
            else Done db
        end
  end.

(** [add_column] *)
Definition add_column (db : DB) (user pid : Z) (column_name : str)
  : outcome DB :=
  match get_project db pid with
  | None => Abort 404
  | Some project =>
      if negb (is_accessible_by project user) then Abort 403
      else
        let column_name := strip column_name in
        if negb (truthy column_name) then Done db
        else if existsb (str_eqb column_name) (p_custom_columns project)
        then Done db
        else Done (update_project db pid
                     (set_custom_columns (fun l => l ++ [column_name])))
  end.

Definition PROTECTED_COLUMNS : list str :=
  [lit "title"; lit "description"; lit "category"; lit "status";
   lit "titel"; lit "beschreibung"; lit "kategorie"; lit "id";
   lit "version"; lit "ver"; lit "version_label"; lit "version_index"].

(** [column_name.lower() in [c.lower() for c in PROTECTED_COLUMNS]] *)
Definition is_protected (column_name : str) : bool :=
  existsb (str_eqb (lower lower_cp column_name))
          (map (lower lower_cp) PROTECTED_COLUMNS).

(** [remove_column] *)
Definition remove_column (db : DB) (user pid : Z) (column_name : str)
  : outcome DB :=
  match get_project db pid with
  | None => Abort 404
  | Some project =>
      if negb (is_accessible_by project user) then Abort 403
      else if is_protected column_name then Done db
      else if existsb (str_eqb column_name) (p_custom_columns project)
      then Done (update_project db pid
                   (set_custom_columns (list_remove str_eqb column_name)))
      else Done db
  end.

(** The requests that write the project row. *)
Inductive project_request : Type :=
| ShareProject (user pid : Z) (email : str)
| UnshareProject (user pid user_id : Z)
| AddColumn (user pid : Z) (column_name : str)
| RemoveColumn (user pid : Z) (column_name : str).

Definition serve_project (db : DB) (rq : project_request) : DB :=
  committed db
    match rq with
    | ShareProject user pid email => share_project db user pid email
    | UnshareProject user pid user_id => unshare_project db user pid user_id
    | AddColumn user pid name => add_column db user pid name
    | RemoveColumn user pid name => remove_column db user pid name
    end.

(** No project id occurs twice, no user is on the share list of a project
    twice, and no custom column is there twice. *)
Record distinct_lists (db : DB) : Prop := mkDistinct {
  distinct_projects : NoDup (map p_id (projects db));
  distinct_shares : forall p, In p (projects db) -> NoDup (p_shared_with p);
  distinct_columns :
    forall p, In p (projects db) -> NoDup (p_custom_columns p)
}.

(** Bob adds a column named like a built-in one and shares the project
    with Carol, then asks to have the column removed and Carol taken off
    the project. *)
Definition requests_project : list project_request :=
  [AddColumn 2 1 (lit " Status "); ShareProject 2 1 (lit "carol@x.de");
   RemoveColumn 2 1 (lit "Status"); UnshareProject 2 1 3].

(* ===================================================================== *)
(** ** [app/routes.py]: the views of a project *)
(* ===================================================================== *)

(** [manage_project]: the requirements of the project that are not
    deleted and have a version, each with all its versions. *)
Definition manage_project (db : DB) (user pid : Z)
  : outcome (list (Requirement * list RequirementVersion)) :=
  match get_project db pid with
  | None => Abort 404
  | Some project =>
      if negb (p_user_id project =? user)
         && negb (existsb (Z.eqb user) (p_shared_with project))
      then Abort 403
      else
        let requirements :=
          filter (fun r => (r_project_id r =? pid) && negb (r_is_deleted r))
                 (requirements db) in
        Done (flat_map
                (fun req =>
                   match req_versions db (r_id req) with
                   | [] => []
                   | versions => [(req, versions)]
                   end)
                requirements)
  end.

(** [deleted_requirements_overview]: the deleted requirements of the
    user's own projects, each with its latest version. *)
Definition deleted_requirements_overview (db : DB) (user : Z)
  : list (Project * Requirement * RequirementVersion) :=
  flat_map
    (fun project =>
       flat_map
         (fun req =>
            match get_latest_version db (r_id req) with
            | Some latest_version => [(project, req, latest_version)]
            | None => []
            end)
         (filter (fun r => (r_project_id r =? p_id project)
                           && r_is_deleted r)
                 (requirements db)))
    (filter (fun p => p_user_id p =? user) (projects db)).

(* ===================================================================== *)
(** ** [app/routes.py]: the quick edits of a version *)
(* ===================================================================== *)

Definition set_custom_data (f : dict -> dict) (modified_by : option Z)
  (v : RequirementVersion) : RequirementVersion :=
  mkVersion (v_id v) (v_requirement_id v) (v_version_index v)
            (v_version_label v) (v_title v) (v_description v) (v_category v)
            (v_status v) (f (v_custom_data v)) (v_created_by_id v)
            (match modified_by with
             | Some u => Some u
             | None => v_last_modified_by_id v
             end)
            (v_is_blocked v) (v_blocked_by_id v) (v_blocked_at v).

Definition set_status (status : str) (v : RequirementVersion)
  : RequirementVersion :=
  mkVersion (v_id v) (v_requirement_id v) (v_version_index v)
            (v_version_label v) (v_title v) (v_description v) (v_category v)
            status (v_custom_data v) (v_created_by_id v)
            (v_last_modified_by_id v) (v_is_blocked v) (v_blocked_by_id v)
            (v_blocked_at v).

(** [check_version_access] in front of a write to the version. *)
Definition with_version (db : DB) (user vid : Z)
  (body : RequirementVersion -> outcome DB) : outcome DB :=
  match get_by v_id (versions db) vid with
  | None => Abort 404
  | Some version =>
      match version_project db version with
      | None => Abort 500        (* no such row: the foreign keys forbid it *)
      | Some project =>
          if negb (is_accessible_by project user) then Abort 403
          else body version
      end
  end.

(** [update_custom_data]; [column_name] and [value] are the form fields
    (a request without [column_name] writes under the key that
    [json.dumps] makes of [None], the text null). *)
Definition update_custom_data (db : DB) (user vid : Z)
  (column_name value : str) : outcome DB :=
  with_version db user vid (fun version =>
    Done (update_version db vid
            (set_custom_data
               (fun custom_data => dict_set custom_data column_name
                                            (strip value))
               None))).

(** [update_status]; [status] is the form field when it is there, and
    [wants_json] says whether the request asks for a JSON answer. *)
Definition update_status (db : DB) (user vid : Z) (status : option str)
  (wants_json : bool) : outcome DB :=
  with_version db user vid (fun version =>
    match status with
    | Some s =>
        if valid_status s then Done (update_version db vid (set_status s))
        else if wants_json then Abort 400 else Done db
    | None => if wants_json then Abort 400 else Done db
    end).

(** What the flag of the custom data reads as. *)
Definition is_quantifiable (custom_data : dict) : bool :=
  str_eqb (dict_get_or custom_data (lit "is_quantifiable") (lit "false"))
          (lit "true").

(** [toggle_quantifiable] *)
Definition toggle_quantifiable (db : DB) (user vid : Z) : outcome DB :=
  with_version db user vid (fun version =>
    let current := is_quantifiable (v_custom_data version) in
    let old_value := ja_nein current in
    let new_value := ja_nein (negb current) in
    let db1 :=
      update_version db vid
        (set_custom_data
           (fun custom_data =>
              dict_set custom_data (lit "is_quantifiable")
                       (if current then lit "false" else lit "true"))
           (Some user)) in
    Done (add_history db1
            (mkHistory (next_id h_id (history db1)) vid user (lit "modified")
                       [(lit "is_quantifiable", arrow old_value new_value)]))).

(** The quick edits. *)
Inductive edit_request : Type :=
| UpdateCustomData (user vid : Z) (column_name value : str)
| UpdateStatus (user vid : Z) (status : option str) (wants_json : bool)
| ToggleQuantifiable (user vid : Z).

Definition serve_edit (db : DB) (rq : edit_request) : DB :=
  committed db
    match rq with
    | UpdateCustomData user vid column_name value =>
        update_custom_data db user vid column_name value
    | UpdateStatus user vid status wants_json =>
        update_status db user vid status wants_json
    | ToggleQuantifiable user vid => toggle_quantifiable db user vid
    end.

(** What names a version row and places it in its chain. *)
Definition version_frame (v : RequirementVersion) : Z * Z * Z * str :=
  (v_id v, v_requirement_id v, v_version_index v, v_version_label v).

(** Bob marks version A as done, fills in a priority and flips the
    quantifiable flag. *)
Definition requests_edit : list edit_request :=
  [UpdateStatus 2 1 (Some (lit "Fertig")) true;
   UpdateCustomData 2 1 (lit "Priority") (lit " High ");
   ToggleQuantifiable 2 1].

(** The stores the example requests lead to. *)
Definition db_after_delete : DB :=
  fold_left serve_comment requests_after_delete db_thread_deleted.

Definition db_edited : DB := fold_left serve_edit requests_edit db_one.

(* ===================================================================== *)
(** * Properties *)
(* ===================================================================== *)

(** ** Strings and dicts *)

Lemma str_eqb_eq (a b : str) : str_eqb a b = true <-> a = b.
Proof.
  unfold str_eqb. destruct (list_eq_dec N.eq_dec a b); split; congruence.
Qed.

Lemma str_eqb_refl (a : str) : str_eqb a a = true.
Proof. now apply str_eqb_eq. Qed.

Lemma str_eqb_neq (a b : str) : str_eqb a b = false <-> a <> b.
Proof.
  unfold str_eqb. destruct (list_eq_dec N.eq_dec a b); split; congruence.
Qed.

Lemma str_eqb_sym (a b : str) : str_eqb a b = str_eqb b a.
Proof.
  destruct (str_eqb b a) eqn:E.
  - apply str_eqb_eq in E. subst. apply str_eqb_refl.
  - apply str_eqb_neq in E. apply str_eqb_neq. congruence.
Qed.

Ltac bool_ranges :=
  unfold between in * |-;
  repeat match goal with
         | H : _ && _ = true |- _ => apply andb_true_iff in H; destruct H
         | H : _ || _ = false |- _ => apply orb_false_iff in H; destruct H
         | H : negb _ = true |- _ => apply negb_true_iff in H
         | H : (_ <=? _)%N = true |- _ => apply N.leb_le in H
         | H : (_ <=? _)%N = false |- _ => apply N.leb_gt in H
         | H : (_ =? _)%N = true |- _ => apply N.eqb_eq in H
         | H : (_ =? _)%N = false |- _ => apply N.eqb_neq in H
         end.

Lemma between_out (lo hi c : N) :
  (c < lo \/ hi < c)%N -> between lo hi c = false.
Proof.
  unfold between. intros [H | H].
  - apply andb_false_iff. left. now apply N.leb_gt.
  - apply andb_false_iff. right. now apply N.leb_gt.
Qed.

Lemma isspace_printable (c : N) : (33 <= c <= 132)%N -> isspace c = false.
Proof.
  intros H. unfold isspace.
  rewrite !between_out by lia.
  repeat match goal with
         | |- context [(c =? ?k)%N] =>
             replace (c =? k)%N with false by (symmetry; apply N.eqb_neq; lia)
         end.
  reflexivity.
Qed.

Lemma isspace_latin (c : N) : (161 <= c <= 5759)%N -> isspace c = false.
Proof.
  intros H. unfold isspace.
  rewrite !between_out by lia.
  repeat match goal with
         | |- context [(c =? ?k)%N] =>
             replace (c =? k)%N with false by (symmetry; apply N.eqb_neq; lia)
         end.
  reflexivity.
Qed.

Lemma lower_cp_space (c : N) : isspace (lower_cp c) = isspace c.
Proof.
  unfold lower_cp.
  destruct (between 65 90 c) eqn:A.
  - bool_ranges. rewrite !isspace_printable; [reflexivity | lia | lia].
  - destruct (between 192 222 c && negb (c =? 215)%N) eqn:B;
      [|reflexivity].
    bool_ranges. rewrite !isspace_latin; [reflexivity | lia | lia].
Qed.


Lemma isspace_zero : isspace 0%N = false.
Proof. reflexivity. Qed.


(** ** Key normalisation *)

Lemma lstrip_split (s : str) : exists w, all_space w /\ s = w ++ lstrip s.
Proof.
  induction s as [|c r IH]; simpl.
  - exists []. split; [constructor | reflexivity].
  - destruct (isspace c) eqn:E.
    + destruct IH as [w [Hw Hr]]. exists (c :: w). split.
      * now constructor.
      * simpl. now rewrite <- Hr.
    + exists []. split; [constructor | reflexivity].
Qed.

Lemma lstrip_starts_clean (s : str) : starts_clean (lstrip s).
Proof.
  induction s as [|c r IH]; simpl; [exact I|].
  destruct (isspace c) eqn:E; [exact IH | exact E].
Qed.

Lemma rstrip_split (s : str) : exists w, all_space w /\ s = rstrip s ++ w.
Proof.
  unfold rstrip. destruct (lstrip_split (rev s)) as [w [Hw E]].
  exists (rev w). split.
  - apply Forall_rev. exact Hw.
  - rewrite <- rev_app_distr, <- E. symmetry. apply rev_involutive.
Qed.

Lemma last_rev_head (l : str) (d : N) :
  last (rev l) d = match l with [] => d | c :: _ => c end.
Proof.
  destruct l as [|c r]; [reflexivity|].
  simpl. apply last_last.
Qed.

Lemma rstrip_ends_clean (s : str) : ends_clean (rstrip s).
Proof.
  unfold ends_clean, rstrip. rewrite last_rev_head.
  pose proof (lstrip_starts_clean (rev s)) as H.
  destruct (lstrip (rev s)); [reflexivity | exact H].
Qed.

Lemma strip_starts_clean (s : str) : starts_clean (strip s).
Proof.
  unfold strip.
  pose proof (lstrip_starts_clean s) as H.
  destruct (rstrip_split (lstrip s)) as [w [_ E]].
  destruct (rstrip (lstrip s)) as [|c r]; [exact I|].
  rewrite E in H. exact H.
Qed.

Lemma strip_ends_clean (s : str) : ends_clean (strip s).
Proof. apply rstrip_ends_clean. Qed.

Lemma ends_clean_tail (c : N) (r : str) :
  ends_clean (c :: r) -> ends_clean r.
Proof.
  unfold ends_clean. destruct r as [|d r']; [intros _; reflexivity|].
  simpl. auto.
Qed.

Lemma ends_clean_nonempty (c : N) (r : str) :
  isspace c = true -> ends_clean (c :: r) -> r <> [].
Proof.
  unfold ends_clean. intros Hc H ->. simpl in H. congruence.
Qed.

(** *** Words *)

Lemma words_from_snoc_space (c : N) (s cur : str) :
  isspace c = true -> words_from cur (s ++ [c]) = words_from cur s.
Proof.
  intros Hc. revert cur.
  induction s as [|d r IH]; intros cur; simpl.
  - rewrite Hc. destruct cur; reflexivity.
  - destruct (isspace d); [destruct cur|]; now rewrite IH.
Qed.

Lemma words_from_app_space (w s cur : str) :
  all_space w -> words_from cur (s ++ w) = words_from cur s.
Proof.
  intros Hw. revert s.
  induction Hw as [|c w Hc _ IH]; intros s.
  - now rewrite app_nil_r.
  - change (c :: w) with ([c] ++ w). rewrite app_assoc, IH.
    now apply words_from_snoc_space.
Qed.

Lemma words_space_app (w s : str) :
  all_space w -> words (w ++ s) = words s.
Proof.
  unfold words. induction 1 as [|c w Hc _ IH]; simpl; [reflexivity|].
  now rewrite Hc.
Qed.

Lemma words_strip (s : str) : words (strip s) = words s.
Proof.
  unfold strip.
  destruct (lstrip_split s) as [w1 [H1 E1]].
  destruct (rstrip_split (lstrip s)) as [w2 [H2 E2]].
  rewrite E1 at 2. rewrite words_space_app by assumption.
  rewrite E2 at 2. unfold words.
  now rewrite words_from_app_space.
Qed.


Lemma words_from_are_words (s cur : str) :
  no_space cur -> Forall is_word (words_from cur s).
Proof.
  revert cur. induction s as [|c r IH]; intros cur Hcur; simpl.
  - destruct cur as [|d cur']; constructor; [|constructor].
    split.
    + intros E. apply (f_equal (@List.length N)) in E.
      rewrite length_rev in E. discriminate.
    + now apply Forall_rev.
  - destruct (isspace c) eqn:Hc.
    + destruct cur as [|d cur'].
      * apply IH. constructor.
      * constructor; [|apply IH; constructor].
        split.
        -- intros E. apply (f_equal (@List.length N)) in E.
           rewrite length_rev in E. discriminate.
        -- now apply Forall_rev.
    + apply IH. now constructor.
Qed.

Lemma words_are_words (s : str) : Forall is_word (words s).
Proof. apply words_from_are_words. constructor. Qed.

Lemma words_from_nonempty (s cur : str) :
  ends_clean s -> s <> [] -> words_from cur s <> [].
Proof.
  revert cur. induction s as [|c r IH]; intros cur Hend Hne; [congruence|].
  simpl. destruct r as [|d r'].
  - unfold ends_clean in Hend. simpl in Hend. rewrite Hend.
    simpl. discriminate.
  - assert (Hr : words_from (c :: cur) (d :: r') <> []
                 /\ words_from [] (d :: r') <> []).
    { split; apply IH; try discriminate; now apply ends_clean_tail in Hend. }
    destruct Hr as [Hr1 Hr2].
    destruct (isspace c); [destruct cur|]; try assumption; discriminate.
Qed.


Lemma last_default_irrelevant {A : Type} (l : list A) (d d' : A) :
  l <> [] -> last l d = last l d'.
Proof.
  induction l as [|c r IH]; [congruence|].
  intros _. simpl. destruct r; [reflexivity|]. apply IH. discriminate.
Qed.

Lemma sub_ws_words (s : str) :
  ends_clean s ->
  sub_ws_from true s = join_sp (words_from [] s)
  /\ (forall cur, cur <> [] ->
        rev cur ++ sub_ws_from false s = join_sp (words_from cur s)).
Proof.
  induction s as [|c r IH]; intros Hend.
  - split; [reflexivity|].
    intros cur Hcur. simpl. rewrite app_nil_r.
    destruct cur; [congruence | reflexivity].
  - destruct (IH (ends_clean_tail Hend)) as [IH1 IH2].
    simpl. destruct (isspace c) eqn:Hc.
    + split; [exact IH1|].
      intros cur Hcur.
      pose proof (ends_clean_nonempty Hc Hend) as Hr.
      pose proof (@words_from_nonempty r [] (ends_clean_tail Hend) Hr) as Hw.
      destruct cur as [|d cur']; [congruence|].
      rewrite IH1.
      destruct (words_from [] r) as [|w ws]; [congruence|].
      reflexivity.
    + split.
      * rewrite <- (IH2 [c]) by discriminate. reflexivity.
      * intros cur Hcur. rewrite <- (IH2 (c :: cur)) by discriminate.
        simpl. now rewrite <- app_assoc.
Qed.

Lemma sub_ws_join_words (s : str) :
  starts_clean s -> ends_clean s -> sub_ws s = join_sp (words s).
Proof.
  unfold sub_ws, words. intros Hs He.
  destruct s as [|c r]; [reflexivity|].
  simpl in Hs. simpl. rewrite Hs.
  destruct (sub_ws_words (ends_clean_tail He)) as [_ H].
  rewrite <- (H [c]) by discriminate. reflexivity.
Qed.

Section NormaliseFacts.

Variable lower1 : N -> N.
Hypothesis lower1_space : forall c, isspace (lower1 c) = isspace c.
Hypothesis lower1_idem : forall c, lower1 (lower1 c) = lower1 c.

Lemma lower_rev (s : str) : lower lower1 (rev s) = rev (lower lower1 s).
Proof. unfold lower. apply map_rev. Qed.


Lemma words_from_lower (s cur : str) :
  words_from (lower lower1 cur) (lower lower1 s)
  = map (lower lower1) (words_from cur s).
Proof.
  revert cur. induction s as [|c r IH]; intros cur.
  - destruct cur as [|n cur']; [reflexivity|].
    cbn [lower map words_from]. f_equal.
    symmetry. apply (lower_rev (n :: cur')).
  - cbn [lower map words_from]. rewrite lower1_space.
    destruct (isspace c).
    + destruct cur as [|n cur']; cbn [lower map].
      * apply (IH []).
      * f_equal; [symmetry; apply (lower_rev (n :: cur')) | apply (IH [])].
    + apply (IH (c :: cur)).
Qed.

Lemma words_lower (s : str) :
  words (lower lower1 s) = map (lower lower1) (words s).
Proof. apply (words_from_lower s []). Qed.

Lemma lower_starts_clean (s : str) :
  starts_clean s -> starts_clean (lower lower1 s).
Proof. destruct s; simpl; [auto|]. now rewrite lower1_space. Qed.

Lemma last_map_lower (s : str) (d : N) :
  last (lower lower1 s) (lower1 d) = lower1 (last s d).
Proof.
  induction s as [|c r IH]; [reflexivity|].
  cbn [lower map last]. destruct r; [reflexivity|]. exact IH.
Qed.

Lemma lower_ends_clean (s : str) :
  ends_clean s -> ends_clean (lower lower1 s).
Proof.
  unfold ends_clean. intros Hs.
  destruct s as [|c r]; [reflexivity|].
  rewrite (@last_default_irrelevant N (lower lower1 (c :: r)) 0%N (lower1 0%N))
    by discriminate.
  now rewrite last_map_lower, lower1_space.
Qed.

Lemma lower_is_word (w : str) : is_word w -> is_word (lower lower1 w).
Proof.
  intros [Hne Hw]. split.
  - destruct w; [congruence | discriminate].
  - unfold no_space, lower. apply Forall_map.
    eapply Forall_impl; [|exact Hw].
    intros c Hc. now rewrite lower1_space.
Qed.

(** The code and the spec's wording agree on every title. *)
Lemma normalize_key_with_spec (title : str) :
  normalize_key_with lower1 title = spec_normalize_with lower1 title.
Proof.
  unfold normalize_key_with, spec_normalize_with.
  destruct title as [|c r]; [reflexivity|].
  rewrite sub_ws_join_words.
  - now rewrite words_lower, words_strip.
  - apply lower_starts_clean, strip_starts_clean.
  - apply lower_ends_clean, strip_ends_clean.
Qed.


End NormaliseFacts.



(** ** Blocking *)

Lemma opt_is_true (x : option Z) (y : Z) : opt_is x y = true <-> x = Some y.
Proof.
  destruct x as [a|]; simpl; [|split; discriminate].
  rewrite Z.eqb_eq. split; congruence.
Qed.

(** C5.  An unblocked version can be edited by every user; a blocked one
    exactly by the user recorded as its blocker and by the project owner. *)
Theorem can_be_edited_by_spec (p : Project) (v : RequirementVersion)
  (user : Z) :
  (v_is_blocked v = false -> can_be_edited_by p v user = true)
  /\ (v_is_blocked v = true ->
      (can_be_edited_by p v user = true
       <-> v_blocked_by_id v = Some user \/ p_user_id p = user)).
Proof.
  unfold can_be_edited_by. split; intros ->; simpl; [reflexivity|].
  rewrite orb_true_iff, opt_is_true, Z.eqb_eq. reflexivity.
Qed.

(** Blocked by Bob, the version can be edited by Bob. *)
Lemma can_be_edited_by_spec_witness :
  can_be_edited_by project1 version_a_blocked 2 = true.
Proof.
  destruct (can_be_edited_by_spec project1 version_a_blocked 2) as [_ H].
  apply H; [reflexivity | left; reflexivity].
Defined.

Lemma db_one_holds_version_a : versions db_one = [version_a].
Proof. vm_compute. reflexivity. Qed.

Lemma get_by_update (vid : Z) (f : RequirementVersion -> RequirementVersion)
  (l : list RequirementVersion) :
  (forall v, v_id (f v) = v_id v) ->
  get_by v_id (map (fun v => if v_id v =? vid then f v else v) l) vid
  = option_map f (get_by v_id l vid).
Proof.
  intros Hf. unfold get_by.
  induction l as [|v r IH]; [reflexivity|].
  simpl. destruct (v_id v =? vid) eqn:E.
  - rewrite Hf, E. reflexivity.
  - rewrite E. exact IH.
Qed.

Lemma owner_is_accessible (p : Project) : is_accessible_by p (p_user_id p) = true.
Proof. unfold is_accessible_by. now rewrite Z.eqb_refl. Qed.

(** C4, as the code has it.  On an unblocked version [can_be_blocked_by]
    answers yes for every user with access to the project, but the block
    request itself is open to the project owner only: for the owner it
    records the block with the owner as blocker and the current time, for
    every other user it aborts with 403. *)
Theorem block_request_is_owner_only (db : DB) (user vid now : Z)
  (version : RequirementVersion) (project : Project) :
  get_by v_id (versions db) vid = Some version ->
  version_project db version = Some project ->
  v_is_blocked version = false ->
  is_accessible_by project user = true ->
  can_be_blocked_by project version user = true
  /\ (p_user_id project <> user ->
      toggle_block_requirement db user vid now = Abort 403)
  /\ (p_user_id project = user ->
      exists db',
        toggle_block_requirement db user vid now = Done db'
        /\ get_by v_id (versions db') vid
           = Some (set_block true (Some user) (Some now) version)).
Proof.
  intros Hv Hp Hb Ha. split; [|split].
  - unfold can_be_blocked_by. rewrite Hb, Ha. simpl.
    now destruct (p_user_id project =? user).
  - intros Hne. unfold toggle_block_requirement. rewrite Hv, Hp.
    apply Z.eqb_neq in Hne. now rewrite Hne.
  - intros He. unfold toggle_block_requirement. rewrite Hv, Hp.
    apply Z.eqb_eq in He. rewrite He, Hb. simpl.
    eexists. split; [reflexivity|].
    simpl. rewrite get_by_update by reflexivity. now rewrite Hv.
Qed.

(** Alice, the owner, blocks version A. *)
Lemma block_request_is_owner_only_witness :
  exists db',
    toggle_block_requirement db_one 1 1 1000 = Done db'
    /\ get_by v_id (versions db') 1
       = Some (set_block true (Some 1) (Some 1000) version_a).
Proof.
  apply (block_request_is_owner_only db_one 1 1 1000
           (version := version_a) (project := project1));
    reflexivity.
Defined.

(** C4, as the claim states it, fails: Bob has access to the project and
    version A is not blocked, yet his block request is refused and the
    version stays unblocked. *)
Lemma shared_user_cannot_block :
  is_accessible_by project1 2 = true
  /\ get_by v_id (versions db_one) 1 = Some version_a
  /\ v_is_blocked version_a = false
  /\ toggle_block_requirement db_one 2 1 1000 = Abort 403.
Proof. vm_compute. repeat split. Qed.

(** ** Deleting a version *)

Lemma get_by_some {A : Type} (id_of : A -> Z) (l : list A) (id : Z) (x : A) :
  get_by id_of l id = Some x -> In x l /\ id_of x = id.
Proof.
  unfold get_by. intros H. apply find_some in H.
  destruct H as [Hin He]. apply Z.eqb_eq in He. auto.
Qed.

Lemma get_by_map {A : Type} (id_of : A -> Z) (f : A -> A) (l : list A)
  (id : Z) :
  (forall x, id_of (f x) = id_of x) ->
  get_by id_of (map f l) id = option_map f (get_by id_of l id).
Proof.
  intros Hf. unfold get_by.
  induction l as [|x r IH]; [reflexivity|].
  simpl. rewrite Hf. destruct (id_of x =? id); [reflexivity | exact IH].
Qed.

Lemma unique_by_id {A : Type} (id_of : A -> Z) (l : list A) (x y : A) :
  NoDup (map id_of l) -> In x l -> In y l -> id_of x = id_of y -> x = y.
Proof.
  induction l as [|z r IH]; [contradiction|].
  simpl. intros Hnd Hx Hy He.
  inversion Hnd as [|? ? Hz Hr]; subst.
  destruct Hx as [-> | Hx], Hy as [-> | Hy]; auto.
  - exfalso. apply Hz. rewrite He. now apply in_map.
  - exfalso. apply Hz. rewrite <- He. now apply in_map.
Qed.

Lemma filter_keeps_all {A : Type} (f : A -> bool) (l : list A) :
  (forall y, In y l -> f y = true) -> filter f l = l.
Proof.
  induction l as [|z r IH]; [reflexivity|].
  intros H. simpl. rewrite (H z) by now left.
  f_equal. apply IH. intros y Hy. apply H. now right.
Qed.

Lemma filter_drops_one {A : Type} (id_of : A -> Z) (l : list A) (x : A) :
  NoDup (map id_of l) -> In x l ->
  (forall y, In y (filter (fun y => negb (id_of y =? id_of x)) l)
             <-> In y l /\ y <> x)
  /\ S (List.length (filter (fun y => negb (id_of y =? id_of x)) l))
     = List.length l.
Proof.
  intros Hnd Hin. split.
  - intros y. rewrite filter_In, negb_true_iff, Z.eqb_neq. split.
    + intros [Hy Hne]. split; [exact Hy | congruence].
    + intros [Hy Hne]. split; [exact Hy|].
      intros He. apply Hne. eapply unique_by_id; eauto.
  - induction l as [|z r IH]; [contradiction|].
    simpl in Hnd. inversion Hnd as [|? ? Hz Hr]; subst.
    simpl. destruct Hin as [-> | Hx].
    + rewrite Z.eqb_refl. simpl. f_equal.
      rewrite filter_keeps_all; [reflexivity|].
      intros y Hy. apply negb_true_iff, Z.eqb_neq. intros He.
      apply Hz. rewrite <- He. now apply in_map.
    + destruct (id_of z =? id_of x) eqn:E.
      * exfalso. apply Hz. apply Z.eqb_eq in E. rewrite E. now apply in_map.
      * simpl. f_equal. now apply IH.
Qed.



(** ** Resolving a generated item *)

Lemma next_id_above {A : Type} (id_of : A -> Z) (rows : list A) (x : A) :
  In x rows -> id_of x < next_id id_of rows.
Proof.
  unfold next_id. induction rows as [|y r IH]; [contradiction|].
  cbn [fold_right In]. intros [-> | H]; [lia|]. specialize (IH H). lia.
Qed.

Lemma next_id_fresh {A : Type} (id_of : A -> Z) (rows : list A) :
  ~ In (next_id id_of rows) (map id_of rows).
Proof.
  intros H. apply in_map_iff in H. destruct H as [x [He Hx]].
  apply (next_id_above id_of) in Hx. lia.
Qed.

Lemma py_int_nonempty (s : str) (z : Z) : py_int s = Some z -> s <> [].
Proof. intros H ->. discriminate. Qed.

Lemma strip_nil : strip [] = [].
Proof. reflexivity. Qed.

Lemma find_by_hint_spec (db : DB) (pid : Z) (item : dict) (req : Requirement) :
  find_by_hint db pid item = Some req <-> hint_resolves db pid item req.
Proof.
  unfold find_by_hint, hint_resolves. split.
  - destruct (dict_get item (lit "id")) as [s|]; [|discriminate].
    destruct (truthy s); [|discriminate].
    destruct (py_int (strip s)) as [rid|] eqn:Ei; [|discriminate].
    destruct (get_by r_id (requirements db) rid) as [r|] eqn:Er;
      [|discriminate].
    destruct (r_project_id r =? pid) eqn:Ep; [|discriminate].
    intros [= <-]. exists s, rid. apply Z.eqb_eq in Ep. auto.
  - intros [s [rid [Hs [Hi [Hr Hp]]]]]. rewrite Hs.
    destruct s as [|c s']; [discriminate|]. simpl truthy. cbv iota.
    rewrite Hi, Hr. apply Z.eqb_eq in Hp. now rewrite Hp.
Qed.

Lemma key_is_spec (key : str) (r : Requirement) :
  key_is key r = true <-> r_key r = Some key.
Proof.
  unfold key_is. destruct (r_key r) as [k|]; [|split; discriminate].
  rewrite str_eqb_eq. split; congruence.
Qed.

Lemma find_by_key_some (db : DB) (pid : Z) (key : str) (req : Requirement) :
  find_by_key db pid key = Some req ->
  In req (requirements db) /\ has_key pid key req.
Proof.
  unfold find_by_key. intros H. apply find_some in H.
  destruct H as [Hin H]. apply andb_true_iff in H. destruct H as [Hp Hk].
  apply Z.eqb_eq in Hp. apply key_is_spec in Hk. repeat split; assumption.
Qed.

Lemma find_by_key_none (db : DB) (pid : Z) (key : str) :
  find_by_key db pid key = None <->
  forall r, In r (requirements db) -> ~ has_key pid key r.
Proof.
  unfold find_by_key, has_key. split.
  - intros H r Hin [Hp Hk].
    pose proof (find_none _ _ H r Hin) as Hf. simpl in Hf.
    apply Z.eqb_eq in Hp. apply key_is_spec in Hk.
    rewrite Hp, Hk in Hf. discriminate.
  - intros H.
    destruct (find _ (requirements db)) as [r|] eqn:E; [|reflexivity].
    apply find_some in E. destruct E as [Hin E].
    apply andb_true_iff in E. destruct E as [Hp Hk].
    apply Z.eqb_eq in Hp. apply key_is_spec in Hk.
    exfalso. apply (H r Hin). split; assumption.
Qed.

Lemma next_version_info_index (db : DB) (req : Requirement) :
  next_version_info db req
  = (fst (next_version_info db req),
     version_label (fst (next_version_info db req))).
Proof.
  unfold next_version_info.
  destruct (get_latest_version db (r_id req)); reflexivity.
Qed.




(** The Excel import resolves a row the same way, without the id step: a
    row with a title and a description becomes a new version of the first
    requirement of the project with the normalised title as key, or
    version 1 of a new requirement with that key. *)
Lemma import_row_resolution (db : DB) (user pid : Z) (row : Row) :
  let title := cell_or (row_title row) [] in
  let key := normalize_key title in
  let db' := import_row user pid db row in
  title <> [] -> cell_or (row_description row) [] <> [] ->
  (forall req, find_by_key db pid key = Some req ->
     requirements db' = requirements db
     /\ exists v, versions db' = versions db ++ [v]
                  /\ v_requirement_id v = r_id req)
  /\ (find_by_key db pid key = None ->
      exists new v,
        requirements db' = requirements db ++ [new]
        /\ has_key pid key new
        /\ versions db' = versions db ++ [v]
        /\ v_requirement_id v = r_id new /\ v_version_index v = 1).
Proof.
  intros title key db' Ht Hd. unfold db', import_row. fold title. fold key.
  destruct title as [|t1 tr]; [congruence|].
  destruct (cell_or (row_description row) []) as [|d1 dr]; [congruence|].
  cbn [truthy negb]. split.
  - intros req ->. split; [reflexivity|].
    eexists. split; reflexivity.
  - intros ->. eexists _, _. split; [reflexivity|].
    split; [split; reflexivity|]. split; [reflexivity|].
    split; reflexivity.
Qed.

(** ** The change log of an update *)

Lemma dict_get_set (d : dict) (k v k' : str) :
  dict_get (dict_set d k v) k'
  = if str_eqb k k' then Some v else dict_get d k'.
Proof.
  induction d as [|[k0 v0] r IH]; [reflexivity|].
  simpl. destruct (str_eqb k0 k) eqn:E0.
  - apply str_eqb_eq in E0. subst k0. simpl.
    destruct (str_eqb k k'); reflexivity.
  - simpl. rewrite IH. destruct (str_eqb k0 k') eqn:E1; [|reflexivity].
    apply str_eqb_eq in E1. subst k0. now rewrite str_eqb_sym, E0.
Qed.

Lemma dict_get_nil_iff (d : dict) : d = [] <-> forall k, dict_get d k = None.
Proof.
  split; [intros -> k; reflexivity|].
  destruct d as [|[k v] r]; [reflexivity|].
  intros H. specialize (H k). simpl in H. rewrite str_eqb_refl in H.
  discriminate.
Qed.

Lemma remove_prefix_spec (p s r : str) :
  remove_prefix p s = Some r <-> s = p ++ r.
Proof.
  revert s. induction p as [|a p IH]; intros s; simpl.
  - split; congruence.
  - destruct s as [|b s]; [split; discriminate|].
    destruct (a =? b)%N eqn:E.
    + apply N.eqb_eq in E. subst b. rewrite IH. split; congruence.
    + apply N.eqb_neq in E. split; [discriminate | congruence].
Qed.

Lemma remove_prefix_app (p r : str) : remove_prefix p (p ++ r) = Some r.
Proof. now apply remove_prefix_spec. Qed.

Lemma update_columns_get (cols : list str) (form : dict) :
  forall (changes custom : dict) (k : str),
  dict_get (fst (update_columns cols form changes custom)) k
  = match remove_prefix (lit "custom_") k with
    | Some column =>
        if existsb (str_eqb column) cols then
          let old := dict_get_or custom column [] in
          let new := submitted form k in
          match when_changed old new
                  (arrow (str_or old DASH) (str_or new DASH)) with
          | Some t => Some t
          | None => dict_get changes k
          end
        else dict_get changes k
    | None => dict_get changes k
    end.
Proof.
  induction cols as [|c rest IH]; intros changes custom k.
  - cbn [update_columns fst existsb].
    destruct (remove_prefix (lit "custom_") k); reflexivity.
  - cbn [update_columns]. rewrite IH. clear IH.
    destruct (remove_prefix (lit "custom_") k) as [column|] eqn:Ek.
    + apply remove_prefix_spec in Ek. subst k.
      cbn [existsb]. unfold submitted.
      destruct (str_eqb column c) eqn:Ec.
      * apply str_eqb_eq in Ec. subst c. cbn [orb].
        unfold dict_get_or at 1 3. rewrite dict_get_set, str_eqb_refl.
        unfold when_changed at 1 2. rewrite str_eqb_refl.
        assert (Hk : dict_get
                  (if negb (str_eqb (dict_get_or custom column [])
                              (strip (dict_get_or form
                                        (lit "custom_" ++ column) [])))
                   then dict_set changes (lit "custom_" ++ column)
                          (arrow (str_or (dict_get_or custom column []) DASH)
                             (str_or (strip (dict_get_or form
                                        (lit "custom_" ++ column) [])) DASH))
                   else changes) (lit "custom_" ++ column)
                = match when_changed (dict_get_or custom column [])
                          (strip (dict_get_or form
                                    (lit "custom_" ++ column) []))
                          (arrow (str_or (dict_get_or custom column []) DASH)
                             (str_or (strip (dict_get_or form
                                        (lit "custom_" ++ column) [])) DASH))
                  with
                  | Some t => Some t
                  | None => dict_get changes (lit "custom_" ++ column)
                  end).
        { unfold when_changed.
          destruct (str_eqb (dict_get_or custom column []) _); simpl;
            [reflexivity|].
          now rewrite dict_get_set, str_eqb_refl. }
        cbv zeta. rewrite Hk.
        destruct (existsb (str_eqb column) rest); reflexivity.
      * cbn [orb].
        assert (Hne : str_eqb (lit "custom_" ++ c) (lit "custom_" ++ column)
                      = false).
        { apply str_eqb_neq. intros E. apply app_inv_head in E.
          subst c. rewrite str_eqb_refl in Ec. discriminate. }
        assert (Hc : dict_get_or (dict_set custom c
                        (strip (dict_get_or form (lit "custom_" ++ c) [])))
                        column []
                     = dict_get_or custom column []).
        { unfold dict_get_or. rewrite dict_get_set.
          now rewrite str_eqb_sym, Ec. }
        assert (Hk : forall t,
                   dict_get (if negb (str_eqb (dict_get_or custom c [])
                                        (strip (dict_get_or form
                                                  (lit "custom_" ++ c) [])))
                             then dict_set changes (lit "custom_" ++ c) t
                             else changes) (lit "custom_" ++ column)
                   = dict_get changes (lit "custom_" ++ column)).
        { intros t. destruct (negb _); [|reflexivity].
          now rewrite dict_get_set, Hne. }
        cbv zeta. rewrite Hc, Hk. reflexivity.
    + assert (Hk : forall b t,
                 dict_get (if b : bool
                           then dict_set changes (lit "custom_" ++ c) t
                           else changes) k
                 = dict_get changes k).
      { intros b t. destruct b; [|reflexivity].
        rewrite dict_get_set.
        destruct (str_eqb (lit "custom_" ++ c) k) eqn:E; [|reflexivity].
        apply str_eqb_eq in E. subst k.
        rewrite remove_prefix_app in Ek. discriminate. }
      apply Hk.
Qed.

Lemma dict_get_if_set (b : bool) (d : dict) (k0 v k : str) :
  dict_get (if b then dict_set d k0 v else d) k
  = if b && str_eqb k k0 then Some v else dict_get d k.
Proof.
  destruct b; [|reflexivity]. rewrite dict_get_set.
  now rewrite (str_eqb_sym k0 k).
Qed.

(** Decide the comparisons and prefix tests between literal names. *)
Ltac decide_names :=
  repeat match goal with
         | |- context [str_eqb (lit ?a) (lit ?b)] =>
             let v := eval vm_compute in (str_eqb (lit a) (lit b)) in
             change (str_eqb (lit a) (lit b)) with v
         | |- context [remove_prefix (lit ?a) (lit ?b)] =>
             let v := eval vm_compute in (remove_prefix (lit a) (lit b)) in
             change (remove_prefix (lit a) (lit b)) with v
         end;
  cbn [andb orb].

Lemma custom_name_other (column name : str) :
  remove_prefix (lit "custom_") name = None ->
  str_eqb (lit "custom_" ++ column) name = false.
Proof.
  intros H. apply str_eqb_neq. intros <-.
  rewrite remove_prefix_app in H. discriminate.
Qed.

Lemma track_changes_get (version : RequirementVersion) (cols : list str)
  (form : dict) (field : str) :
  dict_get (fst (fst (track_changes version cols form))) field
  = expected_change version cols form field.
Proof.
  unfold track_changes.
  match goal with
  | |- context [update_columns cols form ?c ?cu] =>
      pose proof (update_columns_get cols form c cu field) as H5;
      destruct (update_columns cols form c cu) as [c5 custom1]
  end.
  cbn [fst] in *.
  rewrite dict_get_if_set, H5. clear H5.
  rewrite !dict_get_if_set. cbn [dict_get].
  unfold expected_change, form_quantifiable, submitted.
  destruct (str_eqb field (lit "title")) eqn:E1.
  { apply str_eqb_eq in E1. subst field. decide_names.
    rewrite !andb_false_r, andb_true_r. unfold when_changed.
    destruct (str_eqb (v_title version) _); reflexivity. }
  destruct (str_eqb field (lit "description")) eqn:E2.
  { apply str_eqb_eq in E2. subst field. decide_names.
    rewrite !andb_false_r, andb_true_r. unfold when_changed.
    destruct (str_eqb (v_description version) _); reflexivity. }
  destruct (str_eqb field (lit "category")) eqn:E3.
  { apply str_eqb_eq in E3. subst field. decide_names.
    rewrite !andb_false_r, andb_true_r. unfold when_changed.
    destruct (str_eqb (opt_str (v_category version)) _); reflexivity. }
  destruct (str_eqb field (lit "status")) eqn:E4.
  { apply str_eqb_eq in E4. subst field. decide_names.
    rewrite !andb_false_r, andb_true_r. unfold when_changed.
    destruct (str_eqb (v_status version) _); reflexivity. }
  destruct (str_eqb field (lit "is_quantifiable")) eqn:E5.
  { apply str_eqb_eq in E5. subst field. decide_names.
    rewrite !andb_false_r, andb_true_r. unfold when_changed.
    destruct (dict_get form (lit "is_quantifiable")) as [s|];
      [destruct (str_eqb s (lit "on"))|];
      destruct (str_eqb (dict_get_or (v_custom_data version) _ _) _);
      reflexivity. }
  rewrite !andb_false_r.
  destruct (remove_prefix (lit "custom_") field) as [column|];
    [|reflexivity].
  destruct (existsb (str_eqb column) cols); [|reflexivity].
  cbv zeta. destruct (when_changed _ _ _); reflexivity.
Qed.

Lemma truthy_false (s : str) : truthy s = false <-> s = [].
Proof. destruct s; simpl; split; congruence. Qed.

(** C8, as the code has it.  An update that passes validation writes one
    ['modified'] history row exactly when some field changes its value,
    and none otherwise; the row's change map holds exactly the names of
    the fields that changed, each with its text: "old → new" for the
    title, category, status, custom columns and quantifiable flag, and the
    fixed text "Beschreibung geändert" for the description. *)
Theorem update_requirement_version_logs (db : DB) (user vid : Z) (form : dict)
  (version : RequirementVersion) (project : Project) :
  get_by v_id (versions db) vid = Some version ->
  version_project db version = Some project ->
  is_accessible_by project user = true ->
  submitted form (lit "title") <> [] ->
  submitted form (lit "description") <> [] ->
  let expected := expected_change version (p_custom_columns project) form in
  exists db' changes,
    update_requirement_version db user vid form = Done db'
    /\ (forall field, dict_get changes field = expected field)
    /\ ((forall field, expected field = None) -> history db' = history db)
    /\ ((exists field, expected field <> None) ->
        exists h, history db' = history db ++ [h]
                  /\ h_version_id h = vid
                  /\ h_changed_by_id h = user
                  /\ h_change_type h = lit "modified"
                  /\ h_changes h = changes).
Proof.
  intros Hv Hp Ha Ht Hd expected.
  unfold update_requirement_version. rewrite Hv, Hp, Ha. cbn [negb].
  fold (submitted form (lit "title")).
  fold (submitted form (lit "description")).
  destruct (submitted form (lit "title")) as [|t1 tr] eqn:Et; [congruence|].
  destruct (submitted form (lit "description")) as [|d1 dr] eqn:Ed;
    [congruence|].
  cbn [truthy negb orb].
  pose proof (track_changes_get version (p_custom_columns project) form)
    as Hget.
  destruct (track_changes version (p_custom_columns project) form)
    as [[changes custom] new_status].
  cbn [fst] in Hget. fold expected in Hget.
  destruct changes as [|kv rest] eqn:Ec.
  - eexists. exists []. split; [reflexivity|]. split; [exact Hget|].
    split; [reflexivity|].
    intros [field Hf]. rewrite <- Hget in Hf. now contradiction Hf.
  - eexists. exists (kv :: rest). split; [reflexivity|].
    split; [exact Hget|]. split.
    + intros Hnone. exfalso.
      assert (Hnil : kv :: rest = []).
      { apply dict_get_nil_iff. intros k. rewrite Hget. apply Hnone. }
      discriminate.
    + intros _. eexists. split; [reflexivity|]. repeat split.
Qed.

(** Bob rewrites the description of version A: one row, with the
    description in its change map. *)
Lemma update_requirement_version_logs_witness :
  exists db' changes,
    update_requirement_version db_one 2 1 form_new_description = Done db'
    /\ dict_get changes (lit "description") = Some DESCRIPTION_CHANGED
    /\ exists h, history db' = history db_one ++ [h]
                 /\ h_change_type h = lit "modified"
                 /\ h_changes h = changes.
Proof.
  destruct (@update_requirement_version_logs db_one 2 1 form_new_description
              version_a project1) as [db' [changes [H1 [H2 [_ H4]]]]];
    try reflexivity; try (vm_compute; discriminate).
  exists db', changes. split; [exact H1|]. split.
  - rewrite H2. vm_compute. reflexivity.
  - destruct H4 as [h [Hh [_ [_ [Ht Hc]]]]].
    + exists (lit "description"). vm_compute. discriminate.
    + exists h. auto.
Defined.

(** C8, as the claim states it, fails: when Bob rewrites the description
    of version A, the row logs the description with a text that is not
    "old → new" and holds no arrow at all. *)
Lemma description_change_is_not_old_to_new :
  logged_changes (update_requirement_version db_one 2 1 form_new_description)
  = Some (lit "modified", [(lit "description", DESCRIPTION_CHANGED)])
  /\ str_eqb DESCRIPTION_CHANGED
       (arrow (v_description version_a)
              (submitted form_new_description (lit "description"))) = false
  /\ contains_arrow DESCRIPTION_CHANGED = false.
Proof. vm_compute. repeat split. Qed.

(** ** The comment thread *)

Lemma in_insert_by {A : Type} (key : A -> Z) (x y : A) (l : list A) :
  In x (insert_by key y l) <-> x = y \/ In x l.
Proof.
  induction l as [|z r IH]; simpl.
  - intuition.
  - destruct (key y <=? key z); simpl; [intuition|].
    rewrite IH. intuition.
Qed.

Lemma in_order_by {A : Type} (key : A -> Z) (x : A) (l : list A) :
  In x (order_by key l) <-> In x l.
Proof.
  unfold order_by. induction l as [|z r IH]; simpl; [reflexivity|].
  rewrite in_insert_by, IH. intuition.
Qed.

Lemma in_visible_comments (db : DB) (vid : Z) (c : RequirementComment) :
  In c (visible_comments db vid)
  <-> In c (comments db) /\ c_version_id c = vid /\ c_is_deleted c = false.
Proof.
  unfold visible_comments. rewrite in_order_by, filter_In.
  rewrite andb_true_iff, Z.eqb_eq, negb_true_iff. reflexivity.
Qed.

Lemma in_heap_append (h : heap) (p c q : Z) :
  in_heap (heap_append h p c) q = in_heap h q.
Proof.
  unfold in_heap, heap_append. induction h as [|[k v] r IH]; [reflexivity|].
  simpl. rewrite IH. now destruct (k =? p).
Qed.

Lemma heap_get_append (h : heap) (p c q id : Z) :
  In id (heap_get (heap_append h p c) q) ->
  In id (heap_get h q) \/ (q = p /\ id = c).
Proof.
  unfold heap_get, heap_append. induction h as [|[k v] r IH]; simpl; [auto|].
  destruct (k =? p) eqn:Ep; simpl.
  - destruct (k =? q) eqn:Eq; simpl; [|exact IH].
    intros H. apply in_app_iff in H. destruct H as [H | [<- | []]]; [auto|].
    right. apply Z.eqb_eq in Ep, Eq. split; congruence.
  - destruct (k =? q); simpl; [auto | exact IH].
Qed.

Lemma in_heap_initial (data : list RequirementComment) (q : Z) :
  in_heap (map (fun c => (c_id c, [])) data) q = true ->
  exists c, In c data /\ c_id c = q.
Proof.
  unfold in_heap. rewrite existsb_exists. intros [e [He Hq]].
  apply in_map_iff in He. destruct He as [c [<- Hc]].
  simpl in Hq. apply Z.eqb_eq in Hq. eauto.
Qed.

Lemma heap_get_initial (data : list RequirementComment) (q : Z) :
  heap_get (map (fun c => (c_id c, @nil Z)) data) q = [].
Proof.
  unfold heap_get. induction data as [|c r IH]; [reflexivity|].
  simpl. destruct (c_id c =? q); [reflexivity | exact IH].
Qed.

(** Where the ids of the built tree come from. *)
Lemma build_tree_sources (todo : list RequirementComment) :
  forall (h : heap) (roots : list Z),
  (forall id, In id (snd (build_tree todo h roots)) ->
     In id roots
     \/ exists c, In c todo /\ c_id c = id
                  /\ truthy_id (c_parent_comment_id c) = None)
  /\ (forall q id, In id (heap_get (fst (build_tree todo h roots)) q) ->
        In id (heap_get h q)
        \/ exists c, In c todo /\ c_id c = id
                     /\ truthy_id (c_parent_comment_id c) = Some q
                     /\ in_heap h q = true).
Proof.
  induction todo as [|c rest IH]; intros h roots.
  - simpl. auto.
  - cbn [build_tree].
    destruct (truthy_id (c_parent_comment_id c)) as [p|] eqn:Ep.
    + destruct (in_heap h p) eqn:Eh.
      * destruct (IH (heap_append h p (c_id c)) roots) as [IH1 IH2].
        split.
        -- intros id H. destruct (IH1 id H) as [H1 | [c' [Hc H1]]]; [auto|].
           right. exists c'. split; [now right | exact H1].
        -- intros q id H. destruct (IH2 q id H) as [H1 | [c' [Hc H1]]].
           ++ apply heap_get_append in H1.
              destruct H1 as [H1 | [-> ->]]; [auto|].
              right. exists c. repeat split; auto. now left.
           ++ right. exists c'. rewrite in_heap_append in H1.
              split; [now right | exact H1].
      * destruct (IH h roots) as [IH1 IH2]. split.
        -- intros id H. destruct (IH1 id H) as [H1 | [c' [Hc H1]]]; [auto|].
           right. exists c'. split; [now right | exact H1].
        -- intros q id H. destruct (IH2 q id H) as [H1 | [c' [Hc H1]]];
             [auto|].
           right. exists c'. split; [now right | exact H1].
    + destruct (IH h (roots ++ [c_id c])) as [IH1 IH2]. split.
      * intros id H. destruct (IH1 id H) as [H1 | [c' [Hc H1]]].
        -- apply in_app_iff in H1. destruct H1 as [H1 | [<- | []]]; [auto|].
           right. exists c. repeat split; auto. now left.
        -- right. exists c'. split; [now right | exact H1].
      * intros q id H. destruct (IH2 q id H) as [H1 | [c' [Hc H1]]]; [auto|].
        right. exists c'. split; [now right | exact H1].
Qed.

(** Every comment without a parent becomes a root. *)
Lemma build_tree_roots (todo : list RequirementComment) :
  forall (h : heap) (roots : list Z) (id : Z),
  In id roots
  \/ (exists c, In c todo /\ c_id c = id
                /\ truthy_id (c_parent_comment_id c) = None) ->
  In id (snd (build_tree todo h roots)).
Proof.
  induction todo as [|c rest IH]; intros h roots id H.
  - simpl. destruct H as [H | [c [[] _]]]. exact H.
  - cbn [build_tree].
    destruct (truthy_id (c_parent_comment_id c)) as [p|] eqn:Ep.
    + assert (H' : In id roots
                   \/ exists c', In c' rest /\ c_id c' = id
                        /\ truthy_id (c_parent_comment_id c') = None).
      { destruct H as [H | [c' [[<- | Hc] [H1 H2]]]]; [auto | congruence |].
        right. eauto. }
      destruct (in_heap h p); now apply IH.
    + apply IH. destruct H as [H | [c' [[<- | Hc] [H1 H2]]]].
      * left. apply in_app_iff. now left.
      * left. apply in_app_iff. right. now left.
      * right. eauto.
Qed.

(** The ids of a rendered thread are ids it was started from or ids held
    in the heap, whatever the fuel. *)
Lemma render_ids (data : list RequirementComment) (h : heap) (fuel : nat) :
  forall (ids : list Z) (id : Z),
  In id (flat_map thread_ids (render fuel data h ids)) ->
  In id ids \/ exists q, In id (heap_get h q).
Proof.
  induction fuel as [|fuel IH]; intros ids id H; [contradiction|].
  cbn [render] in H. apply in_flat_map in H. destruct H as [t [Ht Hid]].
  apply in_flat_map in Ht. destruct Ht as [id0 [Hid0 Ht]].
  destruct (get_by c_id data id0) as [c|] eqn:Ec; [|contradiction].
  destruct Ht as [<- | []].
  cbn [thread_ids] in Hid. destruct Hid as [<- | Hid].
  - left. apply get_by_some in Ec. destruct Ec as [_ ->]. exact Hid0.
  - apply IH in Hid. destruct Hid as [Hid | Hid]; [|auto].
    right. now exists id0.
Qed.

Lemma render_shows_roots (data : list RequirementComment) (h : heap)
  (fuel : nat) (ids : list Z) (c : RequirementComment) :
  In c data -> In (c_id c) ids ->
  In (c_id c) (flat_map thread_ids (render (S fuel) data h ids)).
Proof.
  intros Hc Hid. cbn [render]. apply in_flat_map.
  destruct (get_by c_id data (c_id c)) as [c'|] eqn:E.
  - eexists. split.
    + apply in_flat_map. exists (c_id c). split; [exact Hid|].
      rewrite E. now left.
    + cbn [thread_ids]. left. apply get_by_some in E. tauto.
  - exfalso. unfold get_by in E.
    pose proof (find_none _ _ E c Hc) as Hn. simpl in Hn.
    rewrite Z.eqb_refl in Hn. discriminate.
Qed.

Lemma get_comments_done (db : DB) (viewer vid : Z)
  (thread : list CommentJson) :
  get_comments db viewer vid = Done thread ->
  let data := visible_comments db vid in
  let built := build_tree data (map (fun c => (c_id c, [])) data) [] in
  thread = render (List.length data) data (fst built) (snd built).
Proof.
  unfold get_comments.
  destruct (get_by v_id (versions db) vid) as [version|]; [|discriminate].
  destruct (version_project db version) as [project|]; [|discriminate].
  destruct (negb (is_accessible_by project viewer)); [discriminate|].
  destruct (build_tree _ _ _) as [h roots]. now intros [= <-].
Qed.

(** Only listable comments are listed. *)
Lemma get_comments_lists_listable (db : DB) (viewer vid id : Z)
  (thread : list CommentJson) :
  get_comments db viewer vid = Done thread ->
  In id (flat_map thread_ids thread) ->
  exists c, In c (comments db) /\ c_id c = id /\ listable db vid c.
Proof.
  intros Hg Hid. apply get_comments_done in Hg. cbv zeta in Hg. subst thread.
  set (data := visible_comments db vid) in *.
  destruct (build_tree_sources data (map (fun c => (c_id c, [])) data) [])
    as [Hroots Hheap].
  apply render_ids in Hid.
  destruct Hid as [Hid | [q Hid]].
  - destruct (Hroots id Hid) as [[] | [c [Hc [Hi Hp]]]].
    apply in_visible_comments in Hc. destruct Hc as [Hc [Hv Hd]].
    exists c. unfold listable. auto 6.
  - destruct (Hheap q id Hid) as [H | [c [Hc [Hi [Hp Hq]]]]].
    + rewrite heap_get_initial in H. contradiction.
    + apply in_heap_initial in Hq. destruct Hq as [pc [Hpc Hpi]].
      apply in_visible_comments in Hc. destruct Hc as [Hc [Hv Hd]].
      apply in_visible_comments in Hpc. destruct Hpc as [Hpc [Hpv Hpd]].
      exists c. split; [exact Hc|]. split; [exact Hi|].
      split; [exact Hv|]. split; [exact Hd|].
      right. exists q, pc. auto 6.
Qed.

(** A comment without a parent is listed unless it is deleted. *)
Lemma get_comments_lists_roots (db : DB) (viewer vid : Z)
  (thread : list CommentJson) (c : RequirementComment) :
  get_comments db viewer vid = Done thread ->
  In c (comments db) -> c_version_id c = vid -> c_is_deleted c = false ->
  truthy_id (c_parent_comment_id c) = None ->
  In (c_id c) (flat_map thread_ids thread).
Proof.
  intros Hg Hc Hv Hd Hp. apply get_comments_done in Hg. cbv zeta in Hg.
  subst thread.
  assert (Hin : In c (visible_comments db vid)).
  { apply in_visible_comments. auto. }
  set (data := visible_comments db vid) in *.
  destruct (List.length data) as [|n] eqn:El.
  - destruct data; [contradiction | discriminate].
  - apply render_shows_roots; [exact Hin|].
    apply build_tree_roots. right. exists c. auto.
Qed.

Lemma delete_comment_done (db db' : DB) (actor cid : Z) :
  delete_comment db actor cid = Done db' ->
  comments db' = map (set_comment_deleted cid) (comments db).
Proof.
  unfold delete_comment.
  destruct (get_by c_id (comments db) cid) as [comment|]; [|discriminate].
  destruct (get_by v_id (versions db) _) as [version|]; [|discriminate].
  destruct (version_project db version) as [project|]; [|discriminate].
  destruct (negb (is_accessible_by project actor)); [discriminate|].
  destruct (_ && _); [discriminate|]. now intros [= <-].
Qed.

Lemma set_comment_deleted_id (cid : Z) (c : RequirementComment) :
  c_id (set_comment_deleted cid c) = c_id c.
Proof. unfold set_comment_deleted. now destruct (c_id c =? cid). Qed.

Lemma set_comment_deleted_parent (cid : Z) (c : RequirementComment) :
  c_parent_comment_id (set_comment_deleted cid c) = c_parent_comment_id c.
Proof. unfold set_comment_deleted. now destruct (c_id c =? cid). Qed.

Lemma set_comment_deleted_hit (cid : Z) (c : RequirementComment) :
  c_id c = cid -> c_is_deleted (set_comment_deleted cid c) = true.
Proof.
  intros H. unfold set_comment_deleted.
  apply Z.eqb_eq in H. now rewrite H.
Qed.

(** C6, as the code has it.  After a comment was soft-deleted, the listing
    of a version shows neither the deleted comment nor any reply to it;
    the other comments that have no parent and are not deleted are still
    listed. *)
Theorem deleted_comment_hides_its_replies (db db' : DB)
  (actor cid viewer vid : Z) (thread : list CommentJson) :
  NoDup (map c_id (comments db)) ->
  delete_comment db actor cid = Done db' ->
  get_comments db' viewer vid = Done thread ->
  ~ In cid (flat_map thread_ids thread)
  /\ (forall reply, In reply (comments db) ->
        truthy_id (c_parent_comment_id reply) = Some cid ->
        ~ In (c_id reply) (flat_map thread_ids thread))
  /\ (forall c, In c (comments db) -> c_id c <> cid ->
        c_version_id c = vid -> c_is_deleted c = false ->
        truthy_id (c_parent_comment_id c) = None ->
        In (c_id c) (flat_map thread_ids thread)).
Proof.
  intros Hnd Hdel Hget.
  pose proof (delete_comment_done _ _ _ Hdel) as Hcs.
  assert (Hgone : forall c, In c (comments db') -> c_id c = cid ->
                            c_is_deleted c = true).
  { intros c Hc Hi. rewrite Hcs in Hc. apply in_map_iff in Hc.
    destruct Hc as [c0 [<- Hc0]].
    rewrite set_comment_deleted_id in Hi.
    now apply set_comment_deleted_hit. }
  split; [|split].
  - intros Hin.
    destruct (get_comments_lists_listable _ _ _ _ Hget Hin)
      as [c [Hc [Hi [_ [Hd _]]]]].
    rewrite (Hgone c Hc Hi) in Hd. discriminate.
  - intros reply Hr Hp Hin.
    destruct (get_comments_lists_listable _ _ _ _ Hget Hin)
      as [c [Hc [Hi [_ [Hd Hl]]]]].
    rewrite Hcs in Hc. apply in_map_iff in Hc.
    destruct Hc as [c0 [<- Hc0]].
    rewrite set_comment_deleted_id in Hi.
    assert (c0 = reply) by (eapply unique_by_id; eauto). subst c0.
    rewrite set_comment_deleted_parent, Hp in Hl.
    destruct Hl as [Hl | [p [pc [Hpp [Hpc [Hpi [_ Hpd]]]]]]]; [discriminate|].
    injection Hpp as <-.
    rewrite (Hgone pc Hpc Hpi) in Hpd. discriminate.
  - intros c Hc Hne Hv Hd Hp.
    apply (@get_comments_lists_roots db' viewer vid thread c Hget); auto.
    rewrite Hcs. apply in_map_iff. exists c. split; [|exact Hc].
    unfold set_comment_deleted. apply Z.eqb_neq in Hne. now rewrite Hne.
Qed.

(** Alice deletes her question: the listing no longer has Bob's answer,
    and still has his other comment. *)
Lemma deleted_comment_hides_its_replies_witness :
  ~ In 2 (flat_map thread_ids thread_after_delete)
  /\ In 3 (flat_map thread_ids thread_after_delete).
Proof.
  destruct (@deleted_comment_hides_its_replies db_thread db_thread_deleted
              1 1 2 1 thread_after_delete) as [_ [H2 H3]].
  - vm_compute. repeat constructor; simpl; intuition discriminate.
  - reflexivity.
  - vm_compute. reflexivity.
  - split.
    + apply (H2 comment_answer); [right; left|]; reflexivity.
    + apply (H3 comment_other); try reflexivity.
      * right. right. now left.
      * discriminate.
Defined.

(** C6, as the claim states it, fails: Bob's answer is not deleted, yet
    once Alice's question is deleted the listing shows only the other
    comment. *)
Lemma reply_of_deleted_comment_not_listed :
  delete_comment db_thread 1 1 = Done db_thread_deleted
  /\ get_by c_id (comments db_thread_deleted) 2 = Some comment_answer
  /\ c_is_deleted comment_answer = false
  /\ shown 2 (get_comments db_thread 2 1) = true
  /\ shown 2 (get_comments db_thread_deleted 2 1) = false
  /\ get_comments db_thread_deleted 2 1 = Done thread_after_delete.
Proof. vm_compute. repeat split. Qed.

(** ** Notifications for a comment *)

Lemma mentioned_ids_spec (db : DB) (project : Project) (text : str) (user : Z) :
  In user
    (flat_map (fun m => match find_user_by_mention db project m with
                        | Some u => [u_id u]
                        | None => []
                        end) (parse_mentions text))
  <-> mention_resolved db project text user.
Proof.
  unfold mention_resolved. rewrite in_flat_map. split.
  - intros [m [Hm Hu]].
    destruct (find_user_by_mention db project m) as [u|] eqn:E;
      [|contradiction].
    destruct Hu as [<- | []]. exists m, u. auto.
  - intros [m [u [Hm [E Hu]]]]. exists m. split; [exact Hm|].
    rewrite E. now left.
Qed.

Lemma existsb_Zeqb (x : Z) (l : list Z) :
  existsb (Z.eqb x) l = true <-> In x l.
Proof.
  rewrite existsb_exists. split.
  - intros [y [Hy He]]. apply Z.eqb_eq in He. now subst.
  - intros H. exists x. split; [exact H | apply Z.eqb_refl].
Qed.

(** Who is notified of a comment: everyone with access to the project and
    everyone a mention resolves to, the acting user excepted. *)
Lemma notify_comment_added_recipients (db : DB) (project : Project)
  (comment : RequirementComment) (actor user : Z) :
  In user (recipients (notify_comment_added db project comment actor))
  <-> user <> actor
      /\ (In user (p_user_id project :: p_shared_with project)
          \/ mention_resolved db project (c_text comment) user).
Proof.
  unfold recipients, notify_comment_added.
  rewrite map_app, in_app_iff, !in_map_iff. split.
  - intros [[n [Hn Hin]] | [n [Hn Hin]]].
    + apply in_flat_map in Hin. destruct Hin as [m [Hm Hin]].
      destruct (find_user_by_mention db project m) as [u|] eqn:E;
        [|contradiction].
      destruct (negb (u_id u =? actor)) eqn:Ea; [|contradiction].
      destruct Hin as [<- | []]. simpl in Hn. subst user.
      apply negb_true_iff, Z.eqb_neq in Ea. split; [exact Ea|].
      right. exists m, u. auto.
    + apply in_flat_map in Hin. destruct Hin as [w [Hw Hin]].
      destruct (negb (w =? actor) && _) eqn:Ea; [|contradiction].
      destruct Hin as [<- | []]. simpl in Hn. subst w.
      apply andb_true_iff in Ea. destruct Ea as [Ea _].
      apply negb_true_iff, Z.eqb_neq in Ea. auto.
  - intros [Hne Hwho].
    set (ids := flat_map (fun m => match find_user_by_mention db project m with
                                   | Some u => [u_id u]
                                   | None => []
                                   end) (parse_mentions (c_text comment))).
    destruct (existsb (Z.eqb user) ids) eqn:Em.
    + left. apply existsb_Zeqb in Em. apply mentioned_ids_spec in Em.
      destruct Em as [m [u [Hm [E Hu]]]].
      exists (mkNotification user MENTION (lit "comment") (c_id comment)).
      split; [reflexivity|]. apply in_flat_map. exists m.
      split; [exact Hm|]. rewrite E, Hu.
      apply Z.eqb_neq in Hne. rewrite Hne. now left.
    + destruct Hwho as [Hp | Hr].
      * right.
        exists (mkNotification user COMMENT (lit "comment") (c_id comment)).
        split; [reflexivity|]. apply in_flat_map. exists user.
        split; [exact Hp|]. fold ids. rewrite Em.
        apply Z.eqb_neq in Hne. rewrite Hne. now left.
      * apply mentioned_ids_spec in Hr. apply existsb_Zeqb in Hr.
        fold ids in Hr. congruence.
Qed.

(** A user some mention resolves to gets no ['comment'] row. *)
Lemma notify_comment_added_no_comment_row (db : DB) (project : Project)
  (comment : RequirementComment) (actor user : Z) :
  mention_resolved db project (c_text comment) user ->
  count_rows COMMENT user (notify_comment_added db project comment actor)
  = 0%nat.
Proof.
  intros Hr. unfold count_rows.
  match goal with
  | |- List.length ?l = 0%nat => destruct l as [|n rest] eqn:E
  end; [reflexivity|].
  exfalso.
  assert (Hn : In n (n :: rest)) by now left.
  rewrite <- E in Hn. apply filter_In in Hn. destruct Hn as [Hin Hn].
  apply andb_true_iff in Hn. destruct Hn as [Hu Ht].
  apply Z.eqb_eq in Hu. apply str_eqb_eq in Ht.
  unfold notify_comment_added in Hin. apply in_app_iff in Hin.
  destruct Hin as [Hin | Hin]; apply in_flat_map in Hin.
  - destruct Hin as [m [_ Hin]].
    destruct (find_user_by_mention db project m); [|contradiction].
    destruct (negb _); [|contradiction].
    destruct Hin as [<- | []]. vm_compute in Ht. discriminate.
  - destruct Hin as [w [_ Hin]].
    destruct (negb (w =? actor) && _) eqn:Ea; [|contradiction].
    destruct Hin as [<- | []]. simpl in Hu. subst w.
    apply andb_true_iff in Ea. destruct Ea as [_ Ea].
    apply negb_true_iff in Ea.
    apply mentioned_ids_spec, existsb_Zeqb in Hr. congruence.
Qed.

(** C7 at a comment that names one user twice.  Alice writes
    "@bob.smith siehe oben, @bob bitte pruefen": the text holds the two
    mentions "bob.smith" and "bob", both resolve to Bob, and Bob gets two
    ['mention'] rows (and, as it should be, no ['comment'] row). *)
Theorem notify_comment_added_twice_mentioned :
  parse_mentions (c_text comment_two_mentions) = [lit "bob.smith"; lit "bob"]
  /\ find_user_by_mention db_one project1 (lit "bob.smith") = Some bob
  /\ find_user_by_mention db_one project1 (lit "bob") = Some bob
  /\ count_rows MENTION 2
       (notify_comment_added db_one project1 comment_two_mentions 1) = 2%nat
  /\ count_rows COMMENT 2
       (notify_comment_added db_one project1 comment_two_mentions 1) = 0%nat.
Proof. vm_compute. repeat split. Qed.

(** ** The version chain *)


Lemma insert_by_head {A : Type} (key : A -> Z) (x : A) (l : list A) :
  (forall y, In y l -> key x < key y) -> insert_by key x l = x :: l.
Proof.
  destruct l as [|y r]; [reflexivity|].
  intros H. simpl.
  assert (Hxy : key x < key y) by (apply H; now left).
  apply Z.lt_le_incl, Z.leb_le in Hxy. now rewrite Hxy.
Qed.

Lemma order_by_sorted (l : list RequirementVersion) :
  StronglySorted lt_index l -> order_by v_version_index l = l.
Proof.
  unfold order_by. induction 1 as [|x r Hr IH Hx]; [reflexivity|].
  simpl. rewrite IH. apply insert_by_head.
  intros y Hy. rewrite Forall_forall in Hx. exact (Hx y Hy).
Qed.

Lemma req_versions_rows (db : DB) (rid : Z) :
  sound db -> req_versions db rid = rows_of db rid.
Proof. intros S. apply order_by_sorted, (sound_order S). Qed.

Lemma get_latest_version_rows (db : DB) (rid : Z) :
  sound db ->
  get_latest_version db rid
  = match rows_of db rid with [] => None | a :: r => Some (last r a) end.
Proof.
  intros S. unfold get_latest_version. now rewrite req_versions_rows.
Qed.

Lemma next_version_info_rows (db : DB) (req : Requirement) :
  sound db ->
  fst (next_version_info db req) = next_index (rows_of db (r_id req)).
Proof.
  intros S. unfold next_version_info, next_index.
  rewrite get_latest_version_rows by assumption.
  destruct (rows_of db (r_id req)); reflexivity.
Qed.

Lemma last_cons {A : Type} (r : list A) (a b : A) :
  last (b :: r) a = last r b.
Proof.
  destruct r as [|c r]; [reflexivity|].
  change (last (b :: c :: r) a) with (last (c :: r) a).
  apply last_default_irrelevant. discriminate.
Qed.

Lemma last_in {A : Type} (r : list A) (a : A) : In (last r a) (a :: r).
Proof.
  revert a. induction r as [|b r IH]; intros a; [now left|].
  right. rewrite last_cons. apply IH.
Qed.

Lemma sorted_below_last (r : list RequirementVersion) :
  forall a, StronglySorted lt_index (a :: r) ->
  forall x, In x (a :: r) -> v_version_index x <= v_version_index (last r a).
Proof.
  induction r as [|b r IH]; intros a Hs x Hx.
  - destruct Hx as [<- | []]. simpl. lia.
  - rewrite last_cons.
    inversion Hs as [|? ? Hr Ha]; subst.
    destruct Hx as [<- | Hx].
    + rewrite Forall_forall in Ha.
      specialize (Ha (last r b) (last_in r b)). unfold lt_index in Ha. lia.
    + apply IH; assumption.
Qed.

Lemma rows_of_add_version (db : DB) (v : RequirementVersion) (rid : Z) :
  rows_of (add_version db v) rid
  = rows_of db rid ++ (if v_requirement_id v =? rid then [v] else []).
Proof. unfold rows_of. simpl. now rewrite filter_app. Qed.

Lemma sorted_snoc (l : list RequirementVersion) (v : RequirementVersion) :
  StronglySorted lt_index l -> (forall x, In x l -> lt_index x v) ->
  StronglySorted lt_index (l ++ [v]).
Proof.
  induction 1 as [|a r Hr IH Ha]; intros Hv; simpl.
  - constructor; constructor.
  - constructor.
    + apply IH. intros x Hx. apply Hv. now right.
    + apply Forall_app. split; [exact Ha|].
      constructor; [|constructor]. apply Hv. now left.
Qed.

Lemma nodup_snoc {A : Type} (l : list A) (x : A) :
  NoDup l -> ~ In x l -> NoDup (l ++ [x]).
Proof.
  induction 1 as [|a r Ha Hr IH]; intros Hx; simpl.
  - constructor; [intros [] | constructor].
  - constructor.
    + rewrite in_app_iff. intros [H | [<- | []]]; [contradiction|].
      apply Hx. now left.
    + apply IH. intros H. apply Hx. now right.
Qed.

Lemma rows_of_in (db : DB) (rid : Z) (v : RequirementVersion) :
  In v (rows_of db rid) <-> In v (versions db) /\ v_requirement_id v = rid.
Proof. unfold rows_of. now rewrite filter_In, Z.eqb_eq. Qed.

Lemma next_index_above (db : DB) (rid : Z) :
  sound db ->
  1 <= next_index (rows_of db rid)
  /\ forall x, In x (rows_of db rid) ->
       v_version_index x < next_index (rows_of db rid).
Proof.
  intros S. pose proof (sound_order S rid) as Hs.
  destruct (rows_of db rid) as [|a r] eqn:E; simpl.
  - split; [lia | intros x []].
  - assert (Hl : In (last r a) (versions db)).
    { apply (rows_of_in db rid). rewrite E. apply last_in. }
    destruct (sound_labels S _ Hl) as [H1 _].
    split; [lia|]. intros x Hx.
    pose proof (@sorted_below_last r a Hs x Hx). lia.
Qed.

Lemma continues_sound (db : DB) (v : RequirementVersion) :
  sound db -> continues db v -> sound (add_version db v).
Proof.
  intros S [Hr [Hi [Hx Hl]]].
  destruct (next_index_above (v_requirement_id v) S) as [H1 Hlt].
  constructor.
  - intros rid. rewrite rows_of_add_version.
    destruct (v_requirement_id v =? rid) eqn:E.
    + apply Z.eqb_eq in E. subst rid.
      apply sorted_snoc; [apply (sound_order S)|].
      intros x Hin. unfold lt_index. rewrite Hx. now apply Hlt.
    + rewrite app_nil_r. apply (sound_order S).
  - intros w Hw. simpl in Hw. apply in_app_iff in Hw.
    destruct Hw as [Hw | [<- | []]]; [now apply (sound_labels S)|].
    split; [lia | exact Hl].
  - intros w Hw. simpl in *. apply in_app_iff in Hw.
    destruct Hw as [Hw | [<- | []]]; [now apply (sound_refs S) | exact Hr].
  - simpl. rewrite map_app. simpl. apply nodup_snoc; [apply (sound_ids S)|].
    rewrite Hi. apply next_id_fresh.
Qed.

Lemma counts_from_snoc (l : list Z) (k x : Z) :
  counts_from k l = true ->
  counts_from k (l ++ [x]) = (x =? k + Z.of_nat (List.length l)).
Proof.
  revert k. induction l as [|a r IH]; intros k H; simpl.
  - rewrite andb_true_r. f_equal. lia.
  - simpl in H. apply andb_true_iff in H. destruct H as [Ha Hr].
    rewrite Ha, (IH _ Hr). simpl. f_equal. lia.
Qed.

Lemma counts_from_last (r : list RequirementVersion) :
  forall (a : RequirementVersion) (k : Z),
  counts_from k (map v_version_index (a :: r)) = true ->
  v_version_index (last r a) = k + Z.of_nat (List.length r).
Proof.
  induction r as [|b r IH]; intros a k H.
  - simpl in *. apply andb_true_iff in H. destruct H as [H _].
    apply Z.eqb_eq in H. lia.
  - rewrite last_cons. cbn [map counts_from] in H.
    apply andb_true_iff in H. destruct H as [_ H].
    rewrite (IH b (k + 1)) by exact H. cbn [List.length]. lia.
Qed.

Lemma continues_dense (db : DB) (v : RequirementVersion) :
  sound db -> dense db -> continues db v -> dense (add_version db v).
Proof.
  intros S D [_ [_ [Hx _]]] rid. unfold gapless.
  rewrite rows_of_add_version.
  destruct (v_requirement_id v =? rid) eqn:E.
  - apply Z.eqb_eq in E. subst rid. rewrite map_app. simpl.
    specialize (D (v_requirement_id v)). unfold gapless in D.
    rewrite counts_from_snoc by exact D. apply Z.eqb_eq.
    rewrite Hx, length_map.
    destruct (rows_of db (v_requirement_id v)) as [|a r]; [reflexivity|].
    unfold next_index. rewrite (counts_from_last _ _ _ D).
    cbn [List.length]. lia.
  - rewrite app_nil_r. apply D.
Qed.

(** Soundness and density read the version rows and the requirement ids
    only. *)
Lemma sound_same_rows (db db' : DB) :
  versions db' = versions db ->
  (forall id, In id (map r_id (requirements db)) ->
              In id (map r_id (requirements db'))) ->
  sound db -> sound db'.
Proof.
  intros Hv Hr S. constructor.
  - intros rid. unfold rows_of. rewrite Hv. apply (sound_order S).
  - intros v. rewrite Hv. apply (sound_labels S).
  - intros v. rewrite Hv. intros H. apply Hr. now apply (sound_refs S).
  - rewrite Hv. apply (sound_ids S).
Qed.

Lemma dense_same_rows (db db' : DB) :
  versions db' = versions db -> dense db -> dense db'.
Proof. intros Hv D rid. unfold rows_of. rewrite Hv. apply D. Qed.

Lemma store_version_sound (db : DB) (v : RequirementVersion) (user : Z)
  (action : str) :
  sound db -> continues db v -> sound (store_version db v user action).
Proof.
  intros S C. apply (@sound_same_rows (add_version db v)); try reflexivity.
  - auto.
  - now apply continues_sound.
Qed.

Lemma store_version_dense (db : DB) (v : RequirementVersion) (user : Z)
  (action : str) :
  sound db -> dense db -> continues db v ->
  dense (store_version db v user action).
Proof.
  intros S D C. apply (@dense_same_rows (add_version db v)); [reflexivity|].
  now apply continues_dense.
Qed.

Lemma add_requirement_sound (db : DB) (r : Requirement) :
  sound db -> sound (add_requirement db r).
Proof.
  apply sound_same_rows; [reflexivity|].
  intros id H. simpl. rewrite map_app. apply in_app_iff. now left.
Qed.

Lemma add_requirement_dense (db : DB) (r : Requirement) :
  dense db -> dense (add_requirement db r).
Proof. now apply dense_same_rows. Qed.

Lemma fresh_requirement_rows (db : DB) :
  sound db -> rows_of db (next_id r_id (requirements db)) = [].
Proof.
  intros S.
  destruct (rows_of db (next_id r_id (requirements db))) as [|v r] eqn:E;
    [reflexivity|].
  exfalso.
  assert (Hv : In v (rows_of db (next_id r_id (requirements db)))).
  { rewrite E. now left. }
  apply rows_of_in in Hv. destruct Hv as [Hv Hr].
  apply (sound_refs S) in Hv. rewrite Hr in Hv.
  exact (next_id_fresh _ _ Hv).
Qed.

Lemma extends_sound (db db' : DB) : sound db -> extends db db' -> sound db'.
Proof.
  intros S [-> | [db1 [v [user [action [H1 [C ->]]]]]]]; [exact S|].
  apply store_version_sound; [|exact C].
  destruct H1 as [-> | [pid [key ->]]]; [exact S|].
  now apply add_requirement_sound.
Qed.

Lemma extends_dense (db db' : DB) :
  sound db -> dense db -> extends db db' -> dense db'.
Proof.
  intros S D [-> | [db1 [v [user [action [H1 [C ->]]]]]]]; [exact D|].
  destruct H1 as [-> | [pid [key ->]]].
  - now apply store_version_dense.
  - apply store_version_dense; [| |exact C].
    + now apply add_requirement_sound.
    + now apply add_requirement_dense.
Qed.

(** A version written for a requirement that was just added. *)
Lemma continues_new_requirement (db : DB) (pid : Z) (key : option str)
  (v : RequirementVersion) :
  sound db ->
  let req := mkRequirement (next_id r_id (requirements db)) pid key false in
  v_requirement_id v = r_id req ->
  v_id v = next_id v_id (versions db) ->
  v_version_index v = 1 ->
  v_version_label v = version_label 1 ->
  continues (add_requirement db req) v.
Proof.
  intros S req Hr Hi Hx Hl. unfold continues.
  split; [|split; [|split]].
  - rewrite Hr. simpl. rewrite map_app. apply in_app_iff. right. now left.
  - exact Hi.
  - rewrite Hx, Hr. unfold rows_of. simpl.
    change (filter _ (versions db))
      with (rows_of db (next_id r_id (requirements db))).
    now rewrite fresh_requirement_rows.
  - now rewrite Hx.
Qed.

(** A version written for a stored requirement with the index that
    [next_version_info] gives. *)
Lemma continues_stored_requirement (db : DB) (req : Requirement)
  (v : RequirementVersion) :
  sound db -> In req (requirements db) ->
  v_requirement_id v = r_id req ->
  v_id v = next_id v_id (versions db) ->
  v_version_index v = fst (next_version_info db req) ->
  v_version_label v = version_label (v_version_index v) ->
  continues db v.
Proof.
  intros S Hin Hr Hi Hx Hl. unfold continues.
  split; [|split; [|split]]; try assumption.
  - rewrite Hr. now apply in_map.
  - rewrite Hx, Hr. now apply next_version_info_rows.
Qed.

Lemma find_by_hint_in (db : DB) (pid : Z) (item : dict) (req : Requirement) :
  find_by_hint db pid item = Some req -> In req (requirements db).
Proof.
  intros H. apply find_by_hint_spec in H.
  destruct H as [s [rid [_ [_ [H _]]]]]. now apply get_by_some in H.
Qed.

Lemma generate_item_extends (user pid : Z) (cols : list str) (db : DB)
  (item : dict) :
  sound db -> extends db (generate_item user pid cols db item).
Proof.
  intros S. unfold generate_item.
  destruct (negb (truthy (strip (dict_get_or item (lit "title") []))));
    [now left|].
  right. unfold resolve_or_create.
  destruct (find_by_hint db pid item) as [req|] eqn:Eh.
  - rewrite next_version_info_index.
    eexists db, _, user, _. split; [now left|]. split; [|reflexivity].
    apply (@continues_stored_requirement db req); try reflexivity; auto.
    now apply find_by_hint_in in Eh.
  - destruct (find_by_key db pid _) as [req|] eqn:Ek.
    + rewrite next_version_info_index.
      eexists db, _, user, _. split; [now left|]. split; [|reflexivity].
      apply (@continues_stored_requirement db req); try reflexivity; auto.
      now apply find_by_key_some in Ek.
    + eexists _, _, user, _. split; [right; eexists _, _; reflexivity|].
      split; [|reflexivity].
      now apply continues_new_requirement.
Qed.

Lemma import_row_extends (user pid : Z) (db : DB) (row : Row) :
  sound db -> extends db (import_row user pid db row).
Proof.
  intros S. unfold import_row.
  destruct (negb (truthy (cell_or (row_title row) []))); [now left|].
  destruct (negb (truthy (cell_or (row_description row) []))); [now left|].
  right.
  destruct (find_by_key db pid _) as [req|] eqn:Ek.
  - eexists db, _, user, _. split; [now left|]. split; [|reflexivity].
    apply find_by_key_some in Ek. destruct Ek as [Hin _].
    assert (Hx : match get_latest_version db (r_id req) with
                 | Some lastv => v_version_index lastv + 1
                 | None => 1
                 end = fst (next_version_info db req)).
    { unfold next_version_info.
      destruct (get_latest_version db (r_id req)); reflexivity. }
    apply (@continues_stored_requirement db req); auto; simpl.
    rewrite Hx, next_version_info_rows by assumption.
    destruct (next_index_above (r_id req) S) as [H1 _].
    unfold version_label.
    destruct (next_index (rows_of db (r_id req)) <=? 0) eqn:E;
      [apply Z.leb_le in E; lia | reflexivity].
  - eexists _, _, user, _. split; [right; eexists _, _; reflexivity|].
    split; [|reflexivity].
    now apply continues_new_requirement.
Qed.

Lemma regenerate_extends (db : DB) (user rid : Z) (result : option dict) :
  sound db ->
  extends db (committed db (regenerate_requirement db user rid result)).
Proof.
  intros S. unfold regenerate_requirement.
  destruct (get_by r_id (requirements db) rid) as [req|] eqn:Er;
    [|now left].
  destruct (check_requirement_access db user req) as [p|]; [|now left].
  destruct (get_latest_version db (r_id req)) as [latest|] eqn:El;
    [|now left].
  destruct result as [[|kv res]|]; [now left | | now left].
  right. simpl committed.
  eexists db, _, user, _. split; [now left|]. split; [|reflexivity].
  apply get_by_some in Er. destruct Er as [Hin _].
  assert (Hx : v_version_index latest + 1 = fst (next_version_info db req)).
  { unfold next_version_info. now rewrite El. }
  apply (@continues_stored_requirement db req); auto; simpl.
  rewrite Hx, next_version_info_rows by assumption.
  destruct (next_index_above (r_id req) S) as [H1 _].
  unfold version_label.
  destruct (next_index (rows_of db (r_id req)) <=? 0) eqn:E;
    [apply Z.leb_le in E; lia | reflexivity].
Qed.

Lemma mark_requirement_ids (db : DB) (rid : Z) (flag : bool) :
  map r_id (requirements (mark_requirement db rid flag))
  = map r_id (requirements db).
Proof.
  simpl. rewrite map_map. apply map_ext. intros r.
  unfold set_deleted. now destruct (r_id r =? rid).
Qed.

Lemma mark_requirement_sound (db : DB) (rid : Z) (flag : bool) :
  sound db -> sound (mark_requirement db rid flag).
Proof.
  apply sound_same_rows; [reflexivity|].
  intros id. now rewrite mark_requirement_ids.
Qed.

Lemma mark_requirement_dense (db : DB) (rid : Z) (flag : bool) :
  dense db -> dense (mark_requirement db rid flag).
Proof. now apply dense_same_rows. Qed.

Lemma filter_swap {A : Type} (f g : A -> bool) (l : list A) :
  filter f (filter g l) = filter g (filter f l).
Proof.
  induction l as [|x r IH]; [reflexivity|].
  simpl. destruct (f x) eqn:Ef, (g x) eqn:Eg; simpl;
    rewrite ?Ef, ?Eg, IH; reflexivity.
Qed.

Lemma sorted_filter (f : RequirementVersion -> bool)
  (l : list RequirementVersion) :
  StronglySorted lt_index l -> StronglySorted lt_index (filter f l).
Proof.
  induction 1 as [|a r Hr IH Ha]; simpl; [constructor|].
  destruct (f a); [|exact IH].
  constructor; [exact IH|].
  rewrite Forall_forall in *. intros x Hx. apply Ha.
  now apply filter_In in Hx.
Qed.

Lemma nodup_map_filter {A : Type} (id_of : A -> Z) (f : A -> bool)
  (l : list A) :
  NoDup (map id_of l) -> NoDup (map id_of (filter f l)).
Proof.
  induction l as [|a r IH]; simpl; [auto|].
  intros H. inversion H as [|? ? Ha Hr]; subst.
  destruct (f a); [|auto]. simpl. constructor; [|auto].
  intros Hin. apply Ha. apply in_map_iff in Hin.
  destruct Hin as [x [Hx Hin]]. apply filter_In in Hin.
  rewrite <- Hx. apply in_map. tauto.
Qed.

Lemma filtered_versions_sound (db db' : DB) (f : RequirementVersion -> bool) :
  versions db' = filter f (versions db) ->
  (forall v, In v (versions db') ->
     In (v_requirement_id v) (map r_id (requirements db'))) ->
  sound db -> sound db'.
Proof.
  intros Hv Hr S. constructor.
  - intros rid. unfold rows_of. rewrite Hv, filter_swap.
    apply sorted_filter, (sound_order S).
  - intros v Hin. rewrite Hv in Hin. apply filter_In in Hin.
    now apply (sound_labels S).
  - exact Hr.
  - rewrite Hv. apply nodup_map_filter, (sound_ids S).
Qed.

Lemma remove_version_sound (db : DB) (vid : Z) :
  sound db -> sound (remove_version db vid).
Proof.
  intros S.
  apply (@filtered_versions_sound db _
           (fun v => negb (v_id v =? vid))); [reflexivity | | exact S].
  intros v Hin. simpl in *. apply filter_In in Hin.
  now apply (sound_refs S).
Qed.

Lemma remove_requirement_sound (db : DB) (rid : Z) :
  sound db -> sound (remove_requirement db rid).
Proof.
  intros S.
  apply (@filtered_versions_sound db _
           (fun v => negb (v_requirement_id v =? rid)));
    [reflexivity | | exact S].
  intros v Hin. simpl in *. apply filter_In in Hin.
  destruct Hin as [Hin Hne].
  apply (sound_refs S) in Hin. apply in_map_iff in Hin.
  destruct Hin as [r [Hr Hin]]. apply in_map_iff. exists r.
  split; [exact Hr|]. apply filter_In. split; [exact Hin|].
  now rewrite Hr.
Qed.

Lemma remove_requirement_dense (db : DB) (rid : Z) :
  dense db -> dense (remove_requirement db rid).
Proof.
  intros D rid'. unfold rows_of. simpl. rewrite filter_swap.
  fold (rows_of db rid').
  destruct (rid' =? rid) eqn:E.
  - apply Z.eqb_eq in E. subst rid'.
    replace (filter _ (rows_of db rid)) with (@nil RequirementVersion);
      [reflexivity|].
    symmetry.
    destruct (filter _ (rows_of db rid)) as [|v r] eqn:Ef; [reflexivity|].
    assert (Hv : In v (v :: r)) by now left.
    rewrite <- Ef in Hv. apply filter_In in Hv. destruct Hv as [Hv Hn].
    apply rows_of_in in Hv. destruct Hv as [_ Hv].
    apply negb_true_iff, Z.eqb_neq in Hn. contradiction.
  - rewrite filter_keeps_all; [apply D|].
    intros v Hv. apply rows_of_in in Hv. destruct Hv as [_ Hv].
    apply negb_true_iff, Z.eqb_neq. apply Z.eqb_neq in E. congruence.
Qed.

Lemma filter_map_swap {A : Type} (p : A -> bool) (g : A -> A) (l : list A) :
  (forall x, p (g x) = p x) -> filter p (map g l) = map g (filter p l).
Proof.
  intros H. induction l as [|x r IH]; [reflexivity|].
  simpl. rewrite H. destruct (p x); simpl; now rewrite IH.
Qed.

Lemma sorted_map (g : RequirementVersion -> RequirementVersion)
  (l : list RequirementVersion) :
  keeps_row g -> StronglySorted lt_index l ->
  StronglySorted lt_index (map g l).
Proof.
  intros K. induction 1 as [|a r Hr IH Ha]; simpl; constructor; [exact IH|].
  rewrite Forall_forall in *. intros x Hx. apply in_map_iff in Hx.
  destruct Hx as [y [<- Hy]]. specialize (Ha y Hy). unfold lt_index in *.
  destruct (K a) as [_ [_ [-> _]]]. destruct (K y) as [_ [_ [-> _]]].
  exact Ha.
Qed.

Lemma keeps_row_at (vid : Z) (f : RequirementVersion -> RequirementVersion) :
  keeps_row f -> keeps_row (fun v => if v_id v =? vid then f v else v).
Proof.
  intros K v. destruct (v_id v =? vid); [apply K | auto].
Qed.

Lemma update_version_rows (db : DB) (vid rid : Z)
  (f : RequirementVersion -> RequirementVersion) :
  keeps_row f ->
  rows_of (update_version db vid f) rid
  = map (fun v => if v_id v =? vid then f v else v) (rows_of db rid).
Proof.
  intros K. unfold rows_of. simpl. apply filter_map_swap.
  intros v. now destruct (keeps_row_at vid K v) as [_ [-> _]].
Qed.

Lemma update_version_sound (db : DB) (vid : Z)
  (f : RequirementVersion -> RequirementVersion) :
  keeps_row f -> sound db -> sound (update_version db vid f).
Proof.
  intros K S. pose proof (keeps_row_at vid K) as K'. constructor.
  - intros rid. rewrite update_version_rows by exact K.
    apply sorted_map; [exact K' | apply (sound_order S)].
  - intros v Hv. simpl in Hv. apply in_map_iff in Hv.
    destruct Hv as [w [<- Hw]]. destruct (sound_labels S _ Hw) as [H1 H2].
    destruct (K' w) as [_ [_ [Hx Hl]]]. unfold label_matches.
    rewrite Hx, Hl. auto.
  - intros v Hv. simpl in *. apply in_map_iff in Hv.
    destruct Hv as [w [<- Hw]]. destruct (K' w) as [_ [-> _]].
    now apply (sound_refs S).
  - simpl. rewrite map_map.
    rewrite (map_ext _ v_id); [apply (sound_ids S)|].
    intros w. now destruct (K' w) as [-> _].
Qed.

Lemma update_version_dense (db : DB) (vid : Z)
  (f : RequirementVersion -> RequirementVersion) :
  keeps_row f -> dense db -> dense (update_version db vid f).
Proof.
  intros K D rid. rewrite update_version_rows by exact K.
  rewrite map_map. rewrite (map_ext _ v_version_index); [apply D|].
  intros w. now destruct (keeps_row_at vid K w) as [_ [_ [-> _]]].
Qed.

Lemma set_block_keeps_row (b : bool) (u t : option Z) :
  keeps_row (set_block b u t).
Proof. intros v. simpl. auto. Qed.

Lemma set_fields_keeps_row (t d c s : str) (cu : dict) (u : Z) :
  keeps_row (set_fields t d c s cu u).
Proof. intros v. simpl. auto. Qed.

Lemma sorted_app_last (init : list RequirementVersion)
  (x : RequirementVersion) :
  StronglySorted lt_index (init ++ [x]) ->
  forall y, In y init -> lt_index y x.
Proof.
  induction init as [|a r IH]; intros Hs y Hy; [contradiction|].
  simpl in Hs. inversion Hs as [|? ? Hr Ha]; subst.
  destruct Hy as [<- | Hy]; [|now apply IH].
  rewrite Forall_forall in Ha. apply Ha. apply in_app_iff. right. now left.
Qed.

Lemma counts_from_app_l (l l' : list Z) (k : Z) :
  counts_from k (l ++ l') = true -> counts_from k l = true.
Proof.
  revert k. induction l as [|a r IH]; intros k H; [reflexivity|].
  simpl in *. apply andb_true_iff in H. destruct H as [Ha Hr].
  rewrite Ha. simpl. now apply IH in Hr.
Qed.

Lemma rows_of_remove_version (db : DB) (vid rid : Z) :
  rows_of (remove_version db vid) rid
  = filter (fun v => negb (v_id v =? vid)) (rows_of db rid).
Proof. unfold rows_of. simpl. apply filter_swap. Qed.

(** Deleting the latest version of a requirement leaves no gap. *)
Lemma remove_latest_dense (db : DB) (vid : Z) (v latest : RequirementVersion) :
  sound db -> dense db ->
  get_by v_id (versions db) vid = Some v ->
  get_latest_version db (v_requirement_id v) = Some latest ->
  v_id latest = vid ->
  dense (remove_version db vid).
Proof.
  intros S D Hv Hl Hid rid.
  apply get_by_some in Hv. destruct Hv as [Hv Hvid].
  rewrite get_latest_version_rows in Hl by exact S.
  rewrite rows_of_remove_version.
  assert (Huniq : forall y, In y (versions db) -> v_id y = vid -> y = v).
  { intros y Hy He. eapply unique_by_id; [apply (sound_ids S) | | |]; eauto.
    congruence. }
  destruct (rid =? v_requirement_id v) eqn:E.
  - apply Z.eqb_eq in E. subst rid.
    destruct (rows_of db (v_requirement_id v)) as [|a r] eqn:Er;
      [discriminate|].
    injection Hl as Hl.
    assert (Hsplit : a :: r = removelast (a :: r) ++ [latest]).
    { rewrite <- Hl, <- (last_cons r a a).
      apply app_removelast_last. discriminate. }
    pose proof (sound_order S (v_requirement_id v)) as Hs.
    pose proof (D (v_requirement_id v)) as Hd.
    rewrite Er in Hs, Hd. rewrite Hsplit in Hs, Hd |- *.
    rewrite filter_app. cbn [filter]. rewrite Hid, Z.eqb_refl. cbn [negb].
    rewrite app_nil_r.
    rewrite filter_keeps_all.
    + unfold gapless in *. rewrite map_app in Hd.
      now apply counts_from_app_l in Hd.
    + intros y Hy. apply negb_true_iff, Z.eqb_neq. intros He.
      pose proof (@sorted_app_last _ _ Hs y Hy) as Hlt.
      assert (Hy' : In y (versions db)).
      { apply (rows_of_in db (v_requirement_id v)). rewrite Er, Hsplit.
        apply in_app_iff. now left. }
      assert (Hl' : In latest (versions db)).
      { apply (rows_of_in db (v_requirement_id v)). rewrite Er, Hsplit.
        apply in_app_iff. right. now left. }
      rewrite (Huniq y Hy' He), (Huniq latest Hl' Hid) in Hlt.
      unfold lt_index in Hlt. lia.
  - rewrite filter_keeps_all; [apply D|].
    intros y Hy. apply rows_of_in in Hy. destruct Hy as [Hy Hr].
    apply negb_true_iff, Z.eqb_neq. intros He.
    apply Huniq in He; [|exact Hy]. subst y.
    apply Z.eqb_neq in E. congruence.
Qed.

Lemma fold_extends_sound {A : Type} (step : DB -> A -> DB) (l : list A) :
  (forall db x, sound db -> extends db (step db x)) ->
  forall db, sound db -> sound (fold_left step l db).
Proof.
  intros H. induction l as [|x r IH]; intros db S; [exact S|].
  simpl. apply IH. eapply extends_sound; eauto.
Qed.

Lemma fold_extends_dense {A : Type} (step : DB -> A -> DB) (l : list A) :
  (forall db x, sound db -> extends db (step db x)) ->
  forall db, sound db -> dense db -> dense (fold_left step l db).
Proof.
  intros H. induction l as [|x r IH]; intros db S D; [exact D|].
  simpl. apply IH.
  - eapply extends_sound; eauto.
  - eapply extends_dense; eauto.
Qed.

(** Every request keeps the store sound. *)
Lemma serve_sound (db : DB) (rq : request) : sound db -> sound (serve db rq).
Proof.
  intros S. destruct rq as [user pid data | user pid rows | user rid result
                           | user vid | user rid | user rid | user rid
                           | user vid now | user vid form]; unfold serve.
  - unfold generate. destruct (get_project db pid) as [p|]; [|exact S].
    destruct (is_accessible_by p user); [|exact S]. simpl.
    apply fold_extends_sound; [|exact S].
    intros. now apply generate_item_extends.
  - unfold import_excel. destruct (get_project db pid) as [p|]; [|exact S].
    destruct (is_accessible_by p user); [|exact S]. simpl.
    apply fold_extends_sound; [|exact S].
    intros. now apply import_row_extends.
  - eapply extends_sound; [exact S|]. now apply regenerate_extends.
  - unfold delete_requirement_version.
    destruct (get_by v_id (versions db) vid) as [v|]; [|exact S].
    destruct (get_by r_id (requirements db) _) as [req|]; [|exact S].
    destruct (check_requirement_access db user req); [|exact S].
    destruct (Nat.eqb _ 1); simpl.
    + now apply mark_requirement_sound.
    + now apply remove_version_sound.
  - unfold delete_requirement, flag_requirement.
    destruct (get_by r_id (requirements db) rid) as [req|]; [|exact S].
    destruct (check_requirement_access db user req); [|exact S].
    simpl. now apply mark_requirement_sound.
  - unfold restore_requirement, flag_requirement.
    destruct (get_by r_id (requirements db) rid) as [req|]; [|exact S].
    destruct (check_requirement_access db user req); [|exact S].
    simpl. now apply mark_requirement_sound.
  - unfold delete_requirement_permanently.
    destruct (get_by r_id (requirements db) rid) as [req|]; [|exact S].
    destruct (check_requirement_access db user req); [|exact S].
    simpl. now apply remove_requirement_sound.
  - unfold toggle_block_requirement.
    destruct (get_by v_id (versions db) vid) as [v|]; [|exact S].
    destruct (version_project db v) as [p|]; [|exact S].
    destruct (negb (p_user_id p =? user)); [exact S|].
    destruct (v_is_blocked v); simpl;
      (apply update_version_sound; [apply set_block_keeps_row | exact S]).
  - unfold update_requirement_version.
    destruct (get_by v_id (versions db) vid) as [v|]; [|exact S].
    destruct (version_project db v) as [p|]; [|exact S].
    destruct (negb (is_accessible_by p user)); [exact S|].
    destruct (_ || _); [exact S|].
    destruct (track_changes v (p_custom_columns p) form)
      as [[changes custom] new_status].
    assert (S' : sound (update_version db vid
                  (set_fields (strip (dict_get_or form (lit "title") []))
                     (strip (dict_get_or form (lit "description") []))
                     (strip (dict_get_or form (lit "category") []))
                     new_status custom user))).
    { apply update_version_sound; [apply set_fields_keeps_row | exact S]. }
    destruct changes; simpl; [exact S'|].
    revert S'. apply sound_same_rows; [reflexivity | auto].
Qed.

(** A request that deletes no earlier version keeps the store dense. *)
Lemma serve_dense (db : DB) (rq : request) :
  sound db -> dense db -> deletes_earlier_version db rq = false ->
  dense (serve db rq).
Proof.
  intros S D T.
  destruct rq as [user pid data | user pid rows | user rid result
                 | user vid | user rid | user rid | user rid
                 | user vid now | user vid form]; unfold serve.
  - unfold generate. destruct (get_project db pid) as [p|]; [|exact D].
    destruct (is_accessible_by p user); [|exact D]. simpl.
    apply fold_extends_dense; [|exact S|exact D].
    intros. now apply generate_item_extends.
  - unfold import_excel. destruct (get_project db pid) as [p|]; [|exact D].
    destruct (is_accessible_by p user); [|exact D]. simpl.
    apply fold_extends_dense; [|exact S|exact D].
    intros. now apply import_row_extends.
  - eapply extends_dense; [exact S|exact D|]. now apply regenerate_extends.
  - unfold delete_requirement_version. simpl in T.
    destruct (get_by v_id (versions db) vid) as [v|] eqn:Ev; [|exact D].
    destruct (get_by r_id (requirements db) _) as [req|]; [|exact D].
    destruct (check_requirement_access db user req); [|exact D].
    destruct (Nat.eqb _ 1); simpl.
    + now apply mark_requirement_dense.
    + destruct (get_latest_version db (v_requirement_id v)) as [latest|]
        eqn:El.
      * apply negb_false_iff, Z.eqb_eq in T.
        exact (remove_latest_dense S D Ev El T).
      * exfalso. rewrite get_latest_version_rows in El by exact S.
        apply get_by_some in Ev. destruct Ev as [Hv _].
        assert (Hin : In v (rows_of db (v_requirement_id v))).
        { apply rows_of_in. auto. }
        destruct (rows_of db (v_requirement_id v));
          [contradiction | discriminate].
  - unfold delete_requirement, flag_requirement.
    destruct (get_by r_id (requirements db) rid) as [req|]; [|exact D].
    destruct (check_requirement_access db user req); [|exact D].
    simpl. now apply mark_requirement_dense.
  - unfold restore_requirement, flag_requirement.
    destruct (get_by r_id (requirements db) rid) as [req|]; [|exact D].
    destruct (check_requirement_access db user req); [|exact D].
    simpl. now apply mark_requirement_dense.
  - unfold delete_requirement_permanently.
    destruct (get_by r_id (requirements db) rid) as [req|]; [|exact D].
    destruct (check_requirement_access db user req); [|exact D].
    simpl. now apply remove_requirement_dense.
  - unfold toggle_block_requirement.
    destruct (get_by v_id (versions db) vid) as [v|]; [|exact D].
    destruct (version_project db v) as [p|]; [|exact D].
    destruct (negb (p_user_id p =? user)); [exact D|].
    destruct (v_is_blocked v); simpl;
      (apply update_version_dense; [apply set_block_keeps_row | exact D]).
  - unfold update_requirement_version.
    destruct (get_by v_id (versions db) vid) as [v|]; [|exact D].
    destruct (version_project db v) as [p|]; [|exact D].
    destruct (negb (is_accessible_by p user)); [exact D|].
    destruct (_ || _); [exact D|].
    destruct (track_changes v (p_custom_columns p) form)
      as [[changes custom] new_status].
    assert (D' : dense (update_version db vid
                  (set_fields (strip (dict_get_or form (lit "title") []))
                     (strip (dict_get_or form (lit "description") []))
                     (strip (dict_get_or form (lit "category") []))
                     new_status custom user))).
    { apply update_version_dense; [apply set_fields_keeps_row | exact D]. }
    destruct changes; simpl; [exact D'|].
    revert D'. now apply dense_same_rows.
Qed.

Lemma run_sound (rqs : list request) :
  forall db, sound db -> sound (run db rqs).
Proof.
  induction rqs as [|rq rest IH]; intros db S; [exact S|].
  simpl. apply IH. now apply serve_sound.
Qed.

Lemma run_dense (rqs : list request) :
  forall db, sound db -> dense db -> only_latest_deleted db rqs = true ->
  dense (run db rqs).
Proof.
  induction rqs as [|rq rest IH]; intros db S D T; [exact D|].
  simpl in *. apply andb_true_iff in T. destruct T as [T1 T2].
  apply negb_true_iff in T1.
  apply IH; [now apply serve_sound | now apply serve_dense | exact T2].
Qed.

Lemma no_requirements_sound (db : DB) :
  no_requirements db -> sound db /\ dense db.
Proof.
  intros [Hr Hv]. split.
  - constructor.
    + intros rid. unfold rows_of. rewrite Hv. constructor.
    + rewrite Hv. intros v [].
    + rewrite Hv. intros v [].
    + rewrite Hv. constructor.
  - intros rid. unfold rows_of. now rewrite Hv.
Qed.





(* ===================================================================== *)
(** * Further properties of the code *)
(* ===================================================================== *)

(** ** Labels *)



(** ** Keys *)




Lemma join_sp_nonempty (ws : list str) :
  Forall is_word ws -> ws <> [] -> join_sp ws <> [].
Proof.
  intros H Hne. destruct H as [|w ws [Hw _] _]; [congruence|].
  destruct ws; simpl; [exact Hw|].
  destruct w; [congruence | discriminate].
Qed.



Lemma key_words (t : str) :
  normalize_key t = join_sp (map (lower lower_cp) (words t))
  /\ Forall is_word (map (lower lower_cp) (words t)).
Proof.
  split.
  - apply normalize_key_with_spec. exact lower_cp_space.
  - apply Forall_map. eapply Forall_impl; [|apply words_are_words].
    intros w. apply lower_is_word. exact lower_cp_space.
Qed.


Lemma words_from_nil_iff (s cur : str) :
  words_from cur s = [] <-> cur = [] /\ all_space s.
Proof.
  revert cur. induction s as [|c r IH]; intros cur; simpl.
  - destruct cur as [|d cur'].
    + split; [intros _; split; [reflexivity | constructor] | reflexivity].
    + split; [discriminate | intros [E _]; discriminate E].
  - destruct (isspace c) eqn:Hc.
    + destruct cur as [|d cur'].
      * rewrite IH. split; intros [H1 H2]; split; auto.
        -- now constructor.
        -- now inversion H2.
      * split; [discriminate | intros [E _]; discriminate E].
    + rewrite IH. split; [intros [E _]; discriminate E|].
      intros [_ H]. inversion H. congruence.
Qed.

(** X3.  The key is empty exactly for a title that consists of whitespace
    only (the empty title included). *)
Theorem normalize_key_empty (t : str) :
  normalize_key t = [] <-> all_space t.
Proof.
  destruct (key_words t) as [E W]. rewrite E. unfold words in *. split.
  - intros H. apply (words_from_nil_iff t []).
    destruct (words_from [] t) as [|w ws]; [reflexivity|].
    exfalso. revert H. apply join_sp_nonempty; [exact W | discriminate].
  - intros H.
    rewrite (proj2 (words_from_nil_iff t []) (conj eq_refl H)).
    reflexivity.
Qed.


(** ** The next index *)






(** ** Bulk requests *)

Lemma generate_item_turn (user pid : Z) (cols : list str) (db : DB)
  (item : dict) :
  turn pid db (generate_item user pid cols db item).
Proof.
  unfold generate_item.
  destruct (negb (truthy (strip (dict_get_or item (lit "title") []))));
    [constructor|].
  unfold resolve_or_create.
  destruct (find_by_hint db pid item) as [req|] eqn:Eh.
  - rewrite next_version_info_index.
    apply find_by_hint_spec in Eh.
    destruct Eh as [s [rid [_ [_ [Hg Hp]]]]]. apply get_by_some in Hg.
    apply (@turn_version pid db req); [tauto | exact Hp | reflexivity].
  - destruct (find_by_key db pid _) as [req|] eqn:Ek.
    + rewrite next_version_info_index.
      apply find_by_key_some in Ek. destruct Ek as [Hin [Hp _]].
      apply (@turn_version pid db req); [exact Hin | exact Hp | reflexivity].
    + apply turn_requirement; [exact Ek | reflexivity].
Qed.

Lemma import_row_turn (user pid : Z) (db : DB) (row : Row) :
  turn pid db (import_row user pid db row).
Proof.
  unfold import_row.
  destruct (negb (truthy (cell_or (row_title row) []))); [constructor|].
  destruct (negb (truthy (cell_or (row_description row) [])));
    [constructor|].
  destruct (find_by_key db pid _) as [req|] eqn:Ek.
  - apply find_by_key_some in Ek. destruct Ek as [Hin [Hp _]].
    apply (@turn_version pid db req); [exact Hin | exact Hp | reflexivity].
  - apply turn_requirement; [exact Ek | reflexivity].
Qed.

Lemma grows_refl (pid : Z) (db : DB) : grows pid db db.
Proof.
  repeat split. exists [], [], []. rewrite !app_nil_r.
  repeat split; intros ? [].
Qed.

Lemma grows_trans (pid : Z) (db1 db2 db3 : DB) :
  grows pid db1 db2 -> grows pid db2 db3 -> grows pid db1 db3.
Proof.
  intros [Hu1 [Hp1 [Hc1 [rs1 [vs1 [hs1 [Hr1 [Hv1 [Hh1 [Hrp1 Hvp1]]]]]]]]]]
         [Hu2 [Hp2 [Hc2 [rs2 [vs2 [hs2 [Hr2 [Hv2 [Hh2 [Hrp2 Hvp2]]]]]]]]]].
  split; [congruence|]. split; [congruence|]. split; [congruence|].
  exists (rs1 ++ rs2), (vs1 ++ vs2), (hs1 ++ hs2).
  rewrite !app_assoc, <- Hr1, <- Hv1, <- Hh1.
  repeat split; try assumption.
  - intros r Hr. apply in_app_iff in Hr. destruct Hr; auto.
  - intros v Hv. apply in_app_iff in Hv. destruct Hv as [Hv | Hv]; [|auto].
    destruct (Hvp1 v Hv) as [r [Hin Hr]]. exists r. split; [|exact Hr].
    rewrite Hr2. apply in_app_iff. now left.
Qed.

Lemma turn_grows (pid : Z) (db db' : DB) : turn pid db db' -> grows pid db db'.
Proof.
  intros [|req v user action Hin Hp Hv|key v user action Hk Hv].
  - apply grows_refl.
  - split; [reflexivity|]. split; [reflexivity|]. split; [reflexivity|].
    exists [], [v], [created_entry (add_version db v) (v_id v)
                       user action (v_version_label v)].
    rewrite app_nil_r.
    split; [reflexivity|]. split; [reflexivity|]. split; [reflexivity|].
    split; [intros r []|].
    intros w [<- | []]. exists req. auto.
  - split; [reflexivity|]. split; [reflexivity|]. split; [reflexivity|].
    eexists [_], [v], [_].
    split; [reflexivity|]. split; [reflexivity|]. split; [reflexivity|].
    split.
    + intros r [<- | []]. reflexivity.
    + intros w [<- | []]. eexists. split; [|split].
      * simpl. apply in_app_iff. right. now left.
      * simpl. now rewrite Hv.
      * reflexivity.
Qed.

Lemma fold_turn_grows {A : Type} (pid : Z) (step : DB -> A -> DB)
  (l : list A) :
  (forall db x, turn pid db (step db x)) ->
  forall db, grows pid db (fold_left step l db).
Proof.
  intros H. induction l as [|x r IH]; intros db; [apply grows_refl|].
  simpl. eapply grows_trans; [apply turn_grows, H | apply IH].
Qed.

(** X6.  A generation or import request that goes through only adds rows:
    the requirements, versions and history entries that were stored are
    all still there, unchanged and in place, every new requirement belongs
    to the target project, and every new version belongs to a requirement
    of the target project, also when an item names a requirement of
    another project by its id. *)
Theorem bulk_requests_only_append (db db' : DB) (user pid : Z)
  (data : list dict) (rows : list Row) :
  generate db user pid data = Done db' \/ import_excel db user pid rows = Done db' ->
  grows pid db db'.
Proof.
  intros [H | H].
  - unfold generate in H. destruct (get_project db pid); [|discriminate].
    destruct (is_accessible_by _ user); [|discriminate].
    injection H as <-. apply fold_turn_grows.
    intros. apply generate_item_turn.
  - unfold import_excel in H. destruct (get_project db pid); [|discriminate].
    destruct (is_accessible_by _ user); [|discriminate].
    injection H as <-. apply fold_turn_grows.
    intros. apply import_row_turn.
Qed.

(** Generating "Login" a second time only adds rows. *)
Lemma bulk_requests_only_append_witness : grows 1 db_one db_two.
Proof.
  apply (@bulk_requests_only_append db_one db_two 1 1 [item_login] []).
  left. reflexivity.
Defined.

(** ** Invariants of the requirement table *)

(** A column whose values are distinct over the rows of a table is still
    so over the rows a query keeps. *)
Lemma distinct_column_filter {Entry Value : Type} (column : Entry -> Value)
  (keep : Entry -> bool) (rows : list Entry)
  (Hdistinct : NoDup (map column rows)) :
  NoDup (map column (filter keep rows)).
Proof.
  induction rows as [|row rest IH]; [exact Hdistinct|].
  cbn [map] in Hdistinct. apply NoDup_cons_iff in Hdistinct.
  destruct Hdistinct as [Hrow Hrest]. cbn [filter].
  destruct (keep row); [|now apply IH].
  cbn [map]. apply NoDup_cons; [|now apply IH].
  rewrite in_map_iff. intros [other [Hsame Hother]].
  apply Hrow. rewrite <- Hsame. apply in_map.
  apply filter_In in Hother. tauto.
Qed.


Lemma rows_of_store_version (db : DB) (v : RequirementVersion) (user : Z)
  (action : str) (rid : Z) :
  rows_of (store_version db v user action) rid
  = rows_of db rid ++ (if v_requirement_id v =? rid then [v] else []).
Proof. unfold rows_of. simpl. now rewrite filter_app. Qed.

Lemma app_not_nil {A : Type} (l l' : list A) : l <> [] -> l ++ l' <> [].
Proof. destruct l; [congruence | discriminate]. Qed.

Lemma turn_tidy (pid : Z) (db db' : DB) : tidy db -> turn pid db db' -> tidy db'.
Proof.
  intros T [|req v user action Hin Hp Hv|key v user action Hk Hv].
  - exact T.
  - constructor.
    + intros r Hr. rewrite rows_of_store_version.
      apply app_not_nil. now apply (tidy_chains T).
    + apply (tidy_ids T).
    + apply (tidy_keys T).
  - constructor.
    + intros r Hr. rewrite rows_of_store_version.
      simpl in Hr. apply in_app_iff in Hr. destruct Hr as [Hr | [<- | []]].
      * apply app_not_nil. now apply (tidy_chains T).
      * simpl. rewrite Hv, Z.eqb_refl.
        intros E. apply app_eq_nil in E. destruct E. discriminate.
    + simpl. rewrite map_app. apply nodup_snoc; [apply (tidy_ids T)|].
      apply next_id_fresh.
    + simpl. rewrite map_app. apply nodup_snoc; [apply (tidy_keys T)|].
      intros Hc. apply in_map_iff in Hc. destruct Hc as [r [Hr Hc]].
      apply (proj1 (find_by_key_none db pid key) Hk r Hc).
      unfold project_key in Hr. injection Hr as H1 H2. now split.
Qed.

Lemma fold_turn_tidy {A : Type} (pid : Z) (step : DB -> A -> DB)
  (l : list A) :
  (forall db x, turn pid db (step db x)) ->
  forall db, tidy db -> tidy (fold_left step l db).
Proof.
  intros H. induction l as [|x r IH]; intros db T; [exact T|].
  simpl. apply IH. eapply turn_tidy; eauto.
Qed.

Lemma mark_requirement_tidy (db : DB) (rid : Z) (flag : bool) :
  tidy db -> tidy (mark_requirement db rid flag).
Proof.
  intros T. constructor.
  - intros r Hr. simpl in Hr. apply in_map_iff in Hr.
    destruct Hr as [r0 [<- Hr0]].
    replace (r_id (set_deleted flag rid r0)) with (r_id r0)
      by (unfold set_deleted; now destruct (r_id r0 =? rid)).
    now apply (tidy_chains T).
  - rewrite mark_requirement_ids. apply (tidy_ids T).
  - simpl. rewrite map_map.
    rewrite (map_ext _ project_key); [apply (tidy_keys T)|].
    intros r. unfold set_deleted. now destruct (r_id r =? rid).
Qed.

Lemma remove_requirement_tidy (db : DB) (rid : Z) :
  tidy db -> tidy (remove_requirement db rid).
Proof.
  intros T. constructor.
  - intros r Hr. simpl in Hr. apply filter_In in Hr.
    destruct Hr as [Hr Hne]. apply negb_true_iff, Z.eqb_neq in Hne.
    unfold rows_of. simpl. rewrite filter_swap.
    fold (rows_of db (r_id r)).
    rewrite filter_keeps_all; [now apply (tidy_chains T)|].
    intros v Hv. apply rows_of_in in Hv. destruct Hv as [_ Hv].
    apply negb_true_iff, Z.eqb_neq. congruence.
  - simpl. apply distinct_column_filter, (tidy_ids T).
  - simpl. apply distinct_column_filter, (tidy_keys T).
Qed.

Lemma update_version_tidy (db : DB) (vid : Z)
  (f : RequirementVersion -> RequirementVersion) :
  keeps_row f -> tidy db -> tidy (update_version db vid f).
Proof.
  intros K T. constructor.
  - intros r Hr. rewrite update_version_rows by exact K.
    pose proof (tidy_chains T r Hr) as Hne.
    destruct (rows_of db (r_id r)); [congruence | discriminate].
  - apply (tidy_ids T).
  - apply (tidy_keys T).
Qed.

Lemma tidy_same_rows (db db' : DB) :
  versions db' = versions db -> requirements db' = requirements db ->
  tidy db -> tidy db'.
Proof.
  intros Hv Hr T. constructor.
  - intros r. unfold rows_of. rewrite Hv, Hr. apply (tidy_chains T).
  - rewrite Hr. apply (tidy_ids T).
  - rewrite Hr. apply (tidy_keys T).
Qed.

(** Deleting one of several versions leaves a version. *)
Lemma remove_version_tidy (db : DB) (vid : Z) (v : RequirementVersion) :
  sound db -> tidy db ->
  get_by v_id (versions db) vid = Some v ->
  count_versions db (v_requirement_id v) <> 1%nat ->
  tidy (remove_version db vid).
Proof.
  intros S T Hv Hc. apply get_by_some in Hv. destruct Hv as [Hv Hid].
  constructor; [|apply (tidy_ids T)|apply (tidy_keys T)].
  intros r Hr. simpl in Hr. rewrite rows_of_remove_version.
  pose proof (tidy_chains T r Hr) as Hne.
  destruct (r_id r =? v_requirement_id v) eqn:E.
  - apply Z.eqb_eq in E. rewrite E in *.
    assert (Hin : In v (rows_of db (v_requirement_id v))).
    { apply rows_of_in. auto. }
    assert (Hnd : NoDup (map v_id (rows_of db (v_requirement_id v)))).
    { apply nodup_map_filter, (sound_ids S). }
    destruct (filter_drops_one v_id _ v Hnd Hin) as [_ Hlen].
    rewrite Hid in Hlen.
    unfold count_versions in Hc. fold (rows_of db (v_requirement_id v)) in Hc.
    intros Hnil. rewrite Hnil in Hlen. simpl in Hlen. congruence.
  - rewrite filter_keeps_all; [exact Hne|].
    intros y Hy. apply rows_of_in in Hy. destruct Hy as [Hy Hyr].
    apply negb_true_iff, Z.eqb_neq. intros He.
    assert (y = v).
    { eapply unique_by_id; [apply (sound_ids S) | | |]; eauto. congruence. }
    subst y. apply Z.eqb_neq in E. congruence.
Qed.

Lemma regenerate_turn (db : DB) (user rid : Z) (result : option dict) :
  exists pid,
    turn pid db (committed db (regenerate_requirement db user rid result)).
Proof.
  unfold regenerate_requirement.
  destruct (get_by r_id (requirements db) rid) as [req|] eqn:Er;
    [|exists 0; constructor].
  destruct (check_requirement_access db user req) as [p|];
    [|exists 0; constructor].
  destruct (get_latest_version db (r_id req)) as [latest|];
    [|exists 0; constructor].
  destruct result as [[|kv res]|];
    [exists 0; constructor | | exists 0; constructor].
  exists (r_project_id req). simpl committed.
  apply get_by_some in Er. destruct Er as [Hin _].
  apply (@turn_version _ db req); [exact Hin | reflexivity | reflexivity].
Qed.

(** Every request keeps the requirement table tidy. *)
Lemma serve_tidy (db : DB) (rq : request) :
  sound db -> tidy db -> tidy (serve db rq).
Proof.
  intros S T.
  destruct rq as [user pid data | user pid rows | user rid result
                 | user vid | user rid | user rid | user rid
                 | user vid now | user vid form]; unfold serve.
  - unfold generate. destruct (get_project db pid) as [p|]; [|exact T].
    destruct (is_accessible_by p user); [|exact T]. simpl.
    apply (fold_turn_tidy (pid := pid)); [|exact T].
    intros. apply generate_item_turn.
  - unfold import_excel. destruct (get_project db pid) as [p|]; [|exact T].
    destruct (is_accessible_by p user); [|exact T]. simpl.
    apply (fold_turn_tidy (pid := pid)); [|exact T].
    intros. apply import_row_turn.
  - destruct (regenerate_turn db user rid result) as [pid H].
    eapply turn_tidy; eauto.
  - unfold delete_requirement_version.
    destruct (get_by v_id (versions db) vid) as [v|] eqn:Ev; [|exact T].
    destruct (get_by r_id (requirements db) _) as [req|] eqn:Er; [|exact T].
    destruct (check_requirement_access db user req); [|exact T].
    destruct (Nat.eqb _ 1) eqn:E; simpl.
    + now apply mark_requirement_tidy.
    + apply Nat.eqb_neq in E. apply get_by_some in Er.
      destruct Er as [_ Er]. rewrite Er in E.
      exact (@remove_version_tidy db vid v S T Ev E).
  - unfold delete_requirement, flag_requirement.
    destruct (get_by r_id (requirements db) rid) as [req|]; [|exact T].
    destruct (check_requirement_access db user req); [|exact T].
    simpl. now apply mark_requirement_tidy.
  - unfold restore_requirement, flag_requirement.
    destruct (get_by r_id (requirements db) rid) as [req|]; [|exact T].
    destruct (check_requirement_access db user req); [|exact T].
    simpl. now apply mark_requirement_tidy.
  - unfold delete_requirement_permanently.
    destruct (get_by r_id (requirements db) rid) as [req|]; [|exact T].
    destruct (check_requirement_access db user req); [|exact T].
    simpl. now apply remove_requirement_tidy.
  - unfold toggle_block_requirement.
    destruct (get_by v_id (versions db) vid) as [v|]; [|exact T].
    destruct (version_project db v) as [p|]; [|exact T].
    destruct (negb (p_user_id p =? user)); [exact T|].
    destruct (v_is_blocked v); simpl;
      (apply update_version_tidy; [apply set_block_keeps_row | exact T]).
  - unfold update_requirement_version.
    destruct (get_by v_id (versions db) vid) as [v|]; [|exact T].
    destruct (version_project db v) as [p|]; [|exact T].
    destruct (negb (is_accessible_by p user)); [exact T|].
    destruct (_ || _); [exact T|].
    destruct (track_changes v (p_custom_columns p) form)
      as [[changes custom] new_status].
    assert (T' : tidy (update_version db vid
                  (set_fields (strip (dict_get_or form (lit "title") []))
                     (strip (dict_get_or form (lit "description") []))
                     (strip (dict_get_or form (lit "category") []))
                     new_status custom user))).
    { apply update_version_tidy; [apply set_fields_keeps_row | exact T]. }
    destruct changes; simpl; [exact T'|].
    revert T'. now apply tidy_same_rows.
Qed.

Lemma run_tidy (rqs : list request) :
  forall db, sound db -> tidy db -> tidy (run db rqs).
Proof.
  induction rqs as [|rq rest IH]; intros db S T; [exact T|].
  simpl. apply IH; [now apply serve_sound | now apply serve_tidy].
Qed.

Lemma no_requirements_tidy (db : DB) : no_requirements db -> tidy db.
Proof.
  intros [Hr Hv]. constructor; rewrite Hr; simpl;
    [intros r [] | constructor | constructor].
Qed.

(** X7.  After any history of requests on a store that started without
    requirements, every stored requirement, deleted or not, has at least
    one version: deleting versions never empties a requirement. *)
Theorem requirement_keeps_a_version (db0 : DB) (history : list request)
  (r : Requirement) :
  no_requirements db0 ->
  In r (requirements (run db0 history)) ->
  (1 <= count_versions (run db0 history) (r_id r))%nat
  /\ get_latest_version (run db0 history) (r_id r) <> None.
Proof.
  intros H0 Hr. destruct (no_requirements_sound H0) as [S0 _].
  pose proof (run_sound history S0) as S.
  pose proof (run_tidy history S0 (no_requirements_tidy H0)) as T.
  pose proof (tidy_chains T r Hr) as Hne.
  split.
  - unfold count_versions. fold (rows_of (run db0 history) (r_id r)).
    destruct (rows_of (run db0 history) (r_id r)); [congruence|].
    simpl. lia.
  - rewrite get_latest_version_rows by exact S.
    destruct (rows_of (run db0 history) (r_id r)); [congruence|discriminate].
Qed.

(** After the three generations and the deletion of version B, "Login"
    still has a version. *)
Lemma requirement_keeps_a_version_witness :
  (1 <= count_versions (run db_empty requests_with_gap) 1)%nat.
Proof.
  apply (@requirement_keeps_a_version db_empty requests_with_gap
           requirement_login).
  - split; reflexivity.
  - vm_compute. now left.
Defined.



(** ** Importing the same title again *)





(** ** Blocking, once more *)

(** X10.  Who may block or unblock a version may also edit it; on a
    blocked version the two permissions coincide (the blocker and the
    project owner have both, nobody else has either); and on an unblocked
    version a user other than the owner may block exactly when the project
    is accessible to that user. *)
Theorem block_and_edit_permissions (p : Project) (v : RequirementVersion)
  (user : Z) :
  (can_be_blocked_by p v user = true -> can_be_edited_by p v user = true)
  /\ (v_is_blocked v = true ->
      can_be_blocked_by p v user = can_be_edited_by p v user)
  /\ (v_is_blocked v = false -> p_user_id p <> user ->
      can_be_blocked_by p v user = is_accessible_by p user).
Proof.
  unfold can_be_blocked_by, can_be_edited_by.
  destruct (v_is_blocked v); simpl; repeat split; try discriminate; auto.
  - destruct (p_user_id p =? user); [now rewrite orb_true_r|].
    now rewrite orb_false_r.
  - destruct (p_user_id p =? user); [now rewrite orb_true_r|].
    now rewrite orb_false_r.
  - intros _ H. apply Z.eqb_neq in H. now rewrite H.
Qed.

(** On the version that Bob blocked, Carol may neither unblock nor edit. *)
Lemma block_and_edit_permissions_witness :
  can_be_blocked_by project1 version_a_blocked 3
  = can_be_edited_by project1 version_a_blocked 3.
Proof.
  destruct (block_and_edit_permissions project1 version_a_blocked 3)
    as [_ [H _]].
  apply H. reflexivity.
Defined.

Lemma version_project_update (db : DB) (vid : Z)
  (f : RequirementVersion -> RequirementVersion) (v : RequirementVersion) :
  version_project (update_version db vid f) v = version_project db v.
Proof. reflexivity. Qed.

(** X11.  The owner's block request toggles: on an unblocked version it
    records the owner and the time, and a second request, at any later
    time, takes the block away again and forgets who had blocked and
    when; every other column of the version is as before. *)
Theorem toggle_block_twice (db : DB) (user vid now later : Z)
  (version : RequirementVersion) (project : Project) :
  get_by v_id (versions db) vid = Some version ->
  version_project db version = Some project ->
  p_user_id project = user ->
  v_is_blocked version = false ->
  exists db1 db2,
    toggle_block_requirement db user vid now = Done db1
    /\ get_by v_id (versions db1) vid
       = Some (set_block true (Some user) (Some now) version)
    /\ toggle_block_requirement db1 user vid later = Done db2
    /\ get_by v_id (versions db2) vid
       = Some (set_block false None None version).
Proof.
  intros Hv Hp Ho Hb.
  assert (H1 : toggle_block_requirement db user vid now
               = Done (update_version db vid
                         (set_block true (Some user) (Some now)))).
  { unfold toggle_block_requirement. rewrite Hv, Hp.
    apply Z.eqb_eq in Ho. now rewrite Ho, Hb. }
  assert (G1 : get_by v_id
                 (versions (update_version db vid
                              (set_block true (Some user) (Some now)))) vid
               = Some (set_block true (Some user) (Some now) version)).
  { simpl. rewrite get_by_update by reflexivity. now rewrite Hv. }
  eexists _, _. split; [exact H1|]. split; [exact G1|].
  assert (H2 : toggle_block_requirement
                 (update_version db vid
                    (set_block true (Some user) (Some now))) user vid later
               = Done (update_version
                         (update_version db vid
                            (set_block true (Some user) (Some now)))
                         vid (set_block false None None))).
  { unfold toggle_block_requirement at 1. rewrite G1.
    rewrite version_project_update.
    change (version_project db
              (set_block true (Some user) (Some now) version))
      with (version_project db version).
    rewrite Hp. apply Z.eqb_eq in Ho. now rewrite Ho. }
  split; [exact H2|].
  cbn [versions update_version]. rewrite get_by_update by reflexivity.
  cbn [versions update_version] in G1. rewrite G1. reflexivity.
Qed.

(** Alice blocks version A and releases it again. *)
Lemma toggle_block_twice_witness :
  exists db1 db2,
    toggle_block_requirement db_one 1 1 1000 = Done db1
    /\ get_by v_id (versions db1) 1
       = Some (set_block true (Some 1) (Some 1000) version_a)
    /\ toggle_block_requirement db1 1 1 2000 = Done db2
    /\ get_by v_id (versions db2) 1 = Some (set_block false None None version_a).
Proof.
  apply (@toggle_block_twice db_one 1 1 1000 2000 version_a project1);
    reflexivity.
Defined.

(** ** Trash and restore *)

Lemma check_requirement_access_mark (db : DB) (rid : Z) (flag : bool)
  (user : Z) (req : Requirement) :
  check_requirement_access (mark_requirement db rid flag) user req
  = check_requirement_access db user req.
Proof. reflexivity. Qed.

Lemma set_deleted_undo (rid : Z) (reqs : list Requirement) :
  (forall r, In r reqs -> r_id r = rid -> r_is_deleted r = false) ->
  map (set_deleted false rid) (map (set_deleted true rid) reqs) = reqs.
Proof.
  intros H. rewrite map_map. rewrite <- (map_id reqs) at 2.
  apply map_ext_in. intros r Hr. unfold set_deleted.
  destruct (r_id r =? rid) eqn:E; simpl; rewrite E; [|reflexivity].
  apply Z.eqb_eq in E. specialize (H r Hr E).
  destruct r as [i p k d]. simpl in *. now subst d.
Qed.

(** X12.  Moving an active requirement to the trash sets its flag and
    touches nothing else: its versions and their history stay stored; and
    restoring it gives back the store as it was before. *)
Theorem delete_then_restore (db : DB) (user rid : Z) (req : Requirement)
  (project : Project) :
  NoDup (map r_id (requirements db)) ->
  get_by r_id (requirements db) rid = Some req ->
  r_is_deleted req = false ->
  check_requirement_access db user req = Done project ->
  exists db1,
    delete_requirement db user rid = Done db1
    /\ get_by r_id (requirements db1) rid
       = Some (mkRequirement (r_id req) (r_project_id req) (r_key req) true)
    /\ versions db1 = versions db
    /\ history db1 = history db
    /\ restore_requirement db1 user rid = Done db.
Proof.
  intros Hnd Hr Hd Ha.
  destruct (get_by_some _ _ _ Hr) as [Hin Hid].
  assert (Hg : get_by r_id (requirements (mark_requirement db rid true)) rid
               = Some (set_deleted true rid req)).
  { simpl. rewrite get_by_map; [now rewrite Hr|].
    intros x. unfold set_deleted. now destruct (r_id x =? rid). }
  exists (mark_requirement db rid true). split; [|split; [|split; [|split]]].
  - unfold delete_requirement, flag_requirement. now rewrite Hr, Ha.
  - rewrite Hg. unfold set_deleted. apply Z.eqb_eq in Hid.
    now rewrite Hid.
  - reflexivity.
  - reflexivity.
  - unfold restore_requirement, flag_requirement. rewrite Hg.
    rewrite check_requirement_access_mark.
    replace (check_requirement_access db user (set_deleted true rid req))
      with (check_requirement_access db user req)
      by (unfold set_deleted; now destruct (r_id req =? rid)).
    rewrite Ha. f_equal. unfold mark_requirement. simpl.
    rewrite set_deleted_undo.
    + now destruct db.
    + intros r Hr' Hri.
      assert (r = req) by (eapply unique_by_id; eauto; congruence).
      now subst r.
Qed.

(** Bob moves "Login" to the trash and takes it out again. *)
Lemma delete_then_restore_witness :
  exists db1,
    delete_requirement db_three 2 1 = Done db1
    /\ get_by r_id (requirements db1) 1
       = Some (mkRequirement 1 1 (Some (lit "login")) true)
    /\ versions db1 = versions db_three
    /\ history db1 = history db_three
    /\ restore_requirement db1 2 1 = Done db_three.
Proof.
  apply (@delete_then_restore db_three 2 1 requirement_login project1);
    try reflexivity.
  vm_compute. repeat constructor. intros [].
Defined.




(** ** Updates, once more *)

Lemma update_requirement_version_cases (db : DB) (user vid : Z) (form : dict)
  (db' : DB) :
  update_requirement_version db user vid form = Done db' ->
  db' = db
  \/ exists version project changes custom new_status,
       get_by v_id (versions db) vid = Some version
       /\ version_project db version = Some project
       /\ is_accessible_by project user = true
       /\ submitted form (lit "title") <> []
       /\ submitted form (lit "description") <> []
       /\ track_changes version (p_custom_columns project) form
          = (changes, custom, new_status)
       /\ let db1 := update_version db vid
                       (set_fields (submitted form (lit "title"))
                          (submitted form (lit "description"))
                          (submitted form (lit "category")) new_status custom
                          user) in
          (changes = [] /\ db' = db1
           \/ changes <> []
              /\ db' = add_history db1
                         (mkHistory (next_id h_id (history db1)) vid user
                                    (lit "modified") changes)).
Proof.
  unfold update_requirement_version.
  destruct (get_by v_id (versions db) vid) as [version|] eqn:Ev;
    [|discriminate].
  destruct (version_project db version) as [project|] eqn:Ep;
    [|discriminate].
  destruct (is_accessible_by project user) eqn:Ea; [|discriminate].
  cbn [negb]. fold (submitted form (lit "title")).
  fold (submitted form (lit "description")).
  fold (submitted form (lit "category")).
  destruct (submitted form (lit "title")) as [|t1 tr] eqn:Et;
    [intros [= <-]; now left|].
  destruct (submitted form (lit "description")) as [|d1 dr] eqn:Ed;
    [intros [= <-]; now left|].
  cbn [truthy negb orb].
  destruct (track_changes version (p_custom_columns project) form)
    as [[changes custom] new_status] eqn:Etc.
  intros H. right. exists version, project, changes, custom, new_status.
  repeat (split; [assumption || reflexivity || discriminate|]).
  cbv zeta. destruct changes as [|kv rest].
  - left. split; [reflexivity|]. now injection H.
  - right. split; [discriminate|]. now injection H.
Qed.

Lemma map_update_frame (vid : Z) (f : RequirementVersion -> RequirementVersion)
  (l : list RequirementVersion) :
  (forall v, row_frame (f v) = row_frame v) ->
  map row_frame (map (fun v => if v_id v =? vid then f v else v) l)
  = map row_frame l.
Proof.
  intros H. rewrite map_map. apply map_ext. intros v.
  destruct (v_id v =? vid); [apply H | reflexivity].
Qed.

(** X14.  An update of a version's fields that goes through leaves the
    requirement rows as they are (the key is not derived again from the
    new title), leaves every other version as it is, and on the version
    itself keeps id, requirement, index, label, creator and block state;
    and when the submitted title or description is empty it changes
    nothing at all. *)
Theorem update_leaves_the_rest (db db' : DB) (user vid : Z) (form : dict) :
  update_requirement_version db user vid form = Done db' ->
  requirements db' = requirements db
  /\ map row_frame (versions db') = map row_frame (versions db)
  /\ (forall v, In v (versions db) -> v_id v <> vid -> In v (versions db'))
  /\ (submitted form (lit "title") = []
      \/ submitted form (lit "description") = [] -> db' = db).
Proof.
  intros H. apply update_requirement_version_cases in H.
  destruct H as [-> | [version [project [changes [custom [new_status
    [Hv [Hp [Ha [Ht [Hd [Etc Hdb]]]]]]]]]]]].
  - repeat split; auto.
  - cbv zeta in Hdb.
    assert (Hvs : versions db'
                  = map (fun v => if v_id v =? vid
                                  then set_fields (submitted form (lit "title"))
                                         (submitted form (lit "description"))
                                         (submitted form (lit "category"))
                                         new_status custom user v
                                  else v) (versions db)).
    { destruct Hdb as [[_ ->] | [_ ->]]; reflexivity. }
    assert (Hrs : requirements db' = requirements db).
    { destruct Hdb as [[_ ->] | [_ ->]]; reflexivity. }
    split; [exact Hrs|]. split; [|split].
    + rewrite Hvs. now apply map_update_frame.
    + intros v Hin Hne. rewrite Hvs. apply in_map_iff. exists v.
      split; [|exact Hin]. apply Z.eqb_neq in Hne. now rewrite Hne.
    + intros [E | E]; contradiction.
Qed.

(** Bob's update of version A: the key of "Login" stays "login". *)
Lemma update_leaves_the_rest_witness :
  requirements (committed db_one
                  (update_requirement_version db_one 2 1 form_retitle))
  = requirements db_one.
Proof.
  apply (@update_leaves_the_rest db_one _ 2 1 form_retitle).
  vm_compute. reflexivity.
Defined.

(** X15.  The update does not ask [can_be_edited_by]: a user with access
    to the project whose form is valid gets the fields written also on a
    version that is blocked and that this user may not edit. *)
Theorem update_does_not_ask_the_block (db : DB) (user vid : Z) (form : dict)
  (version : RequirementVersion) (project : Project) :
  get_by v_id (versions db) vid = Some version ->
  version_project db version = Some project ->
  is_accessible_by project user = true ->
  can_be_edited_by project version user = false ->
  submitted form (lit "title") <> [] ->
  submitted form (lit "description") <> [] ->
  exists db' v',
    update_requirement_version db user vid form = Done db'
    /\ get_by v_id (versions db') vid = Some v'
    /\ v_title v' = submitted form (lit "title")
    /\ v_description v' = submitted form (lit "description")
    /\ v_last_modified_by_id v' = Some user
    /\ v_is_blocked v' = true.
Proof.
  intros Hv Hp Ha Hb Ht Hd.
  assert (Hblk : v_is_blocked version = true).
  { unfold can_be_edited_by in Hb.
    destruct (v_is_blocked version); [reflexivity | discriminate]. }
  unfold update_requirement_version. rewrite Hv, Hp, Ha. cbn [negb].
  fold (submitted form (lit "title")).
  fold (submitted form (lit "description")).
  fold (submitted form (lit "category")).
  destruct (submitted form (lit "title")) as [|t1 tr]; [congruence|].
  destruct (submitted form (lit "description")) as [|d1 dr]; [congruence|].
  cbn [truthy negb orb].
  destruct (track_changes version (p_custom_columns project) form)
    as [[changes custom] new_status].
  destruct changes; eexists _, _; (split; [reflexivity|]);
    (split; [simpl; rewrite get_by_update by reflexivity;
             rewrite Hv; reflexivity|]);
    simpl; auto.
Qed.

(** Alice has blocked version A; Bob, who may not edit it, updates it. *)
Lemma update_does_not_ask_the_block_witness :
  exists db' v',
    update_requirement_version db_blocked_by_owner 2 1 form_retitle = Done db'
    /\ get_by v_id (versions db') 1 = Some v'
    /\ v_title v' = submitted form_retitle (lit "title")
    /\ v_description v' = submitted form_retitle (lit "description")
    /\ v_last_modified_by_id v' = Some 2
    /\ v_is_blocked v' = true.
Proof.
  apply (@update_does_not_ask_the_block db_blocked_by_owner 2 1 form_retitle
           version_a_blocked_by_owner project1);
    try reflexivity; vm_compute; discriminate.
Defined.

Lemma update_columns_snd (cols : list str) (form : dict) :
  forall changes custom,
  snd (update_columns cols form changes custom) = custom_after cols form custom.
Proof.
  induction cols as [|c rest IH]; intros changes custom; [reflexivity|].
  cbn [update_columns custom_after fold_left]. rewrite IH. reflexivity.
Qed.

Lemma custom_after_get (cols : list str) (form : dict) :
  forall custom k,
  dict_get (custom_after cols form custom) k
  = if existsb (str_eqb k) cols
    then Some (submitted form (lit "custom_" ++ k))
    else dict_get custom k.
Proof.
  induction cols as [|c rest IH]; intros custom k; [reflexivity|].
  cbn [custom_after fold_left existsb].
  change (fold_left _ rest ?x) with (custom_after rest form x).
  rewrite IH, dict_get_set, (str_eqb_sym k c).
  destruct (str_eqb c k) eqn:E.
  - apply str_eqb_eq in E. subst c. simpl.
    destruct (existsb (str_eqb k) rest); reflexivity.
  - reflexivity.
Qed.

Lemma dict_set_same (d : dict) (k v : str) :
  dict_get d k = Some v -> dict_set d k v = d.
Proof.
  induction d as [|[k0 v0] r IH]; [discriminate|].
  simpl. destruct (str_eqb k0 k) eqn:E.
  - now intros [= ->].
  - intros H. now rewrite IH.
Qed.

Lemma custom_after_fixed (cols : list str) (form : dict) :
  forall custom,
  (forall c, In c cols ->
     dict_get custom c = Some (submitted form (lit "custom_" ++ c))) ->
  custom_after cols form custom = custom.
Proof.
  induction cols as [|c rest IH]; intros custom H; [reflexivity|].
  cbn [custom_after fold_left].
  change (fold_left _ rest ?x) with (custom_after rest form x).
  rewrite dict_set_same by (apply H; now left).
  apply IH. intros c' Hc'. apply H. now right.
Qed.

Lemma track_changes_custom (v : RequirementVersion) (cols : list str)
  (form : dict) :
  snd (fst (track_changes v cols form))
  = dict_set (custom_after cols form (v_custom_data v))
             (lit "is_quantifiable") (submitted_flag form).
Proof.
  unfold track_changes.
  match goal with
  | |- context [update_columns cols form ?c ?cu] =>
      pose proof (update_columns_snd cols form c cu) as H;
      destruct (update_columns cols form c cu) as [c5 custom1]
  end.
  cbn [fst snd] in *. now rewrite H.
Qed.

Lemma track_changes_status (v : RequirementVersion) (cols : list str)
  (form : dict) :
  snd (track_changes v cols form)
  = choose_status (submitted form (lit "status"))
      (dict_get_or form (lit "save_type") (lit "intermediate")) (v_status v).
Proof.
  unfold track_changes.
  destruct (update_columns cols form _ _) as [c5 custom1]. reflexivity.
Qed.

Lemma choose_status_idem (status save_type old : str) :
  choose_status status save_type (choose_status status save_type old)
  = choose_status status save_type old.
Proof.
  unfold choose_status.
  destruct (truthy status && valid_status status); [reflexivity|].
  destruct (str_eqb save_type (lit "intermediate")); [reflexivity|].
  destruct (str_eqb save_type (lit "final")); reflexivity.
Qed.

Lemma when_changed_same (a text : str) : when_changed a a text = None.
Proof. unfold when_changed. now rewrite str_eqb_refl. Qed.

Lemma existsb_str_eqb (k : str) (l : list str) :
  existsb (str_eqb k) l = true <-> In k l.
Proof.
  rewrite existsb_exists. split.
  - intros [y [Hy He]]. apply str_eqb_eq in He. now subst.
  - intros H. exists k. split; [exact H | apply str_eqb_refl].
Qed.

(** After an update, the same form has nothing left to change. *)
Lemma expected_change_settled (version : RequirementVersion)
  (cols : list str) (form : dict) (user : Z) (field : str) :
  ~ In (lit "is_quantifiable") cols ->
  let custom :=
    dict_set (custom_after cols form (v_custom_data version))
             (lit "is_quantifiable") (submitted_flag form) in
  let new_status :=
    choose_status (submitted form (lit "status"))
      (dict_get_or form (lit "save_type") (lit "intermediate"))
      (v_status version) in
  expected_change
    (set_fields (submitted form (lit "title"))
                (submitted form (lit "description"))
                (submitted form (lit "category")) new_status custom user
                version)
    cols form field = None.
Proof.
  intros Hq custom new_status. unfold expected_change.
  cbn [set_fields v_title v_description v_category v_status v_custom_data
       opt_str].
  destruct (str_eqb field (lit "title")); [apply when_changed_same|].
  destruct (str_eqb field (lit "description")); [apply when_changed_same|].
  destruct (str_eqb field (lit "category")); [apply when_changed_same|].
  destruct (str_eqb field (lit "status")).
  { cbv zeta. unfold new_status. rewrite choose_status_idem.
    apply when_changed_same. }
  destruct (str_eqb field (lit "is_quantifiable")).
  { cbv zeta. unfold custom, dict_get_or.
    rewrite dict_get_set, str_eqb_refl.
    unfold submitted_flag. apply when_changed_same. }
  destruct (remove_prefix (lit "custom_") field) as [column|] eqn:Ep;
    [|reflexivity].
  destruct (existsb (str_eqb column) cols) eqn:Ec; [|reflexivity].
  cbv zeta. apply remove_prefix_spec in Ep. subst field.
  unfold custom, dict_get_or. rewrite dict_get_set.
  destruct (str_eqb (lit "is_quantifiable") column) eqn:Eq.
  - apply str_eqb_eq in Eq. subst column.
    apply existsb_str_eqb in Ec. contradiction.
  - rewrite custom_after_get, Ec. apply when_changed_same.
Qed.

Lemma update_version_fixed (db : DB) (vid : Z)
  (f : RequirementVersion -> RequirementVersion) :
  (forall v, In v (versions db) -> v_id v = vid -> f v = v) ->
  update_version db vid f = db.
Proof.
  intros H. unfold update_version.
  replace (map _ (versions db)) with (versions db); [now destruct db|].
  rewrite <- (map_id (versions db)) at 1. apply map_ext_in.
  intros v Hv. destruct (v_id v =? vid) eqn:E; [|reflexivity].
  apply Z.eqb_eq in E. symmetry. now apply H.
Qed.

Lemma settled_version_update (db1 : DB) (user vid : Z) (form : dict)
  (version : RequirementVersion) (project : Project) :
  let cols := p_custom_columns project in
  let custom :=
    dict_set (custom_after cols form (v_custom_data version))
             (lit "is_quantifiable") (submitted_flag form) in
  let new_status :=
    choose_status (submitted form (lit "status"))
      (dict_get_or form (lit "save_type") (lit "intermediate"))
      (v_status version) in
  let f := set_fields (submitted form (lit "title"))
             (submitted form (lit "description"))
             (submitted form (lit "category")) new_status custom user in
  ~ In (lit "is_quantifiable") cols ->
  (forall v, In v (versions db1) -> v_id v = vid -> exists w, v = f w) ->
  get_by v_id (versions db1) vid = Some (f version) ->
  version_project db1 (f version) = Some project ->
  is_accessible_by project user = true ->
  submitted form (lit "title") <> [] ->
  submitted form (lit "description") <> [] ->
  update_requirement_version db1 user vid form = Done db1.
Proof.
  intros cols custom new_status f Hq Hrows Hv Hp Ha Ht Hd.
  unfold update_requirement_version. rewrite Hv, Hp, Ha. cbn [negb].
  fold (submitted form (lit "title")).
  fold (submitted form (lit "description")).
  fold (submitted form (lit "category")).
  assert (Htt : truthy (submitted form (lit "title")) = true)
    by (destruct (submitted form (lit "title")); [congruence|reflexivity]).
  assert (Htd : truthy (submitted form (lit "description")) = true)
    by (destruct (submitted form (lit "description"));
        [congruence|reflexivity]).
  rewrite Htt, Htd. cbn [negb orb]. fold cols.
  pose proof (track_changes_get (f version) cols form) as Hget.
  pose proof (track_changes_custom (f version) cols form) as Hcu.
  pose proof (track_changes_status (f version) cols form) as Hns.
  destruct (track_changes (f version) cols form) as [[ch2 cu2] ns2].
  cbn [fst snd] in Hget, Hcu, Hns.
  assert (Hch : ch2 = []).
  { apply dict_get_nil_iff. intros k. rewrite Hget.
    unfold f. now apply expected_change_settled. }
  assert (Hcu' : cu2 = custom).
  { rewrite Hcu. unfold f. cbn [set_fields v_custom_data].
    rewrite custom_after_fixed.
    - apply dict_set_same. unfold custom.
      now rewrite dict_get_set, str_eqb_refl.
    - intros c Hc. unfold custom. rewrite dict_get_set.
      destruct (str_eqb (lit "is_quantifiable") c) eqn:E.
      + apply str_eqb_eq in E. subst c. contradiction.
      + rewrite custom_after_get.
        apply existsb_str_eqb in Hc. now rewrite Hc. }
  assert (Hns' : ns2 = new_status).
  { rewrite Hns. unfold f. cbn [set_fields v_status].
    apply choose_status_idem. }
  rewrite Hch, Hcu', Hns'. f_equal. apply update_version_fixed.
  intros v Hin Hid. destruct (Hrows v Hin Hid) as [w ->].
  unfold f. reflexivity.
Qed.

Lemma updated_row (db : DB) (vid : Z)
  (f : RequirementVersion -> RequirementVersion) (v : RequirementVersion) :
  In v (versions (update_version db vid f)) ->
  v_id v <> vid \/ exists w, v = f w.
Proof.
  cbn [update_version versions]. intros H. apply in_map_iff in H.
  destruct H as [w [Hw _]]. destruct (v_id w =? vid) eqn:E.
  - right. now exists w.
  - left. subst v. now apply Z.eqb_neq.
Qed.

(** X16.  Submitting the same update form a second time changes nothing:
    when no custom column is named "is_quantifiable", the second update
    goes through and leaves every table, the history included, as the
    first update left it. *)
Theorem update_twice_is_update_once (db : DB) (user vid : Z) (form : dict)
  (version : RequirementVersion) (project : Project) :
  get_by v_id (versions db) vid = Some version ->
  version_project db version = Some project ->
  is_accessible_by project user = true ->
  submitted form (lit "title") <> [] ->
  submitted form (lit "description") <> [] ->
  ~ In (lit "is_quantifiable") (p_custom_columns project) ->
  exists db1,
    update_requirement_version db user vid form = Done db1
    /\ update_requirement_version db1 user vid form = Done db1.
Proof.
  intros Hv Hp Ha Ht Hd Hq.
  pose proof (track_changes_custom version (p_custom_columns project) form)
    as Hcu.
  pose proof (track_changes_status version (p_custom_columns project) form)
    as Hns.
  assert (E : exists changes,
    update_requirement_version db user vid form
    = Done (let db1 := update_version db vid
                (set_fields (submitted form (lit "title"))
                   (submitted form (lit "description"))
                   (submitted form (lit "category"))
                   (snd (track_changes version (p_custom_columns project)
                           form))
                   (snd (fst (track_changes version
                                (p_custom_columns project) form)))
                   user) in
            match changes with
            | [] => db1
            | _ :: _ =>
                add_history db1
                  (mkHistory (next_id h_id (history db1)) vid user
                     (lit "modified") changes)
            end)).
  { unfold update_requirement_version. rewrite Hv, Hp, Ha. cbn [negb].
    fold (submitted form (lit "title")).
    fold (submitted form (lit "description")).
    fold (submitted form (lit "category")).
    destruct (submitted form (lit "title")) as [|t1 tr]; [congruence|].
    destruct (submitted form (lit "description")) as [|d1 dr];
      [congruence|].
    cbn [truthy negb orb].
    destruct (track_changes version (p_custom_columns project) form)
      as [[changes custom] new_status].
    exists changes. cbn [fst snd]. destruct changes; reflexivity. }
  destruct E as [changes E]. rewrite Hcu, Hns in E. cbv zeta in E.
  eexists. split; [exact E|].
  apply (@settled_version_update _ user vid form version project); auto.
  - intros v Hin Hid.
    assert (Hvs : In v (versions (update_version db vid
              (set_fields (submitted form (lit "title"))
                 (submitted form (lit "description"))
                 (submitted form (lit "category"))
                 (choose_status (submitted form (lit "status"))
                    (dict_get_or form (lit "save_type") (lit "intermediate"))
                    (v_status version))
                 (dict_set
                    (custom_after (p_custom_columns project) form
                       (v_custom_data version))
                    (lit "is_quantifiable") (submitted_flag form))
                 user))))
      by (destruct changes; exact Hin).
    apply updated_row in Hvs. destruct Hvs as [Hne | Hw];
      [contradiction | exact Hw].
  - destruct changes; simpl; rewrite get_by_update by reflexivity;
      now rewrite Hv.
  - destruct changes; exact Hp.
Qed.

(** Bob submits his form for version A twice. *)
Lemma update_twice_is_update_once_witness :
  exists db1,
    update_requirement_version db_one 2 1 form_retitle = Done db1
    /\ update_requirement_version db1 2 1 form_retitle = Done db1.
Proof.
  apply (@update_twice_is_update_once db_one 2 1 form_retitle version_a
           project1).
  - vm_compute. reflexivity.
  - vm_compute. reflexivity.
  - reflexivity.
  - vm_compute. discriminate.
  - vm_compute. discriminate.
  - intros [H | []]. vm_compute in H. discriminate.
Defined.

(* ===================================================================== *)
(** ** Writing comments *)
(* ===================================================================== *)

Lemma parent_is_valid_spec (db : DB) (vid : Z) (parent : option Z) (p : Z) :
  parent_is_valid db vid parent = true ->
  truthy_id parent = Some p ->
  exists c, In c (comments db) /\ c_id c = p
            /\ c_version_id c = vid /\ c_is_deleted c = false.
Proof.
  unfold parent_is_valid. intros H Hp. rewrite Hp in H.
  destruct (get_by c_id (comments db) p) as [c|] eqn:E; [|discriminate].
  apply get_by_some in E. destruct E as [Hin Hid].
  apply negb_true_iff, orb_false_iff in H. destruct H as [Hv Hd].
  apply negb_false_iff, Z.eqb_eq in Hv. exists c. auto.
Qed.

Lemma create_comment_done (db db' : DB) (user vid : Z) (text : str)
  (parent : option Z) (now : Z) :
  create_comment db user vid text parent now = Done db' ->
  strip text <> []
  /\ parent_is_valid db vid parent = true
  /\ db' = mkDB (users db) (projects db) (requirements db) (versions db)
                (history db)
                (comments db
                 ++ [mkComment (next_id c_id (comments db)) vid user
                               (strip text) parent now false]).
Proof.
  unfold create_comment.
  destruct (get_by v_id (versions db) vid) as [version|]; [|discriminate].
  destruct (version_project db version) as [project|]; [|discriminate].
  destruct (negb (is_accessible_by project user)); [discriminate|].
  destruct (strip text) as [|c r] eqn:Et; [discriminate|]. cbn [truthy negb].
  destruct (parent_is_valid db vid parent); [|discriminate]. cbn [negb].
  intros [= <-]. repeat split. discriminate.
Qed.

Lemma update_comment_done (db db' : DB) (user cid : Z) (text : str) :
  update_comment db user cid text = Done db' ->
  exists comment,
    get_by c_id (comments db) cid = Some comment
    /\ c_author_id comment = user
    /\ c_is_deleted comment = false
    /\ strip text <> []
    /\ db' = mkDB (users db) (projects db) (requirements db) (versions db)
                  (history db)
                  (map (set_comment_text cid (strip text)) (comments db)).
Proof.
  unfold update_comment.
  destruct (get_by c_id (comments db) cid) as [comment|]; [|discriminate].
  destruct (get_by v_id (versions db) _) as [version|]; [|discriminate].
  destruct (version_project db version) as [project|]; [|discriminate].
  destruct (negb (is_accessible_by project user)); [discriminate|].
  destruct (c_author_id comment =? user) eqn:Ea; [|discriminate].
  cbn [negb]. destruct (c_is_deleted comment) eqn:Ed; [discriminate|].
  destruct (strip text) as [|c r] eqn:Et; [discriminate|]. cbn [truthy negb].
  intros [= <-]. exists comment. apply Z.eqb_eq in Ea.
  repeat split; auto. discriminate.
Qed.

Lemma threaded_map (db : DB) (f : RequirementComment -> RequirementComment) :
  (forall c, c_id (f c) = c_id c) ->
  (forall c, c_version_id (f c) = c_version_id c) ->
  (forall c, c_parent_comment_id (f c) = c_parent_comment_id c) ->
  (forall c, c_text c <> [] -> c_text (f c) <> []) ->
  threaded db ->
  threaded (mkDB (users db) (projects db) (requirements db) (versions db)
                 (history db) (map f (comments db))).
Proof.
  intros Hi Hv Hp Ht [Hids Htexts Hparents]. split; cbn [comments].
  - rewrite map_map. erewrite map_ext; [exact Hids|]. exact Hi.
  - intros c' Hc'. apply in_map_iff in Hc'. destruct Hc' as [c [<- Hc]].
    auto.
  - intros c' p Hc' Hpar. apply in_map_iff in Hc'.
    destruct Hc' as [c [<- Hc]]. rewrite Hp in Hpar.
    destruct (Hparents c p Hc Hpar) as [parent [Hin [Hid [Hver Hlt]]]].
    exists (f parent). rewrite !Hi, !Hv.
    repeat split; auto. now apply in_map.
Qed.

Lemma set_comment_text_id (cid : Z) (t : str) (c : RequirementComment) :
  c_id (set_comment_text cid t c) = c_id c.
Proof. unfold set_comment_text. now destruct (c_id c =? cid). Qed.

Lemma serve_comment_threaded (db : DB) (rq : comment_request) :
  threaded db -> threaded (serve_comment db rq).
Proof.
  intros T. destruct rq as [user vid text parent now | user cid text
                            | user cid]; unfold serve_comment.
  - destruct (create_comment db user vid text parent now) as [db'|s] eqn:E;
      [|exact T].
    apply create_comment_done in E. destruct E as [Ht [Hp ->]].
    destruct T as [Hids Htexts Hparents]. cbn [committed].
    split; cbn [comments].
    + rewrite map_app. apply nodup_snoc; [exact Hids|].
      apply next_id_fresh.
    + intros c Hc. apply in_app_iff in Hc.
      destruct Hc as [Hc | [<- | []]]; auto.
    + intros c p Hc Hpar. apply in_app_iff in Hc.
      destruct Hc as [Hc | [<- | []]].
      * destruct (Hparents c p Hc Hpar) as [q [Hq H]].
        exists q. split; [apply in_app_iff; now left | exact H].
      * cbn [c_parent_comment_id] in Hpar.
        destruct (parent_is_valid_spec db vid parent Hp Hpar)
          as [q [Hq [Hid [Hv _]]]].
        exists q. cbn [c_version_id c_id].
        repeat split; auto.
        -- apply in_app_iff. now left.
        -- now apply next_id_above.
  - destruct (update_comment db user cid text) as [db'|s] eqn:E; [|exact T].
    apply update_comment_done in E.
    destruct E as [comment [_ [_ [_ [Ht ->]]]]]. cbn [committed].
    apply threaded_map; auto; intros c; unfold set_comment_text;
      destruct (c_id c =? cid); auto.
  - destruct (delete_comment db user cid) as [db'|s] eqn:E; [|exact T].
    cbn [committed].
    assert (E' : db' = mkDB (users db) (projects db) (requirements db)
                   (versions db) (history db)
                   (map (set_comment_deleted cid) (comments db))).
    { revert E. unfold delete_comment.
      destruct (get_by c_id (comments db) cid) as [comment|]; [|discriminate].
      destruct (get_by v_id (versions db) _) as [version|]; [|discriminate].
      destruct (version_project db version) as [project|]; [|discriminate].
      destruct (negb (is_accessible_by project user)); [discriminate|].
      destruct (_ && _); [discriminate|]. now intros [= <-]. }
    rewrite E'.
    apply threaded_map; auto; intros c; unfold set_comment_deleted;
      destruct (c_id c =? cid); auto.
Qed.

(** X17.  The comment requests keep the comment table threaded: whatever
    comments are created, edited and deleted, no comment id occurs twice,
    no comment has an empty text, and every reply has a parent of its own
    version with a smaller id, so that no comment is its own ancestor. *)
Theorem comment_requests_keep_threads (db : DB)
  (rqs : list comment_request) :
  threaded db -> threaded (fold_left serve_comment rqs db).
Proof.
  revert db. induction rqs as [|rq rest IH]; intros db T; [exact T|].
  cbn [fold_left]. apply IH. now apply serve_comment_threaded.
Qed.

(** The thread on version A, from an empty comment table. *)
Lemma comment_requests_keep_threads_witness :
  threaded (fold_left serve_comment requests_thread db_one).
Proof.
  apply comment_requests_keep_threads.
  split.
  - vm_compute. constructor.
  - intros c H. vm_compute in H. contradiction.
  - intros c p H. vm_compute in H. contradiction.
Defined.

Lemma heap_get_append_eq (h : heap) (p c q : Z) :
  heap_get (heap_append h p c) q
  = if (q =? p) && in_heap h q then heap_get h q ++ [c] else heap_get h q.
Proof.
  unfold heap_get, heap_append, in_heap.
  induction h as [|[k v] r IH]; simpl.
  - now rewrite andb_false_r.
  - destruct (k =? q) eqn:Eq.
    + apply Z.eqb_eq in Eq. subst k. rewrite andb_true_r.
      destruct (q =? p) eqn:Ep; simpl; now rewrite Z.eqb_refl.
    + simpl. destruct (k =? p); simpl; rewrite Eq; exact IH.
Qed.

Lemma build_tree_keeps (todo : list RequirementComment) :
  forall (h : heap) (roots : list Z) (q id : Z),
  In id (heap_get h q) ->
  In id (heap_get (fst (build_tree todo h roots)) q).
Proof.
  induction todo as [|c rest IH]; intros h roots q id H; [exact H|].
  cbn [build_tree].
  destruct (truthy_id (c_parent_comment_id c)) as [p|]; [|now apply IH].
  destruct (in_heap h p); [|now apply IH].
  apply IH. rewrite heap_get_append_eq.
  destruct ((q =? p) && in_heap h q); [|exact H].
  apply in_app_iff. now left.
Qed.

(** Every reply whose parent is among the objects is linked under it. *)
Lemma build_tree_children (todo : list RequirementComment) :
  forall (h : heap) (roots : list Z) (c : RequirementComment) (q : Z),
  In c todo -> truthy_id (c_parent_comment_id c) = Some q ->
  in_heap h q = true ->
  In (c_id c) (heap_get (fst (build_tree todo h roots)) q).
Proof.
  induction todo as [|c0 rest IH]; intros h roots c q Hc Hp Hq;
    [contradiction|].
  cbn [build_tree]. destruct Hc as [-> | Hc].
  - rewrite Hp, Hq. apply build_tree_keeps. rewrite heap_get_append_eq.
    rewrite Z.eqb_refl, Hq. apply in_app_iff. right. now left.
  - destruct (truthy_id (c_parent_comment_id c0)) as [p|]; [|now apply IH].
    destruct (in_heap h p); [|now apply IH].
    apply IH; auto. now rewrite in_heap_append.
Qed.

Lemma in_heap_of_data (data : list RequirementComment)
  (c : RequirementComment) :
  In c data -> in_heap (map (fun c => (c_id c, @nil Z)) data) (c_id c) = true.
Proof.
  intros H. unfold in_heap. apply existsb_exists.
  exists (c_id c, []). split; [|apply Z.eqb_refl].
  apply in_map_iff. now exists c.
Qed.

Lemma render_shows_linked (data : list RequirementComment) (h : heap)
  (d : nat) :
  forall (fuel : nat) (ids : list Z) (c : RequirementComment),
  (d < fuel)%nat -> linked data h d ids c ->
  In (c_id c) (flat_map thread_ids (render fuel data h ids)).
Proof.
  induction d as [|d IH]; intros fuel ids c Hf H.
  - destruct fuel as [|fuel]; [lia|]. destruct H as [Hc Hi].
    now apply render_shows_roots.
  - destruct fuel as [|fuel]; [lia|].
    destruct H as [a [Ha [Hi H]]].
    cbn [render]. apply in_flat_map.
    destruct (get_by c_id data (c_id a)) as [a'|] eqn:E.
    + eexists. split.
      * apply in_flat_map. exists (c_id a). split; [exact Hi|].
        rewrite E. now left.
      * cbn [thread_ids]. right. apply IH; [lia | exact H].
    + exfalso. unfold get_by in E.
      pose proof (find_none _ _ E a Ha) as Hn. simpl in Hn.
      now rewrite Z.eqb_refl in Hn.
Qed.

Lemma linked_snoc (data : list RequirementComment) (h : heap) (d : nat) :
  forall (ids : list Z) (a c : RequirementComment),
  linked data h d ids a -> In c data ->
  In (c_id c) (heap_get h (c_id a)) ->
  linked data h (S d) ids c.
Proof.
  induction d as [|d IH]; intros ids a c Ha Hc Hl.
  - destruct Ha as [Ha Hi]. exists a. repeat split; auto.
  - destruct Ha as [b [Hb [Hi Ha]]]. exists b. repeat split; auto.
    eapply IH; eauto.
Qed.

Lemma live_visible (db : DB) (vid : Z) (c : RequirementComment) :
  live db vid c -> In c (visible_comments db vid).
Proof.
  intros H. apply in_visible_comments. destruct H; auto.
Qed.

(** A live comment hangs in the built tree, at a depth below the number of
    the listed comments. *)
Lemma live_linked (db : DB) (vid : Z) (c : RequirementComment) :
  threaded db -> live db vid c ->
  let data := visible_comments db vid in
  let built := build_tree data (map (fun c => (c_id c, [])) data) [] in
  exists d, linked data (fst built) d (snd built) c
            /\ (d < List.length data)%nat.
Proof.
  intros T L data built.
  assert (H : exists d l,
             linked data (fst built) d (snd built) c
             /\ List.length l = S d /\ NoDup l
             /\ incl l (map c_id data)
             /\ forall x, In x l -> x <= c_id c).
  { induction L as [c Hc Hv Hd Hp | c parent Hc Hv Hd Hp L IH].
    - exists O, [c_id c].
      assert (Hin : In c data) by (apply in_visible_comments; auto).
      repeat split.
      + exact Hin.
      + apply build_tree_roots. right. eauto.
      + constructor; [intros [] | constructor].
      + intros x [<- | []]. now apply in_map.
      + intros x [<- | []]. lia.
    - destruct IH as [d [l [Hl [Hlen [Hnd [Hincl Hle]]]]]].
      assert (Hin : In c data) by (apply in_visible_comments; auto).
      assert (Hlt : c_id parent < c_id c).
      { destruct (threaded_parents T c Hc Hp) as [q [_ [Hq [_ Hlt]]]].
        lia. }
      exists (S d), (c_id c :: l). repeat split.
      + eapply linked_snoc; eauto.
        apply build_tree_children; auto.
        apply in_heap_of_data. now apply live_visible.
      + simpl. now rewrite Hlen.
      + constructor; [|exact Hnd].
        intros Hx. apply Hle in Hx. lia.
      + intros x [<- | Hx]; [now apply in_map | now apply Hincl].
      + intros x [<- | Hx]; [lia|]. apply Hle in Hx. lia. }
  destruct H as [d [l [Hl [Hlen [Hnd [Hincl _]]]]]].
  exists d. split; [exact Hl|].
  pose proof (NoDup_incl_length Hnd Hincl) as Hn.
  rewrite length_map in Hn. fold data in Hn. lia.
Qed.

Lemma render_live (db : DB) (vid : Z) (h : heap) :
  let data := visible_comments db vid in
  NoDup (map c_id (comments db)) ->
  (forall q id, In id (heap_get h q) ->
     exists c, In c data /\ c_id c = id
               /\ truthy_id (c_parent_comment_id c) = Some q) ->
  forall (fuel : nat) (ids : list Z),
  (forall id, In id ids ->
     exists c, In c data /\ c_id c = id /\ live db vid c) ->
  forall id, In id (flat_map thread_ids (render fuel data h ids)) ->
  exists c, c_id c = id /\ live db vid c.
Proof.
  intros data Hnd Hh.
  induction fuel as [|fuel IH]; intros ids P id H; [contradiction|].
  cbn [render] in H. apply in_flat_map in H. destruct H as [t [Ht Hid]].
  apply in_flat_map in Ht. destruct Ht as [id0 [Hid0 Ht]].
  destruct (get_by c_id data id0) as [c0|] eqn:Ec; [|contradiction].
  destruct Ht as [<- | []].
  apply get_by_some in Ec. destruct Ec as [Hc0 He0].
  destruct (P id0 Hid0) as [c' [Hc' [He' L']]].
  assert (c0 = c').
  { apply (unique_by_id c_id (comments db)); auto.
    - apply in_visible_comments in Hc0. tauto.
    - apply in_visible_comments in Hc'. tauto.
    - congruence. }
  subst c'.
  cbn [thread_ids] in Hid. destruct Hid as [<- | Hid].
  - now exists c0.
  - apply IH in Hid; [exact Hid|].
    intros id1 H1. destruct (Hh id0 id1 H1) as [c1 [Hc1 [He1 Hp1]]].
    exists c1. repeat split; auto.
    apply in_visible_comments in Hc1. destruct Hc1 as [Hin [Hv Hd]].
    apply live_reply with (parent := c0); auto. now rewrite He0.
Qed.

Lemma listed_is_live (db : DB) (viewer vid : Z) (thread : list CommentJson)
  (id : Z) :
  NoDup (map c_id (comments db)) ->
  get_comments db viewer vid = Done thread ->
  In id (flat_map thread_ids thread) ->
  exists c, c_id c = id /\ live db vid c.
Proof.
  intros T Hg. apply get_comments_done in Hg. cbv zeta in Hg. subst thread.
  set (data := visible_comments db vid).
  destruct (build_tree_sources data (map (fun c => (c_id c, [])) data) [])
    as [Hroots Hheap].
  apply render_live.
  - exact T.
  - intros q id1 H1. destruct (Hheap q id1 H1) as [H | [c [Hc [He [Hp _]]]]].
    + now rewrite heap_get_initial in H.
    + eauto.
  - intros id1 H1. destruct (Hroots id1 H1) as [[] | [c [Hc [He Hp]]]].
    exists c. repeat split; auto.
    apply in_visible_comments in Hc. destruct Hc as [Hin [Hv Hd]].
    now apply live_root.
Qed.

Lemma live_is_listed (db : DB) (viewer vid : Z) (thread : list CommentJson)
  (c : RequirementComment) :
  threaded db ->
  get_comments db viewer vid = Done thread ->
  live db vid c ->
  In (c_id c) (flat_map thread_ids thread).
Proof.
  intros T Hg L. apply get_comments_done in Hg. cbv zeta in Hg. subst thread.
  destruct (live_linked T L) as [d [Hl Hd]].
  eapply render_shows_linked; eauto.
Qed.

(** X18.  On a threaded comment table the listing of a version shows
    exactly the live comments: those that are not deleted and whose
    ancestors are all comments of the version that are not deleted.  No
    thread is too deep for the listing. *)
Theorem get_comments_lists_the_live_comments (db : DB) (viewer vid : Z)
  (thread : list CommentJson) (id : Z) :
  threaded db ->
  get_comments db viewer vid = Done thread ->
  In id (flat_map thread_ids thread)
  <-> exists c, c_id c = id /\ live db vid c.
Proof.
  intros T Hg. split.
  - intros H. eapply listed_is_live; eauto. apply (threaded_ids T).
  - intros [c [<- L]]. eapply live_is_listed; eauto.
Qed.

Lemma db_thread_threaded : threaded db_thread.
Proof.
  split.
  - vm_compute. repeat constructor; simpl; intuition discriminate.
  - intros c H. simpl in H.
    destruct H as [<- | [<- | [<- | []]]]; discriminate.
  - intros c p H Hp. simpl in H.
    destruct H as [<- | [<- | [<- | []]]]; vm_compute in Hp;
      try discriminate.
    injection Hp as <-. exists comment_question.
    repeat split; simpl; auto.
Qed.

(** Bob's answer hangs under Alice's question and is listed. *)
Lemma get_comments_lists_the_live_comments_witness :
  In 2 (flat_map thread_ids
          match get_comments db_thread 2 1 with
          | Done thread => thread
          | Abort _ => []
          end)
  <-> exists c, c_id c = 2 /\ live db_thread 1 c.
Proof.
  apply get_comments_lists_the_live_comments with (viewer := 2).
  - exact db_thread_threaded.
  - vm_compute. reflexivity.
Defined.

Lemma get_comments_returns (db : DB) (user vid : Z)
  (version : RequirementVersion) (project : Project) :
  get_by v_id (versions db) vid = Some version ->
  version_project db version = Some project ->
  is_accessible_by project user = true ->
  exists thread, get_comments db user vid = Done thread.
Proof.
  intros Hv Hp Ha. unfold get_comments. rewrite Hv, Hp, Ha. cbn [negb].
  destruct (build_tree _ _ _) as [h roots]. eexists. reflexivity.
Qed.

Lemma create_comment_access (db db' : DB) (user vid : Z) (text : str)
  (parent : option Z) (now : Z) :
  create_comment db user vid text parent now = Done db' ->
  exists version project,
    get_by v_id (versions db) vid = Some version
    /\ version_project db version = Some project
    /\ is_accessible_by project user = true.
Proof.
  unfold create_comment.
  destruct (get_by v_id (versions db) vid) as [version|]; [|discriminate].
  destruct (version_project db version) as [project|] eqn:Ep;
    [|discriminate].
  destruct (is_accessible_by project user) eqn:Ea; [|discriminate].
  intros _. exists version, project. auto.
Qed.

Lemma live_grows (db : DB) (vid : Z) (c new : RequirementComment) :
  live db vid c ->
  live (mkDB (users db) (projects db) (requirements db) (versions db)
             (history db) (comments db ++ [new])) vid c.
Proof.
  induction 1 as [c Hc Hv Hd Hp | c parent Hc Hv Hd Hp L IH].
  - apply live_root; auto. cbn [comments]. apply in_app_iff. now left.
  - apply live_reply with (parent := parent); auto.
    cbn [comments]. apply in_app_iff. now left.
Qed.

(** X19.  A comment that [create_comment] accepts as a new topic, or as a
    reply to a live comment, is in the listing of its version right
    away. *)
Theorem created_comment_is_listed (db db' : DB) (user vid : Z) (text : str)
  (parent : option Z) (now : Z) :
  threaded db ->
  create_comment db user vid text parent now = Done db' ->
  (forall p, truthy_id parent = Some p ->
     exists c, c_id c = p /\ live db vid c) ->
  exists thread,
    get_comments db' user vid = Done thread
    /\ In (next_id c_id (comments db)) (flat_map thread_ids thread).
Proof.
  intros T E Hpar.
  assert (T' : threaded db').
  { pose proof (serve_comment_threaded
                  (CreateComment user vid text parent now) T) as H.
    unfold serve_comment in H. now rewrite E in H. }
  destruct (create_comment_access _ _ _ _ _ _ E)
    as [version [project [Hv [Hp Ha]]]].
  apply create_comment_done in E. destruct E as [Ht [Hok ->]].
  set (new := mkComment (next_id c_id (comments db)) vid user (strip text)
                        parent now false) in *.
  set (db' := mkDB (users db) (projects db) (requirements db) (versions db)
                   (history db) (comments db ++ [new])) in *.
  destruct (@get_comments_returns db' user vid version project Hv Hp Ha)
    as [thread Hg].
  exists thread. split; [exact Hg|].
  change (next_id c_id (comments db)) with (c_id new).
  apply (@live_is_listed db' user vid thread new T' Hg).
  assert (Hin : In new (comments db'))
    by (cbn [comments db']; apply in_app_iff; right; now left).
  destruct (truthy_id parent) as [p|] eqn:Ep.
  - destruct (Hpar p eq_refl) as [c [Hc L]].
    apply live_reply with (parent := c); auto.
    + cbn [new c_parent_comment_id]. now rewrite Hc.
    + now apply live_grows.
  - now apply live_root.
Qed.

(** Bob's second reply to Alice's question is listed. *)
Lemma created_comment_is_listed_witness :
  exists thread,
    get_comments
      (committed db_thread
         (create_comment db_thread 2 1 (lit " Which one? ") (Some 1) 400))
      2 1
    = Done thread
    /\ In (next_id c_id (comments db_thread)) (flat_map thread_ids thread).
Proof.
  apply (@created_comment_is_listed db_thread _ 2 1 (lit " Which one? ")
           (Some 1) 400).
  - exact db_thread_threaded.
  - vm_compute. reflexivity.
  - intros p Hp. vm_compute in Hp. injection Hp as <-.
    exists comment_question. split; [reflexivity|].
    apply live_root; simpl; auto.
Defined.

Lemma get_by_app_some {A : Type} (id_of : A -> Z) (l l' : list A) (id : Z)
  (x : A) :
  get_by id_of l id = Some x -> get_by id_of (l ++ l') id = Some x.
Proof.
  unfold get_by. induction l as [|y r IH]; [discriminate|].
  simpl. destruct (id_of y =? id); [auto | exact IH].
Qed.

Lemma set_comment_deleted_done (cid : Z) (c : RequirementComment) :
  c_is_deleted c = true -> set_comment_deleted cid c = c.
Proof.
  unfold set_comment_deleted. intros H. destruct (c_id c =? cid); [|easy].
  destruct c. simpl in *. now subst.
Qed.

(** What a deleted comment keeps through one more request. *)
Lemma serve_comment_final (db0 d : DB) (cid : Z) (dc : RequirementComment)
  (rq : comment_request) :
  c_id dc = cid -> c_is_deleted dc = true ->
  get_by c_id (comments d) cid = Some dc
  /\ (forall c, In c (comments d) ->
        truthy_id (c_parent_comment_id c) = Some cid ->
        In (c_id c) (map c_id (comments db0))) ->
  get_by c_id (comments (serve_comment d rq)) cid = Some dc
  /\ (forall c, In c (comments (serve_comment d rq)) ->
        truthy_id (c_parent_comment_id c) = Some cid ->
        In (c_id c) (map c_id (comments db0))).
Proof.
  intros Hid Hdel [Hget Hrep].
  destruct rq as [user vid text parent now | user cid' text | user cid'];
    unfold serve_comment.
  - destruct (create_comment d user vid text parent now) as [d'|s] eqn:E;
      [|split; assumption].
    apply create_comment_done in E. destruct E as [_ [Hok ->]].
    cbn [committed comments]. split.
    + now apply get_by_app_some.
    + intros c Hc Hp. apply in_app_iff in Hc.
      destruct Hc as [Hc | [<- | []]]; [auto|].
      cbn [c_parent_comment_id] in Hp. exfalso.
      unfold parent_is_valid in Hok. rewrite Hp, Hget, Hdel in Hok.
      now rewrite orb_true_r in Hok.
  - destruct (update_comment d user cid' text) as [d'|s] eqn:E;
      [|split; assumption].
    apply update_comment_done in E.
    destruct E as [comment [Hc [_ [Hd [_ ->]]]]].
    cbn [committed comments].
    assert (Hne : cid' <> cid).
    { intros ->. rewrite Hget in Hc. injection Hc as <-. congruence. }
    split.
    + rewrite get_by_map by apply set_comment_text_id. rewrite Hget.
      cbn [option_map]. f_equal. unfold set_comment_text.
      destruct (c_id dc =? cid') eqn:E; [|reflexivity].
      apply Z.eqb_eq in E. congruence.
    + intros c' Hc' Hp. apply in_map_iff in Hc'.
      destruct Hc' as [c [<- Hin]].
      rewrite set_comment_text_id. apply Hrep; [exact Hin|].
      revert Hp. unfold set_comment_text. now destruct (c_id c =? cid').
  - destruct (delete_comment d user cid') as [d'|s] eqn:E;
      [|split; assumption].
    apply delete_comment_done in E. cbn [committed]. rewrite E. split.
    + rewrite get_by_map by apply set_comment_deleted_id. rewrite Hget.
      cbn [option_map]. f_equal. now apply set_comment_deleted_done.
    + intros c' Hc' Hp. apply in_map_iff in Hc'.
      destruct Hc' as [c [<- Hin]].
      rewrite set_comment_deleted_id. apply Hrep; [exact Hin|].
      now rewrite set_comment_deleted_parent in Hp.
Qed.

Lemma fold_serve_comment_final (db0 : DB) (cid : Z)
  (dc : RequirementComment) (rqs : list comment_request) :
  c_id dc = cid -> c_is_deleted dc = true ->
  forall d,
  get_by c_id (comments d) cid = Some dc
  /\ (forall c, In c (comments d) ->
        truthy_id (c_parent_comment_id c) = Some cid ->
        In (c_id c) (map c_id (comments db0))) ->
  get_by c_id (comments (fold_left serve_comment rqs d)) cid = Some dc
  /\ (forall c, In c (comments (fold_left serve_comment rqs d)) ->
        truthy_id (c_parent_comment_id c) = Some cid ->
        In (c_id c) (map c_id (comments db0))).
Proof.
  intros Hid Hdel.
  induction rqs as [|rq rest IH]; intros d J; [exact J|].
  cbn [fold_left]. apply IH. now apply serve_comment_final.
Qed.

(** X20.  Deleting a comment is final: whatever comment requests follow,
    the comment stays deleted with the text it had, and nobody adds a
    reply under it. *)
Theorem deleted_comment_is_final (db db1 : DB) (user cid : Z)
  (rqs : list comment_request) :
  delete_comment db user cid = Done db1 ->
  let db2 := fold_left serve_comment rqs db1 in
  (exists c, get_by c_id (comments db) cid = Some c
             /\ get_by c_id (comments db2) cid
                = Some (mkComment cid (c_version_id c) (c_author_id c)
                                  (c_text c) (c_parent_comment_id c)
                                  (c_created_at c) true))
  /\ (forall r, In r (comments db2) ->
        truthy_id (c_parent_comment_id r) = Some cid ->
        In (c_id r) (map c_id (comments db))).
Proof.
  intros E db2.
  pose proof (delete_comment_done _ _ _ E) as Hc.
  assert (Hex : exists c, get_by c_id (comments db) cid = Some c).
  { revert E. unfold delete_comment.
    destruct (get_by c_id (comments db) cid) as [c|]; [eauto|discriminate]. }
  destruct Hex as [c Hget].
  pose proof (get_by_some _ _ _ Hget) as [_ Hid].
  set (dc := mkComment cid (c_version_id c) (c_author_id c) (c_text c)
                       (c_parent_comment_id c) (c_created_at c) true).
  assert (J : get_by c_id (comments db2) cid = Some dc
              /\ (forall r, In r (comments db2) ->
                    truthy_id (c_parent_comment_id r) = Some cid ->
                    In (c_id r) (map c_id (comments db1)))).
  { apply fold_serve_comment_final; auto.
    split; [|intros r Hr _; now apply in_map].
    rewrite Hc.
    rewrite get_by_map by apply set_comment_deleted_id. rewrite Hget.
    cbn [option_map]. f_equal. unfold set_comment_deleted.
    rewrite Hid, Z.eqb_refl. reflexivity. }
  destruct J as [J1 J2]. split.
  - exists c. auto.
  - intros r Hr Hp. specialize (J2 r Hr Hp). rewrite Hc in J2.
    rewrite map_map in J2. erewrite map_ext in J2; [exact J2|].
    intros a. apply set_comment_deleted_id.
Qed.

(** Alice's deleted question stays as it is: neither her rewrite nor Bob's
    answer is taken. *)
Lemma deleted_comment_is_final_witness :
  (exists c, get_by c_id (comments db_thread) 1 = Some c
             /\ get_by c_id (comments db_after_delete) 1
                = Some (mkComment 1 (c_version_id c) (c_author_id c)
                                  (c_text c) (c_parent_comment_id c)
                                  (c_created_at c) true))
  /\ (forall r, In r (comments db_after_delete) ->
        truthy_id (c_parent_comment_id r) = Some 1 ->
        In (c_id r) (map c_id (comments db_thread))).
Proof.
  apply (@deleted_comment_is_final db_thread db_thread_deleted 1 1
           requests_after_delete).
  vm_compute. reflexivity.
Defined.

(* ===================================================================== *)
(** ** Mentions and the notification fan-out *)
(* ===================================================================== *)

Lemma find_user_by_mention_access (db : DB) (project : Project)
  (mention : str) (u : User) :
  find_user_by_mention db project mention = Some u ->
  In u (users db) /\ is_accessible_by project (u_id u) = true.
Proof.
  assert (Hfind : forall f,
            match find f (users db) with
            | Some u => if is_accessible_by project (u_id u) then Some u
                        else None
            | None => None
            end = Some u ->
            In u (users db) /\ is_accessible_by project (u_id u) = true).
  { intros f. destruct (find f (users db)) as [u1|] eqn:E; [|discriminate].
    destruct (is_accessible_by project (u_id u1)) eqn:A; [|discriminate].
    intros [= <-]. apply find_some in E. tauto. }
  unfold find_user_by_mention. cbv zeta.
  match goal with
  | |- match ?e with Some _ => _ | None => _ end = _ -> _ =>
      destruct e as [u1|] eqn:E1
  end.
  - intros [= <-]. now apply Hfind in E1.
  - apply Hfind.
Qed.

Lemma is_accessible_by_spec (project : Project) (user : Z) :
  is_accessible_by project user = true
  <-> In user (p_user_id project :: p_shared_with project).
Proof.
  unfold is_accessible_by. rewrite orb_true_iff, Z.eqb_eq, existsb_Zeqb.
  simpl. tauto.
Qed.

(** X21.  The notifications of a comment stay in the project: a user gets
    a row exactly when the user has access to the project and is not the
    author of the comment, whatever the text mentions. *)
Theorem comment_notifications_stay_in_the_project (db : DB)
  (project : Project) (comment : RequirementComment) (actor user : Z) :
  In user (recipients (notify_comment_added db project comment actor))
  <-> user <> actor /\ is_accessible_by project user = true.
Proof.
  rewrite notify_comment_added_recipients, is_accessible_by_spec. split.
  - intros [Hne [H | [m [u [_ [Hf Hu]]]]]]; split; auto.
    apply find_user_by_mention_access in Hf. destruct Hf as [_ Hf].
    subst user. now apply is_accessible_by_spec.
  - intros [Hne H]. auto.
Qed.

Lemma in_dedup (l : list str) (x : str) : In x (dedup l) -> In x l.
Proof.
  induction l as [|y r IH]; [auto|]. simpl.
  intros [H | H]; [auto|]. apply filter_In in H. right. tauto.
Qed.

Lemma nodup_dedup (l : list str) : NoDup (dedup l).
Proof.
  induction l as [|y r IH]; simpl; constructor.
  - intros H. apply filter_In in H. destruct H as [_ H].
    now rewrite str_eqb_refl in H.
  - now apply NoDup_filter.
Qed.

Ltac reassoc :=
  rewrite <- ?app_assoc; simpl; rewrite <- ?app_assoc; simpl; reflexivity.

(** Where an open match stands in the text read so far. *)
Lemma scan_shape (s : str) :
  forall (st : scan_state) (cur pre : str),
  match st with
  | Outside => True
  | SeenAt => exists a, pre = a ++ [AT]
  | Local | Domain | Tail =>
      exists a c w, pre = a ++ AT :: rev cur /\ rev cur = c :: w
                    /\ isword c = true
  | LocalDot =>
      exists a c w, pre = a ++ AT :: rev (DOT :: cur) /\ rev cur = c :: w
                    /\ isword c = true
  end ->
  forall m, In m (scan st cur s) ->
  exists a c w b, m = c :: w /\ isword c = true
                  /\ pre ++ s = a ++ [AT] ++ m ++ b.
Proof.
  assert (Hrestart : forall c pre,
            match restart c with
            | Outside => True
            | SeenAt => exists a, pre ++ [c] = a ++ [AT]
            | _ => False
            end).
  { intros c pre. unfold restart. destruct (c =? AT)%N eqn:E; [|exact I].
    apply N.eqb_eq in E. subst c. now exists pre. }
  assert (Hstep : forall st cur pre c r,
            (forall (st : scan_state) (cur pre : str),
              match st with
              | Outside => True
              | SeenAt => exists a, pre = a ++ [AT]
              | Local | Domain | Tail =>
                  exists a c w, pre = a ++ AT :: rev cur /\ rev cur = c :: w
                                /\ isword c = true
              | LocalDot =>
                  exists a c w, pre = a ++ AT :: rev (DOT :: cur)
                                /\ rev cur = c :: w /\ isword c = true
              end ->
              forall m, In m (scan st cur r) ->
              exists a c w b, m = c :: w /\ isword c = true
                              /\ pre ++ r = a ++ [AT] ++ m ++ b) ->
            st = restart c ->
            forall m, In m (scan st cur r) ->
            exists a c0 w b, m = c0 :: w /\ isword c0 = true
                             /\ pre ++ c :: r = a ++ [AT] ++ m ++ b).
  { intros st cur pre c r IH -> m Hm.
    replace (pre ++ c :: r) with ((pre ++ [c]) ++ r)
      by (rewrite <- app_assoc; reflexivity).
    apply (IH (restart c) cur (pre ++ [c])); [|exact Hm].
    pose proof (Hrestart c pre) as H.
    destruct (restart c); auto; contradiction. }
  induction s as [|c r IH]; intros st cur pre Hst m Hm.
  - destruct st; simpl in Hm; try contradiction;
      destruct Hm as [<- | []]; destruct Hst as [a [c [w [Hp [Hc Hw]]]]].
    + exists a, c, w, []. rewrite Hc in *. repeat split; auto.
      rewrite !app_nil_r. exact Hp.
    + exists a, c, (w ++ [DOT]), []. simpl in *. rewrite Hc in *.
      repeat split; auto. rewrite !app_nil_r. exact Hp.
    + exists a, c, w, []. rewrite Hc in *. repeat split; auto.
      rewrite !app_nil_r. exact Hp.
    + exists a, c, w, []. rewrite Hc in *. repeat split; auto.
      rewrite !app_nil_r. exact Hp.
  - assert (Hsnoc : pre ++ c :: r = (pre ++ [c]) ++ r)
      by (rewrite <- app_assoc; reflexivity).
    destruct st; cbn [scan] in Hm.
    + (* Outside *)
      eapply Hstep; eauto.
    + (* SeenAt *)
      destruct Hst as [a ->].
      destruct (isword c) eqn:Ew.
      * rewrite Hsnoc. apply (IH Local [c]); [|exact Hm].
        exists a, c, []. repeat split; auto.
        reassoc.
      * eapply Hstep; eauto.
    + (* Local *)
      destruct Hst as [a [c0 [w [-> [Hc Hw]]]]].
      destruct (isword c) eqn:Ew.
      * rewrite Hsnoc. apply (IH Local (c :: cur)); [|exact Hm].
        exists a, c0, (w ++ [c]). simpl. rewrite Hc. repeat split; auto.
        reassoc.
      * destruct (c =? DOT)%N eqn:Ed.
        -- apply N.eqb_eq in Ed. subst c.
           rewrite Hsnoc. apply (IH LocalDot cur); [|exact Hm].
           exists a, c0, w. simpl. repeat split; auto.
           reassoc.
        -- destruct (c =? AT)%N eqn:Ea.
           ++ rewrite Hsnoc. apply (IH Domain (c :: cur)); [|exact Hm].
              exists a, c0, (w ++ [c]). simpl. rewrite Hc.
              repeat split; auto. reassoc.
           ++ destruct Hm as [<- | Hm].
              ** exists a, c0, w, (c :: r). rewrite Hc.
                 repeat split; auto. reassoc.
              ** rewrite Hsnoc. now apply (IH Outside [] _ I).
    + (* LocalDot *)
      destruct Hst as [a [c0 [w [-> [Hc Hw]]]]].
      destruct (isword c) eqn:Ew.
      * rewrite Hsnoc. apply (IH Local (c :: DOT :: cur)); [|exact Hm].
        exists a, c0, ((w ++ [DOT]) ++ [c]). simpl. rewrite Hc.
        repeat split; auto. reassoc.
      * destruct Hm as [<- | Hm].
        -- exists a, c0, (w ++ [DOT]), (c :: r). simpl. rewrite Hc.
           repeat split; auto. reassoc.
        -- eapply Hstep; eauto.
    + (* Domain *)
      destruct Hst as [a [c0 [w [-> [Hc Hw]]]]].
      destruct (isword c) eqn:Ew.
      * rewrite Hsnoc. apply (IH Domain (c :: cur)); [|exact Hm].
        exists a, c0, (w ++ [c]). simpl. rewrite Hc. repeat split; auto.
        reassoc.
      * destruct (c =? DOT)%N eqn:Ed.
        -- rewrite Hsnoc. apply (IH Tail (c :: cur)); [|exact Hm].
           exists a, c0, (w ++ [c]). simpl. rewrite Hc.
           repeat split; auto. reassoc.
        -- destruct Hm as [<- | Hm].
           ++ exists a, c0, w, (c :: r). rewrite Hc.
              repeat split; auto. reassoc.
           ++ eapply Hstep; eauto.
    + (* Tail *)
      destruct Hst as [a [c0 [w [-> [Hc Hw]]]]].
      destruct (isword c) eqn:Ew.
      * rewrite Hsnoc. apply (IH Tail (c :: cur)); [|exact Hm].
        exists a, c0, (w ++ [c]). simpl. rewrite Hc. repeat split; auto.
        reassoc.
      * destruct Hm as [<- | Hm].
        -- exists a, c0, w, (c :: r). rewrite Hc.
           repeat split; auto. reassoc.
        -- eapply Hstep; eauto.
Qed.

(** X22.  What [parse_mentions] returns: no mention twice, and every
    mention is a piece of the text that stands right after an at sign and
    begins with a word character. *)
Theorem parse_mentions_shape (text : str) :
  NoDup (parse_mentions text)
  /\ forall m, In m (parse_mentions text) ->
       exists a c w b, m = c :: w /\ isword c = true
                       /\ text = a ++ [AT] ++ m ++ b.
Proof.
  split; [apply nodup_dedup|].
  intros m Hm. apply in_dedup in Hm.
  apply (scan_shape text Outside [] [] I m Hm).
Qed.

Lemma count_fan_out (type related : str) (rid actor user : Z) (l : list Z) :
  NoDup l ->
  count_rows type user
    (flat_map (fun u => if negb (u =? actor)
                        then [mkNotification u type related rid] else []) l)
  = if existsb (Z.eqb user) l && negb (user =? actor) then 1%nat else 0%nat.
Proof.
  unfold count_rows. induction 1 as [|u r Hu Hr IH]; [reflexivity|].
  cbn [flat_map existsb]. rewrite filter_app, length_app, IH.
  destruct (Z.eqb_spec user u) as [-> | Hne].
  - assert (Hn : existsb (Z.eqb u) r = false).
    { destruct (existsb (Z.eqb u) r) eqn:E; [|reflexivity].
      apply existsb_Zeqb in E. contradiction. }
    rewrite Hn. cbn [orb andb].
    destruct (u =? actor); cbn [negb filter List.length n_user_id
                                n_notification_type andb]; [reflexivity|].
    now rewrite Z.eqb_refl, str_eqb_refl.
  - cbn [orb].
    destruct (u =? actor); cbn [negb filter List.length n_user_id
                                n_notification_type andb]; [reflexivity|].
    assert (E : (u =? user) = false) by (apply Z.eqb_neq; congruence).
    now rewrite E.
Qed.

(** X23.  When nobody is on the list of the project's users twice, an
    updated or a created requirement brings every user with access to the
    project exactly one notification, the acting user none, and nobody
    else any. *)
Theorem requirement_notifications_once_each (project : Project)
  (version : RequirementVersion) (actor user : Z) :
  NoDup (p_user_id project :: p_shared_with project) ->
  let expected :=
    if is_accessible_by project user && negb (user =? actor)
    then 1%nat else 0%nat in
  count_rows REQUIREMENT_UPDATED user
    (notify_requirement_updated project version actor) = expected
  /\ count_rows REQUIREMENT_CREATED user
       (notify_requirement_created project version actor) = expected.
Proof.
  intros Hnd expected.
  assert (He : is_accessible_by project user
               = existsb (Z.eqb user)
                   (p_user_id project :: p_shared_with project)).
  { unfold is_accessible_by. cbn [existsb]. now rewrite (Z.eqb_sym user). }
  unfold expected. rewrite He.
  unfold notify_requirement_updated, notify_requirement_created.
  split; now apply count_fan_out.
Qed.

(** Alice updates version A of her project: Bob gets one row. *)
Lemma requirement_notifications_once_each_witness :
  count_rows REQUIREMENT_UPDATED 2
    (notify_requirement_updated project1 version_a 1) = 1%nat
  /\ count_rows REQUIREMENT_CREATED 2
       (notify_requirement_created project1 version_a 1) = 1%nat.
Proof.
  apply (@requirement_notifications_once_each project1 version_a 1 2).
  vm_compute. repeat constructor; simpl; intuition discriminate.
Defined.

(* ===================================================================== *)
(** ** Sharing and custom columns *)
(* ===================================================================== *)

Section ListRemove.

Context {A : Type} (eqb : A -> A -> bool).
Hypothesis eqb_eq : forall a b, eqb a b = true <-> a = b.

Lemma in_list_remove (x y : A) (l : list A) :
  In y (list_remove eqb x l) -> In y l.
Proof.
  induction l as [|z r IH]; [auto|]. simpl.
  destruct (eqb x z); [auto|]. intros [H | H]; auto.
Qed.

Lemma list_remove_nodup (x : A) (l : list A) :
  NoDup l -> NoDup (list_remove eqb x l).
Proof.
  induction 1 as [|z r Hz Hr IH]; [constructor|]. simpl.
  destruct (eqb x z); [exact Hr|]. constructor; [|exact IH].
  intros H. apply Hz. eapply in_list_remove; eauto.
Qed.

Lemma list_remove_gone (x : A) (l : list A) :
  NoDup l -> ~ In x (list_remove eqb x l).
Proof.
  induction 1 as [|z r Hz Hr IH]; [auto|]. simpl.
  destruct (eqb x z) eqn:E.
  - apply eqb_eq in E. now subst.
  - intros [H | H]; [|contradiction].
    subst z. assert (eqb x x = true) by now apply eqb_eq. congruence.
Qed.

Lemma list_remove_other (x y : A) (l : list A) :
  y <> x -> In y l -> In y (list_remove eqb x l).
Proof.
  intros Hne. induction l as [|z r IH]; [auto|]. simpl.
  destruct (eqb x z) eqn:E.
  - apply eqb_eq in E. subst z. intros [H | H]; [congruence | exact H].
  - intros [H | H]; [now left | right; auto].
Qed.

Lemma list_remove_snoc (x : A) (l : list A) :
  ~ In x l -> list_remove eqb x (l ++ [x]) = l.
Proof.
  induction l as [|z r IH]; intros Hn; simpl.
  - assert (E : eqb x x = true) by now apply eqb_eq. now rewrite E.
  - destruct (eqb x z) eqn:E.
    + apply eqb_eq in E. subst z. exfalso. apply Hn. now left.
    + f_equal. apply IH. intros H. apply Hn. now right.
Qed.

End ListRemove.

Lemma get_by_rewrite {A : Type} (id_of : A -> Z) (f : A -> A) (l : list A)
  (id : Z) :
  (forall x, id_of (f x) = id_of x) ->
  get_by id_of (map (fun x => if id_of x =? id then f x else x) l) id
  = option_map f (get_by id_of l id).
Proof.
  intros Hf. unfold get_by.
  induction l as [|x r IH]; [reflexivity|].
  simpl. destruct (id_of x =? id) eqn:E.
  - now rewrite Hf, E.
  - rewrite E. exact IH.
Qed.

Lemma get_by_rewrite_other {A : Type} (id_of : A -> Z) (f : A -> A)
  (l : list A) (id id' : Z) :
  (forall x, id_of (f x) = id_of x) -> id' <> id ->
  get_by id_of (map (fun x => if id_of x =? id then f x else x) l) id'
  = get_by id_of l id'.
Proof.
  intros Hf Hne. unfold get_by.
  induction l as [|x r IH]; [reflexivity|].
  simpl. destruct (id_of x =? id) eqn:E.
  - rewrite Hf. apply Z.eqb_eq in E.
    assert (E' : (id_of x =? id') = false) by (apply Z.eqb_neq; congruence).
    now rewrite E'.
  - destruct (id_of x =? id'); [reflexivity | exact IH].
Qed.

Lemma update_project_distinct (db : DB) (pid : Z) (project : Project)
  (f : Project -> Project) :
  distinct_lists db ->
  get_project db pid = Some project ->
  (forall p, p_id (f p) = p_id p) ->
  NoDup (p_shared_with (f project)) ->
  NoDup (p_custom_columns (f project)) ->
  distinct_lists (update_project db pid f).
Proof.
  intros [Hids Hsh Hco] Hg Hf Hs Hc.
  apply get_by_some in Hg. destruct Hg as [Hin Hid].
  assert (Hrow : forall p', In p' (projects (update_project db pid f)) ->
                   p' = f project \/ In p' (projects db)).
  { cbn [update_project projects]. intros p' Hp'.
    apply in_map_iff in Hp'. destruct Hp' as [p [<- Hp]].
    destruct (p_id p =? pid) eqn:E; [|now right].
    left. f_equal. apply Z.eqb_eq in E.
    apply (unique_by_id p_id (projects db)); auto. congruence. }
  split.
  - cbn [update_project projects]. rewrite map_map.
    erewrite map_ext; [exact Hids|].
    intros p. cbv beta. destruct (p_id p =? pid); auto.
  - intros p' Hp'. destruct (Hrow p' Hp') as [-> | H]; auto.
  - intros p' Hp'. destruct (Hrow p' Hp') as [-> | H]; auto.
Qed.

Lemma serve_project_distinct (db : DB) (rq : project_request) :
  distinct_lists db -> distinct_lists (serve_project db rq).
Proof.
  intros D.
  destruct rq as [user pid email | user pid target | user pid name
                  | user pid name]; unfold serve_project.
  - unfold share_project.
    destruct (get_project db pid) as [project|] eqn:Eg; [|exact D].
    destruct (negb (is_accessible_by project user)); [exact D|].
    destruct (negb (truthy (strip email))); [exact D|].
    destruct (find _ (users db)) as [u|]; [|exact D].
    destruct (u_id u =? user); [exact D|].
    destruct (existsb (Z.eqb (u_id u)) (p_shared_with project)) eqn:Ex;
      [exact D|].
    cbn [committed].
    pose proof (get_by_some _ _ _ Eg) as [Hin _].
    apply update_project_distinct with (project := project); auto.
    + cbn [set_shared_with p_shared_with]. apply nodup_snoc.
      * now apply (distinct_shares D).
      * intros H. apply existsb_Zeqb in H. congruence.
    + cbn [set_shared_with p_custom_columns]. now apply (distinct_columns D).
  - unfold unshare_project.
    destruct (get_project db pid) as [project|] eqn:Eg; [|exact D].
    destruct (negb (is_accessible_by project user)); [exact D|].
    destruct (get_by u_id (users db) target) as [u|]; [|exact D].
    destruct (existsb (Z.eqb (u_id u)) (p_shared_with project));
      [|exact D].
    cbn [committed].
    pose proof (get_by_some _ _ _ Eg) as [Hin _].
    apply update_project_distinct with (project := project); auto.
    + cbn [set_shared_with p_shared_with]. apply list_remove_nodup.
      now apply (distinct_shares D).
    + cbn [set_shared_with p_custom_columns]. now apply (distinct_columns D).
  - unfold add_column.
    destruct (get_project db pid) as [project|] eqn:Eg; [|exact D].
    destruct (negb (is_accessible_by project user)); [exact D|].
    destruct (negb (truthy (strip name))); [exact D|].
    destruct (existsb (str_eqb (strip name)) (p_custom_columns project))
      eqn:Ex; [exact D|].
    cbn [committed].
    pose proof (get_by_some _ _ _ Eg) as [Hin _].
    apply update_project_distinct with (project := project); auto.
    + cbn [set_custom_columns p_shared_with]. now apply (distinct_shares D).
    + cbn [set_custom_columns p_custom_columns]. apply nodup_snoc.
      * now apply (distinct_columns D).
      * intros H. apply existsb_str_eqb in H. congruence.
  - unfold remove_column.
    destruct (get_project db pid) as [project|] eqn:Eg; [|exact D].
    destruct (negb (is_accessible_by project user)); [exact D|].
    destruct (is_protected name); [exact D|].
    destruct (existsb (str_eqb name) (p_custom_columns project));
      [|exact D].
    cbn [committed].
    pose proof (get_by_some _ _ _ Eg) as [Hin _].
    apply update_project_distinct with (project := project); auto.
    + cbn [set_custom_columns p_shared_with]. now apply (distinct_shares D).
    + cbn [set_custom_columns p_custom_columns]. apply list_remove_nodup.
      now apply (distinct_columns D).
Qed.

(** X24.  Sharing, unsharing, adding and removing columns keep the lists of
    a project free of repetitions: no user is on a share list twice and no
    custom column is there twice, whatever requests are served. *)
Theorem project_requests_keep_lists_distinct (db : DB)
  (rqs : list project_request) :
  distinct_lists db -> distinct_lists (fold_left serve_project rqs db).
Proof.
  revert db. induction rqs as [|rq rest IH]; intros db D; [exact D|].
  cbn [fold_left]. apply IH. now apply serve_project_distinct.
Qed.

Lemma db_one_distinct : distinct_lists db_one.
Proof.
  split.
  - vm_compute. repeat constructor; simpl; intuition discriminate.
  - intros p H. vm_compute in H. destruct H as [<- | []].
    vm_compute. repeat constructor; simpl; intuition discriminate.
  - intros p H. vm_compute in H. destruct H as [<- | []].
    cbn [p_custom_columns]. repeat constructor; simpl; intuition.
Qed.

(** Bob's requests on Alice's project. *)
Lemma project_requests_keep_lists_distinct_witness :
  distinct_lists (fold_left serve_project requests_project db_one).
Proof.
  apply project_requests_keep_lists_distinct. exact db_one_distinct.
Defined.

Lemma bool_eq_iff (a b : bool) : (a = true <-> b = true) -> a = b.
Proof. destruct a, b; intuition congruence. Qed.

Lemma get_project_update (db : DB) (pid : Z) (f : Project -> Project) :
  (forall p, p_id (f p) = p_id p) ->
  get_project (update_project db pid f) pid
  = option_map f (get_project db pid).
Proof. intros Hf. unfold get_project. now apply get_by_rewrite. Qed.

Lemma get_project_update_other (db : DB) (pid pid' : Z)
  (f : Project -> Project) :
  (forall p, p_id (f p) = p_id p) -> pid' <> pid ->
  get_project (update_project db pid f) pid' = get_project db pid'.
Proof. intros Hf Hne. unfold get_project. now apply get_by_rewrite_other. Qed.

Lemma Zeqb_eq_iff (a b : Z) : (a =? b) = true <-> a = b.
Proof. apply Z.eqb_eq. Qed.

(** X25.  Unsharing takes the access away: when no user is on the share
    list twice, any user with access to the project can take a user who is
    not the owner off the project; afterwards that user has no access,
    and the access of everybody else is as before. *)
Theorem unshare_revokes_access (db : DB) (actor pid target : Z)
  (project : Project) (u : User) :
  NoDup (p_shared_with project) ->
  get_project db pid = Some project ->
  is_accessible_by project actor = true ->
  get_by u_id (users db) target = Some u ->
  target <> p_user_id project ->
  exists db' project',
    unshare_project db actor pid target = Done db'
    /\ get_project db' pid = Some project'
    /\ is_accessible_by project' target = false
    /\ forall other, other <> target ->
         is_accessible_by project' other = is_accessible_by project other.
Proof.
  intros Hnd Hg Ha Hu Hne.
  pose proof (get_by_some _ _ _ Hu) as [_ Hid].
  unfold unshare_project. rewrite Hg, Ha, Hu, Hid. cbn [negb].
  assert (Ho : (p_user_id project =? target) = false)
    by (apply Z.eqb_neq; congruence).
  destruct (existsb (Z.eqb target) (p_shared_with project)) eqn:Ex.
  - eexists. eexists. split; [reflexivity|]. split.
    + rewrite get_project_update by reflexivity. rewrite Hg. reflexivity.
    + unfold is_accessible_by.
      cbn [set_shared_with p_user_id p_shared_with]. split.
      * rewrite Ho. cbn [orb].
        destruct (existsb (Z.eqb target)
                    (list_remove Z.eqb target (p_shared_with project)))
          eqn:E; [|reflexivity].
        apply existsb_Zeqb in E.
        now apply (list_remove_gone Z.eqb Zeqb_eq_iff) in E.
      * intros other Hother. f_equal. apply bool_eq_iff.
        rewrite !existsb_Zeqb. split.
        -- apply in_list_remove.
        -- now apply (list_remove_other Z.eqb Zeqb_eq_iff).
  - exists db, project. repeat split; auto.
    unfold is_accessible_by. now rewrite Ho, Ex.
Qed.

(** Bob, with whom the project is shared, takes himself off it. *)
Lemma unshare_revokes_access_witness :
  exists db' project',
    unshare_project db_one 2 1 2 = Done db'
    /\ get_project db' 1 = Some project'
    /\ is_accessible_by project' 2 = false
    /\ forall other, other <> 2 ->
         is_accessible_by project' other = is_accessible_by project1 other.
Proof.
  apply (@unshare_revokes_access db_one 2 1 2 project1 bob).
  - vm_compute. repeat constructor; simpl; intuition discriminate.
  - reflexivity.
  - reflexivity.
  - reflexivity.
  - discriminate.
Defined.

(** X26.  Sharing and unsharing undo each other: sharing a project with a
    user who had no access gives that user access, and unsharing the user
    again leaves the database as it was before. *)
Theorem share_then_unshare (db : DB) (actor pid : Z) (email : str)
  (project : Project) (u : User) :
  NoDup (map p_id (projects db)) ->
  get_project db pid = Some project ->
  is_accessible_by project actor = true ->
  strip email <> [] ->
  find (fun u => str_eqb (u_email u) (strip email)) (users db) = Some u ->
  is_accessible_by project (u_id u) = false ->
  exists db1 shared,
    share_project db actor pid email = Done db1
    /\ get_project db1 pid = Some shared
    /\ is_accessible_by shared (u_id u) = true
    /\ unshare_project db1 actor pid (u_id u) = Done db.
Proof.
  intros Hnd Hg Ha Ht Hf Hu.
  assert (Hne : (u_id u =? actor) = false).
  { apply Z.eqb_neq. intros E. rewrite E in Hu. congruence. }
  assert (Hex : existsb (Z.eqb (u_id u)) (p_shared_with project) = false).
  { unfold is_accessible_by in Hu. now apply orb_false_iff in Hu. }
  assert (Hnin : ~ In (u_id u) (p_shared_with project)).
  { intros H. apply existsb_Zeqb in H. congruence. }
  assert (Hget : exists u', get_by u_id (users db) (u_id u) = Some u').
  { destruct (get_by u_id (users db) (u_id u)) as [u'|] eqn:E; [eauto|].
    exfalso. apply find_some in Hf. destruct Hf as [Hin _].
    unfold get_by in E. pose proof (find_none _ _ E u Hin) as Hn.
    simpl in Hn. now rewrite Z.eqb_refl in Hn. }
  destruct Hget as [u' Hu'].
  pose proof (get_by_some _ _ _ Hu') as [_ Hid'].
  set (f1 := set_shared_with (fun l => l ++ [u_id u])).
  exists (update_project db pid f1), (f1 project).
  assert (Hg1 : get_project (update_project db pid f1) pid
                = Some (f1 project)).
  { rewrite get_project_update by reflexivity. now rewrite Hg. }
  split; [|split; [exact Hg1|split]].
  - unfold share_project. rewrite Hg, Ha. cbn [negb].
    destruct (strip email) as [|c r] eqn:Es; [congruence|].
    cbn [truthy negb]. rewrite Hf, Hne, Hex. reflexivity.
  - unfold is_accessible_by, f1. cbn [set_shared_with p_shared_with].
    apply orb_true_iff. right. apply existsb_Zeqb, in_app_iff.
    right. now left.
  - unfold unshare_project. rewrite Hg1.
    assert (Ha1 : is_accessible_by (f1 project) actor = true).
    { unfold is_accessible_by, f1 in *. cbn [set_shared_with p_user_id
                                              p_shared_with].
      apply orb_true_iff in Ha. apply orb_true_iff.
      destruct Ha as [Ha | Ha]; [now left | right].
      apply existsb_Zeqb. apply existsb_Zeqb in Ha.
      apply in_app_iff. now left. }
    rewrite Ha1. cbn [negb].
    change (users (update_project db pid f1)) with (users db).
    rewrite Hu', Hid'.
    assert (Hex1 : existsb (Z.eqb (u_id u)) (p_shared_with (f1 project))
                   = true).
    { apply existsb_Zeqb. unfold f1. cbn [set_shared_with p_shared_with].
      apply in_app_iff. right. now left. }
    rewrite Hex1. f_equal.
    unfold update_project. cbn [users projects requirements versions history
                                comments].
    rewrite map_map.
    assert (Hmap : map (fun p => if p_id (if p_id p =? pid then f1 p else p)
                                      =? pid
                                 then set_shared_with
                                        (list_remove Z.eqb (u_id u))
                                        (if p_id p =? pid then f1 p else p)
                                 else if p_id p =? pid then f1 p else p)
                     (projects db)
                   = projects db).
    { rewrite <- (map_id (projects db)) at 2. apply map_ext_in.
      intros p Hp. destruct (p_id p =? pid) eqn:E.
      - change (p_id (f1 p)) with (p_id p). rewrite E.
        assert (p = project).
        { apply get_by_some in Hg. destruct Hg as [Hin Hid].
          apply Z.eqb_eq in E.
          apply (unique_by_id p_id (projects db)); auto. congruence. }
        subst p. unfold f1, set_shared_with.
        cbn [p_id p_user_id p_custom_columns p_shared_with].
        rewrite (list_remove_snoc Z.eqb Zeqb_eq_iff) by exact Hnin.
        now destruct project.
      - now rewrite E. }
    rewrite Hmap. now destruct db.
Qed.

(** Bob shares Alice's project with Carol and takes her off it again. *)
Lemma share_then_unshare_witness :
  exists db1 p1,
    share_project db_one 2 1 (lit " carol@x.de ") = Done db1
    /\ get_project db1 1 = Some p1
    /\ is_accessible_by p1 (u_id carol) = true
    /\ unshare_project db1 2 1 (u_id carol) = Done db_one.
Proof.
  apply (@share_then_unshare db_one 2 1 (lit " carol@x.de ") project1 carol).
  - vm_compute. repeat constructor; simpl; intuition discriminate.
  - reflexivity.
  - reflexivity.
  - vm_compute. discriminate.
  - vm_compute. reflexivity.
  - reflexivity.
Defined.

Lemma is_protected_differs (name name' : str) :
  is_protected name = true -> is_protected name' = false -> name' <> name.
Proof. intros H H' ->. congruence. Qed.

Lemma serve_project_keeps_protected (d : DB) (pid : Z) (name : str)
  (rq : project_request) :
  is_protected name = true ->
  (exists p, get_project d pid = Some p /\ In name (p_custom_columns p)) ->
  exists p, get_project (serve_project d rq) pid = Some p
            /\ In name (p_custom_columns p).
Proof.
  intros Hprot [p [Hg Hin]].
  assert (Hup : forall pid' f,
            (forall q, p_id (f q) = p_id q) ->
            (forall q, get_project d pid' = Some q ->
               In name (p_custom_columns q) ->
               In name (p_custom_columns (f q))) ->
            exists p', get_project (update_project d pid' f) pid = Some p'
                       /\ In name (p_custom_columns p')).
  { intros pid' f Hf Hcols. destruct (Z.eq_dec pid pid') as [<- | Hne].
    - exists (f p). rewrite get_project_update by exact Hf.
      rewrite Hg. split; [reflexivity | auto].
    - exists p. rewrite get_project_update_other by auto. auto. }
  assert (Hsame : exists p', get_project d pid = Some p'
                             /\ In name (p_custom_columns p')) by eauto.
  destruct rq as [user pid' email | user pid' target | user pid' name'
                  | user pid' name']; unfold serve_project.
  - unfold share_project.
    destruct (get_project d pid') as [project|]; [|exact Hsame].
    destruct (negb (is_accessible_by project user)); [exact Hsame|].
    destruct (negb (truthy (strip email))); [exact Hsame|].
    destruct (find _ (users d)) as [u|]; [|exact Hsame].
    destruct (u_id u =? user); [exact Hsame|].
    destruct (existsb _ _); [exact Hsame|].
    cbn [committed]. apply Hup; auto.
  - unfold unshare_project.
    destruct (get_project d pid') as [project|]; [|exact Hsame].
    destruct (negb (is_accessible_by project user)); [exact Hsame|].
    destruct (get_by u_id (users d) target) as [u|]; [|exact Hsame].
    destruct (existsb _ _); [|exact Hsame].
    cbn [committed]. apply Hup; auto.
  - unfold add_column.
    destruct (get_project d pid') as [project|]; [|exact Hsame].
    destruct (negb (is_accessible_by project user)); [exact Hsame|].
    destruct (negb (truthy (strip name'))); [exact Hsame|].
    destruct (existsb _ _); [exact Hsame|].
    cbn [committed]. apply Hup; auto.
    intros q _ Hq. cbn [set_custom_columns p_custom_columns].
    apply in_app_iff. now left.
  - unfold remove_column.
    destruct (get_project d pid') as [project|]; [|exact Hsame].
    destruct (negb (is_accessible_by project user)); [exact Hsame|].
    destruct (is_protected name') eqn:Ep; [exact Hsame|].
    destruct (existsb _ _); [|exact Hsame].
    cbn [committed]. apply Hup; auto.
    intros q _ Hq. cbn [set_custom_columns p_custom_columns].
    apply (list_remove_other str_eqb str_eqb_eq); auto.
    intros ->. congruence.
Qed.

(** X27.  A custom column named like a protected column cannot be taken
    back: [add_column] accepts such a name, [remove_column] refuses it,
    and so the column stays in the project whatever requests follow. *)
Theorem protected_column_is_permanent (db : DB) (user pid : Z) (name : str)
  (project : Project) (rqs : list project_request) :
  get_project db pid = Some project ->
  is_accessible_by project user = true ->
  strip name <> [] ->
  is_protected (strip name) = true ->
  exists p,
    get_project
      (fold_left serve_project rqs (committed db (add_column db user pid name)))
      pid = Some p
    /\ In (strip name) (p_custom_columns p).
Proof.
  intros Hg Ha Ht Hprot.
  assert (H0 : exists p,
             get_project (committed db (add_column db user pid name)) pid
             = Some p /\ In (strip name) (p_custom_columns p)).
  { unfold add_column. rewrite Hg, Ha. cbn [negb].
    destruct (strip name) as [|c r] eqn:Es; [congruence|].
    cbn [truthy negb].
    destruct (existsb (str_eqb (c :: r)) (p_custom_columns project)) eqn:Ex.
    - exists project. split; [exact Hg|]. now apply existsb_str_eqb.
    - cbn [committed]. eexists. split.
      + rewrite get_project_update by reflexivity. rewrite Hg. reflexivity.
      + cbn [set_custom_columns p_custom_columns option_map].
        apply in_app_iff. right. now left. }
  revert H0. generalize (committed db (add_column db user pid name)).
  induction rqs as [|rq rest IH]; intros d H0; [exact H0|].
  cbn [fold_left]. apply IH. now apply serve_project_keeps_protected.
Qed.

(** Bob's column "Status" outlives his request to remove it. *)
Lemma protected_column_is_permanent_witness :
  exists p,
    get_project
      (fold_left serve_project [RemoveColumn 2 1 (lit "Status")]
         (committed db_one (add_column db_one 2 1 (lit " Status "))))
      1 = Some p
    /\ In (strip (lit " Status ")) (p_custom_columns p).
Proof.
  apply (@protected_column_is_permanent db_one 2 1 (lit " Status ") project1).
  - reflexivity.
  - reflexivity.
  - vm_compute. discriminate.
  - vm_compute. reflexivity.
Defined.

(* ===================================================================== *)
(** ** The views of a project *)
(* ===================================================================== *)

Lemma req_versions_nonempty (db : DB) (rid : Z) :
  rows_of db rid <> [] -> req_versions db rid <> [].
Proof.
  unfold req_versions, rows_of.
  destruct (filter _ (versions db)) as [|v r] eqn:E; [congruence|].
  intros _ H.
  assert (Hin : In v (order_by v_version_index (v :: r)))
    by (apply in_order_by; now left).
  rewrite H in Hin. contradiction.
Qed.

Lemma get_latest_version_some (db : DB) (rid : Z) :
  rows_of db rid <> [] -> exists v, get_latest_version db rid = Some v.
Proof.
  intros H. apply req_versions_nonempty in H. unfold get_latest_version.
  destruct (req_versions db rid); [congruence | eauto].
Qed.

(** X28.  A requirement that has a version is in exactly one of two
    places: while it is not deleted, the project page shows it to every
    user with access; once it is deleted, the overview of deleted
    requirements shows it to the owner of the project. *)
Theorem main_view_or_trash (db : DB) (viewer : Z) (req : Requirement)
  (project : Project)
  (out : list (Requirement * list RequirementVersion)) :
  In req (requirements db) ->
  get_project db (r_project_id req) = Some project ->
  rows_of db (r_id req) <> [] ->
  manage_project db viewer (r_project_id req) = Done out ->
  (In req (map fst out) <-> r_is_deleted req = false)
  /\ (In req (map (fun x => snd (fst x))
                  (deleted_requirements_overview db (p_user_id project)))
      <-> r_is_deleted req = true).
Proof.
  intros Hreq Hg Hrows Hm.
  pose proof (get_by_some _ _ _ Hg) as [Hp Hpid].
  split.
  - unfold manage_project in Hm. rewrite Hg in Hm.
    destruct (negb _ && negb _); [discriminate|].
    injection Hm as <-. rewrite in_map_iff. split.
    + intros [[r vs] [<- Hin]]. apply in_flat_map in Hin.
      destruct Hin as [r' [Hr' Hin]]. apply filter_In in Hr'.
      destruct Hr' as [_ Hf]. apply andb_true_iff in Hf.
      destruct Hf as [_ Hd]. apply negb_true_iff in Hd.
      destruct (req_versions db (r_id r')); [contradiction|].
      destruct Hin as [[= <- _] | []]. exact Hd.
    + intros Hd. exists (req, req_versions db (r_id req)).
      split; [reflexivity|]. apply in_flat_map. exists req. split.
      * apply filter_In. split; [exact Hreq|].
        now rewrite Z.eqb_refl, Hd.
      * apply req_versions_nonempty in Hrows.
        destruct (req_versions db (r_id req)); [congruence | now left].
  - unfold deleted_requirements_overview. rewrite in_map_iff. split.
    + intros [[[p r] v] [<- Hin]]. apply in_flat_map in Hin.
      destruct Hin as [p' [_ Hin]]. apply in_flat_map in Hin.
      destruct Hin as [r' [Hr' Hin]]. apply filter_In in Hr'.
      destruct Hr' as [_ Hf]. apply andb_true_iff in Hf.
      destruct (get_latest_version db (r_id r')); [|contradiction].
      destruct Hin as [[= _ <- _] | []]. tauto.
    + intros Hd. destruct (get_latest_version_some db _ Hrows) as [v Hv].
      exists (project, req, v). split; [reflexivity|].
      apply in_flat_map. exists project. split.
      * apply filter_In. split; [exact Hp | apply Z.eqb_refl].
      * apply in_flat_map. exists req. split.
        -- apply filter_In. split; [exact Hreq|].
           rewrite Hpid, Z.eqb_refl, Hd. reflexivity.
        -- rewrite Hv. now left.
Qed.

(** "Login" is on Alice's project page as Bob sees it, and in nobody's
    overview of deleted requirements. *)
Lemma main_view_or_trash_witness :
  (In requirement_login
      (map fst match manage_project db_one 2 1 with
               | Done out => out
               | Abort _ => []
               end)
   <-> r_is_deleted requirement_login = false)
  /\ (In requirement_login
         (map (fun x => snd (fst x))
              (deleted_requirements_overview db_one (p_user_id project1)))
      <-> r_is_deleted requirement_login = true).
Proof.
  apply (@main_view_or_trash db_one 2 requirement_login project1).
  - vm_compute. now left.
  - reflexivity.
  - vm_compute. discriminate.
  - vm_compute. reflexivity.
Defined.

(* ===================================================================== *)
(** ** The quick edits of a version *)
(* ===================================================================== *)

Lemma set_custom_data_keeps_row (f : dict -> dict) (u : option Z) :
  keeps_row (set_custom_data f u).
Proof. intros v. simpl. auto. Qed.

Lemma set_status_keeps_row (s : str) : keeps_row (set_status s).
Proof. intros v. simpl. auto. Qed.

Lemma with_version_cases (db : DB) (user vid : Z)
  (body : RequirementVersion -> outcome DB) :
  (exists s, with_version db user vid body = Abort s)
  \/ exists version project,
       get_by v_id (versions db) vid = Some version
       /\ version_project db version = Some project
       /\ is_accessible_by project user = true
       /\ with_version db user vid body = body version.
Proof.
  unfold with_version.
  destruct (get_by v_id (versions db) vid) as [version|] eqn:Ev;
    [|left; eauto].
  destruct (version_project db version) as [project|] eqn:Ep;
    [|left; eauto].
  destruct (is_accessible_by project user) eqn:E;
    [|left; cbn [negb]; eauto].
  right. exists version, project. cbn [negb]. repeat split; auto.
Qed.

(** What a quick edit writes. *)
Lemma serve_edit_cases (db : DB) (rq : edit_request) :
  serve_edit db rq = db
  \/ exists vid f,
       keeps_row f
       /\ (serve_edit db rq = update_version db vid f
           \/ exists h,
                serve_edit db rq = add_history (update_version db vid f) h).
Proof.
  destruct rq as [user vid column value | user vid status wants
                  | user vid]; unfold serve_edit.
  - unfold update_custom_data.
    destruct (with_version_cases db user vid
                (fun _ => Done (update_version db vid
                   (set_custom_data
                      (fun cd => dict_set cd column (strip value)) None))))
      as [[s ->] | [version [project [_ [_ [_ ->]]]]]]; [now left|].
    right. eexists _, _. split; [apply set_custom_data_keeps_row|].
    left. reflexivity.
  - unfold update_status.
    match goal with
    | |- committed db (with_version db user vid ?b) = _ \/ _ =>
        destruct (with_version_cases db user vid b)
          as [[s ->] | [version [project [_ [_ [_ ->]]]]]]; [now left|]
    end.
    destruct status as [s|]; [|destruct wants; now left].
    destruct (valid_status s); [|destruct wants; now left].
    right. eexists _, _. split; [apply set_status_keeps_row|].
    left. reflexivity.
  - unfold toggle_quantifiable.
    match goal with
    | |- committed db (with_version db user vid ?b) = _ \/ _ =>
        destruct (with_version_cases db user vid b)
          as [[s ->] | [version [project [_ [_ [_ ->]]]]]]; [now left|]
    end.
    right. eexists _, _. split; [apply set_custom_data_keeps_row|].
    right. eexists. reflexivity.
Qed.

Lemma update_version_frames (db : DB) (vid : Z)
  (f : RequirementVersion -> RequirementVersion) :
  keeps_row f ->
  map version_frame (versions (update_version db vid f))
  = map version_frame (versions db).
Proof.
  intros K. cbn [update_version versions]. rewrite map_map.
  apply map_ext. intros v. destruct (v_id v =? vid); [|reflexivity].
  unfold version_frame. destruct (K v) as [-> [-> [-> ->]]]. reflexivity.
Qed.

Lemma serve_edit_keeps (db : DB) (rq : edit_request) :
  sound db /\ dense db /\ tidy db ->
  (sound (serve_edit db rq) /\ dense (serve_edit db rq)
   /\ tidy (serve_edit db rq))
  /\ requirements (serve_edit db rq) = requirements db
  /\ map version_frame (versions (serve_edit db rq))
     = map version_frame (versions db).
Proof.
  intros [S [D T]].
  destruct (serve_edit_cases db rq)
    as [-> | [vid [f [K [-> | [h ->]]]]]]; [auto | |].
  - split; [split; [|split] | split].
    + now apply update_version_sound.
    + now apply update_version_dense.
    + now apply update_version_tidy.
    + reflexivity.
    + now apply update_version_frames.
  - split; [split; [|split] | split].
    + apply sound_same_rows with (db := update_version db vid f); auto.
      now apply update_version_sound.
    + apply dense_same_rows with (db := update_version db vid f); auto.
      now apply update_version_dense.
    + apply tidy_same_rows with (db := update_version db vid f); auto.
      now apply update_version_tidy.
    + reflexivity.
    + cbn [add_history versions]. now apply update_version_frames.
Qed.

(** X29.  The quick edits (status, one custom value, the quantifiable
    flag) leave the version chains alone: they write no requirement row,
    they change neither the id nor the requirement, index or label of any
    version, and the chains stay sorted, gapless and non-empty. *)
Theorem quick_edits_keep_the_chains (db : DB) (rqs : list edit_request) :
  sound db -> dense db -> tidy db ->
  let db' := fold_left serve_edit rqs db in
  sound db' /\ dense db' /\ tidy db'
  /\ requirements db' = requirements db
  /\ map version_frame (versions db') = map version_frame (versions db).
Proof.
  intros S D T. cbv zeta.
  assert (H : sound db /\ dense db /\ tidy db) by auto.
  clear S D T. revert db H.
  induction rqs as [|rq rest IH]; intros db H; [tauto|].
  cbn [fold_left].
  destruct (serve_edit_keeps rq H) as [H1 [Hr Hf]].
  destruct (IH _ H1) as [S [D [T [Hr' Hf']]]].
  split; [exact S|]. split; [exact D|]. split; [exact T|].
  split; congruence.
Qed.

Lemma db_one_chains : sound db_one /\ dense db_one /\ tidy db_one.
Proof.
  assert (H0 : no_requirements db_empty) by (split; reflexivity).
  destruct (no_requirements_sound H0) as [S0 D0].
  pose proof (no_requirements_tidy H0) as T0.
  change db_one with (run db_empty [Generate 1 1 [item_login]]).
  split; [|split].
  - now apply run_sound.
  - now apply run_dense.
  - now apply run_tidy.
Qed.

(** Bob's three edits of version A. *)
Lemma quick_edits_keep_the_chains_witness :
  sound db_edited /\ dense db_edited /\ tidy db_edited
  /\ requirements db_edited = requirements db_one
  /\ map version_frame (versions db_edited)
     = map version_frame (versions db_one).
Proof.
  apply (@quick_edits_keep_the_chains db_one requests_edit);
    apply db_one_chains.
Defined.

Lemma is_quantifiable_set (custom : dict) (b : bool) :
  is_quantifiable
    (dict_set custom (lit "is_quantifiable")
              (if b then lit "false" else lit "true"))
  = negb b.
Proof.
  unfold is_quantifiable, dict_get_or.
  rewrite dict_get_set, str_eqb_refl. now destruct b.
Qed.

Lemma toggle_quantifiable_once (db : DB) (user vid : Z)
  (version : RequirementVersion) (project : Project) :
  get_by v_id (versions db) vid = Some version ->
  version_project db version = Some project ->
  is_accessible_by project user = true ->
  let q := is_quantifiable (v_custom_data version) in
  let f := set_custom_data
             (fun cd => dict_set cd (lit "is_quantifiable")
                                 (if q then lit "false" else lit "true"))
             (Some user) in
  exists h,
    toggle_quantifiable db user vid
    = Done (add_history (update_version db vid f) h)
    /\ h_changes h
       = [(lit "is_quantifiable", arrow (ja_nein q) (ja_nein (negb q)))]
    /\ get_by v_id (versions (add_history (update_version db vid f) h)) vid
       = Some (f version)
    /\ version_project (add_history (update_version db vid f) h) (f version)
       = Some project.
Proof.
  intros Hv Hp Ha q f.
  unfold toggle_quantifiable, with_version. rewrite Hv, Hp, Ha.
  cbn [negb]. eexists. split; [reflexivity|]. split; [reflexivity|]. split.
  - cbn [add_history versions update_version].
    rewrite get_by_update by reflexivity. now rewrite Hv.
  - exact Hp.
Qed.

(** X30.  The quantifiable flag toggles: a request of a user with access
    flips what the flag reads as and logs the change; a second request
    flips it back, so that the flag and every other custom value read as
    at the start, and the history has the two changes, one the reverse of
    the other. *)
Theorem toggle_quantifiable_twice (db : DB) (user vid : Z)
  (version : RequirementVersion) (project : Project) :
  get_by v_id (versions db) vid = Some version ->
  version_project db version = Some project ->
  is_accessible_by project user = true ->
  let q := is_quantifiable (v_custom_data version) in
  exists db1 db2 v1 v2 h1 h2,
    toggle_quantifiable db user vid = Done db1
    /\ get_by v_id (versions db1) vid = Some v1
    /\ is_quantifiable (v_custom_data v1) = negb q
    /\ toggle_quantifiable db1 user vid = Done db2
    /\ get_by v_id (versions db2) vid = Some v2
    /\ is_quantifiable (v_custom_data v2) = q
    /\ (forall k, k <> lit "is_quantifiable" ->
          dict_get (v_custom_data v2) k = dict_get (v_custom_data version) k)
    /\ history db2 = history db ++ [h1; h2]
    /\ h_changes h1
       = [(lit "is_quantifiable", arrow (ja_nein q) (ja_nein (negb q)))]
    /\ h_changes h2
       = [(lit "is_quantifiable", arrow (ja_nein (negb q)) (ja_nein q))].
Proof.
  intros Hv Hp Ha q.
  destruct (toggle_quantifiable_once db user vid Hv Hp Ha)
    as [h1 [E1 [C1 [G1 P1]]]].
  cbv zeta in E1, C1, G1, P1. fold q in E1, C1, G1, P1.
  set (f1 := set_custom_data
               (fun cd => dict_set cd (lit "is_quantifiable")
                                   (if q then lit "false" else lit "true"))
               (Some user)) in *.
  set (db1 := add_history (update_version db vid f1) h1) in *.
  assert (Q1 : is_quantifiable (v_custom_data (f1 version)) = negb q).
  { unfold f1. cbn [set_custom_data v_custom_data].
    apply is_quantifiable_set. }
  destruct (toggle_quantifiable_once db1 user vid G1 P1 Ha)
    as [h2 [E2 [C2 [G2 _]]]].
  cbv zeta in E2, C2, G2. rewrite Q1 in E2, C2, G2.
  rewrite negb_involutive in C2.
  set (f2 := set_custom_data
               (fun cd => dict_set cd (lit "is_quantifiable")
                                   (if negb q then lit "false"
                                    else lit "true"))
               (Some user)) in *.
  exists db1, (add_history (update_version db1 vid f2) h2),
         (f1 version), (f2 (f1 version)), h1, h2.
  split; [exact E1|]. split; [exact G1|]. split; [exact Q1|].
  split; [exact E2|]. split; [exact G2|]. split.
  - unfold f2. cbn [set_custom_data v_custom_data].
    rewrite is_quantifiable_set. apply negb_involutive.
  - split.
    + intros k Hk. unfold f2, f1. cbn [set_custom_data v_custom_data].
      rewrite !dict_get_set.
      assert (E : str_eqb (lit "is_quantifiable") k = false).
      { apply str_eqb_neq. congruence. }
      now rewrite E.
    + split; [|split; [exact C1 | exact C2]].
      unfold db1. cbn [add_history update_version history].
      rewrite <- app_assoc. reflexivity.
Qed.

(** Bob flips the flag of version A and flips it back. *)
Lemma toggle_quantifiable_twice_witness :
  exists db1 db2 v1 v2 h1 h2,
    toggle_quantifiable db_one 2 1 = Done db1
    /\ get_by v_id (versions db1) 1 = Some v1
    /\ is_quantifiable (v_custom_data v1) = true
    /\ toggle_quantifiable db1 2 1 = Done db2
    /\ get_by v_id (versions db2) 1 = Some v2
    /\ is_quantifiable (v_custom_data v2) = false
    /\ (forall k, k <> lit "is_quantifiable" ->
          dict_get (v_custom_data v2) k
          = dict_get (v_custom_data version_a) k)
    /\ history db2 = history db_one ++ [h1; h2]
    /\ h_changes h1
       = [(lit "is_quantifiable", arrow (lit "Nein") (lit "Ja"))]
    /\ h_changes h2
       = [(lit "is_quantifiable", arrow (lit "Ja") (lit "Nein"))].
Proof.
  apply (@toggle_quantifiable_twice db_one 2 1 version_a project1);
    reflexivity.
Defined.
